(** * MGNREGA dashboard: geolocation fallback chain and district leaderboard

    A shallow embedding of two services of the server:

    - [server/services/multiApiGeolocation.js]: the district-name
      normalisation table, the four reverse-geocoding adapters and the
      fallback chain [getLiveDistrict];
    - [server/services/maharashtraLeaderboard.js]: aggregation of the
      monthly records per district, scoring, categorisation, sorting and
      ranking, and the derived queries.

    Conventions of the embedding.

    - A JavaScript string is a [string] of Rocq, read as ASCII text: the
      case mappings and the white-space class are those of the ASCII range,
      characters outside it are left alone.
    - A value that may be [null] or [undefined] is an [option]; the
      truthiness test of JavaScript on such a value is [truthy].
    - A JavaScript number is embedded twice. [Binary64] has the numbers
      of the language, every operation rounded as IEEE 754 binary64 rounds
      it, with the infinities and NaN; [Leaderboard64] is the leaderboard
      over these numbers, and what is stated about the value of a score,
      of an average or of a rate is stated about it. [Leaderboard] is the
      same program over the exact rationals ([Q]), without any rounding;
      it serves for what does not turn on the rounding: which records are
      read, the districts and their order, the ranks, the labels, and the
      relations between the figures of the entries.
    - A function that can throw returns a [Completion]. *)

From Stdlib Require Import List String Ascii Bool Arith ZArith QArith Qround Qminmax.
From Stdlib Require Import Qabs Qpower DecimalString Lia Lqa Permutation Sorted.
From Stdlib Require PrimFloat FloatOps SpecFloat.
Import ListNotations.

Close Scope Q_scope.

(** ** JavaScript strings *)

Module JsString.

Local Open Scope char_scope.

(** The ASCII members of the [\s] class, which is also the set removed by
    [String.prototype.trim]. *)
Definition is_space (c : ascii) : bool :=
  match c with
  | " " | "009" | "010" | "011" | "012" | "013" => true
  | _ => false
  end.

Definition upper_char (c : ascii) : ascii :=
  let n := nat_of_ascii c in
  if andb (97 <=? n)%nat (n <=? 122)%nat then ascii_of_nat (n - 32) else c.

Definition lower_char (c : ascii) : ascii :=
  let n := nat_of_ascii c in
  if andb (65 <=? n)%nat (n <=? 90)%nat then ascii_of_nat (n + 32) else c.

Definition chars := list ascii.

Definition explode (s : string) : chars := list_ascii_of_string s.
Definition implode (l : chars) : string := string_of_list_ascii l.

Fixpoint dropWhile (p : ascii -> bool) (l : chars) : chars :=
  match l with
  | [] => []
  | c :: l' => if p c then dropWhile p l' else l
  end.

Definition trimStart (l : chars) : chars := dropWhile is_space l.
Definition trimEnd (l : chars) : chars := rev (dropWhile is_space (rev l)).
Definition trim_chars (l : chars) : chars := trimEnd (trimStart l).
Definition upper_chars (l : chars) : chars := map upper_char l.
Definition lower_chars (l : chars) : chars := map lower_char l.

(** [s.trim()], [s.toUpperCase()], [s.toLowerCase()]. *)
Definition trim (s : string) : string := implode (trim_chars (explode s)).
Definition toUpperCase (s : string) : string := implode (upper_chars (explode s)).
Definition toLowerCase (s : string) : string := implode (lower_chars (explode s)).

(** [eat_ci w l]: [l] starts with the word [w], letters compared without
    regard to case (the [i] flag); the rest of [l] is returned. *)
Fixpoint eat_ci (w l : chars) : option chars :=
  match w, l with
  | [], _ => Some l
  | _ :: _, [] => None
  | a :: w', b :: l' =>
      if Ascii.eqb (upper_char a) (upper_char b) then eat_ci w' l' else None
  end.

(** [s.replace(/\s+WORD$/i, "")]: when [s] ends with [WORD] preceded by
    white space, the word and the whole run of white space before it are
    removed (the match is the leftmost one); otherwise [s] is unchanged.
    The text is walked from its end. *)
Definition replace_trailing_word (word : string) (l : chars) : chars :=
  match eat_ci (rev (explode word)) (rev l) with
  | Some (c :: rest) =>
      if is_space c then rev (dropWhile is_space rest) else l
  | _ => l
  end.

(** Truthiness of a value that is a string, [null] or [undefined]. *)
Definition truthy (v : option string) : bool :=
  match v with
  | Some s => negb (String.eqb s "")
  | None => false
  end.

(** [a || b] on such values. *)
Definition or_else (a b : option string) : option string :=
  if truthy a then a else b.

(** How a template literal prints such a value. *)
Definition show (v : option string) : string :=
  match v with
  | Some s => s
  | None => "null"
  end.

End JsString.

Import JsString.

(** ** District names ([multiApiGeolocation.js]) *)

Module DistrictNames.

Local Open Scope string_scope.

(** Maharashtra district corrections and variations. *)
Definition MAHARASHTRA_DISTRICT_MAP : list (string * string) :=
  [ ("AURANGABAD", "CHATRAPATI SAMBHAJI NAGAR");
    ("OSMANABAD", "DHARASHIV");
    ("AHMADNAGAR", "AHMEDNAGAR");
    ("AHMEDNAGAR", "AHMEDNAGAR");
    ("BULDANA", "BULDHANA");
    ("GONDIYA", "GONDIA");
    ("CHATRAPATI SAMBHAJINAGAR", "CHATRAPATI SAMBHAJI NAGAR");
    ("CHHATRAPATI SAMBHAJI NAGAR", "CHATRAPATI SAMBHAJI NAGAR");
    ("SAMBHAJI NAGAR", "CHATRAPATI SAMBHAJI NAGAR");
    ("KARVIR", "KOLHAPUR");
    ("ROHA TALUKA", "RAIGAD");
    ("ROHA", "RAIGAD");
    ("NAGPUR URBAN TALUKA", "NAGPUR");
    ("NAGPUR URBAN", "NAGPUR");
    ("NANDGAON-KHANDESHWAR", "AKOLA");
    ("AKOLA TALUKA", "AKOLA");
    ("PUNE CITY TALUKA", "PUNE");
    ("HAVELI TALUKA", "PUNE");
    ("MUMBAI CITY TALUKA", "MUMBAI SUBURBAN");
    ("MUMBAI SUBURBAN TALUKA", "MUMBAI SUBURBAN");
    ("MUMBAI", "MUMBAI SUBURBAN");
    ("MUMBAI CITY", "MUMBAI SUBURBAN");
    ("GREATER MUMBAI", "MUMBAI SUBURBAN");
    ("THANE", "THANE");
    ("PUNE", "PUNE");
    ("NAGPUR", "NAGPUR");
    ("NASHIK", "NASHIK");
    ("AKOLA", "AKOLA");
    ("AMRAVATI", "AMRAVATI");
    ("SOLAPUR", "SOLAPUR");
    ("KOLHAPUR", "KOLHAPUR");
    ("RAIGAD", "RAIGAD");
    ("RATNAGIRI", "RATNAGIRI");
    ("SINDHUDURG", "SINDHUDURG") ].

(** Property access [table[key]]; [None] is [undefined]. *)
Fixpoint lookup (table : list (string * string)) (key : string) : option string :=
  match table with
  | [] => None
  | (k, v) :: rest => if String.eqb k key then Some v else lookup rest key
  end.

(** The four [replace] calls of [normalizeDistrictName], in their order. *)
Definition strip_suffixes (l : chars) : chars :=
  replace_trailing_word "TEHSIL"
    (replace_trailing_word "TALUKA"
      (replace_trailing_word "TALUK"
        (replace_trailing_word "DISTRICT" l))).

(** The text looked up in the table. *)
Definition normalized_key (district : string) : string :=
  implode (strip_suffixes (upper_chars (trim_chars (explode district)))).

Definition normalizeDistrictName (district : option string) : option string :=
  if negb (truthy district) then None
  else
    match district with
    | None => None
    | Some d =>
        let normalized := normalized_key d in
        or_else (lookup MAHARASHTRA_DISTRICT_MAP normalized) (Some normalized)
    end.

End DistrictNames.

Import DistrictNames.

(** ** Reverse geocoding ([multiApiGeolocation.js]) *)

(** The result of running a piece of code that can throw. *)
Inductive Completion (A : Type) : Type :=
| Return (value : A)
| Throw (message : string).
Arguments Return {A} value.
Arguments Throw {A} message.

Module Geo.

Local Open Scope string_scope.

(** *** The outside world: credentials and HTTP answers *)

Record AddressComponent := {
  long_name : option string;
  types : list string }.

Record GoogleResult := {
  address_components : list AddressComponent;
  formatted_address : option string;
  location_type : option string }.

Record GoogleData := {
  status : option string;
  g_results : option (list GoogleResult) }.

Record MapmyIndiaResult := {
  mmi_district : option string;
  mmi_subDistrict : option string;
  mmi_state : option string;
  mmi_city : option string;
  mmi_locality : option string;
  mmi_formatted_address : option string;
  mmi_accuracy : option string }.

Record MapmyIndiaData := {
  responseCode : option Z;
  mmi_results : list MapmyIndiaResult }.

Record GeoapifyResult := {
  gf_county : option string;
  gf_state_district : option string;
  gf_city : option string;
  gf_town : option string;
  gf_village : option string;
  gf_state : option string;
  gf_country : option string;
  gf_formatted : option string;
  gf_confidence : option Q }.

Record GeoapifyData := {
  gf_results : option (list GeoapifyResult) }.

Record LocationIQAddress := {
  liq_state : option string;
  liq_state_district : option string;
  liq_region : option string;
  liq_city : option string;
  liq_county : option string;
  liq_district : option string;
  liq_town : option string;
  liq_village : option string;
  liq_country : option string }.

Record LocationIQData := {
  address : option LocationIQAddress;
  display_name : option string;
  importance : option Q }.

(** The four keys of [process.env], and what [axios.get] would do for each
    provider if it were called: answer with a body, or throw (time-out,
    refused connection, status outside 2xx). *)
Record World := {
  GOOGLE_API_KEY : option string;
  MAPMYINDIA_API_KEY : option string;
  GEOAPIFY_API_KEY : option string;
  LOCATIONIQ_API_KEY : option string;
  http_google : Completion (option GoogleData);
  http_mapmyindia : Completion (option MapmyIndiaData);
  http_geoapify : Completion (option GeoapifyData);
  http_locationiq : Completion (option LocationIQData) }.

(** *** What a provider returns *)

Inductive Accuracy :=
| AccuracyText (s : string)
| AccuracyNumber (q : Q).

Record GeocodeResult := {
  state : option string;
  district : option string;
  city : option string;
  country : option string;
  formatted : option string;
  coordinates : Q * Q;
  accuracy : Accuracy;
  source : string }.

(** *** Effects: the [errors] array and the HTTP requests issued

    [errors] is the local array of [getLiveDistrict]. [requests] is not in
    the source: it records which providers were asked over HTTP, so that
    the statements can say which were not. *)

Record Trail := {
  errors : list (string * string);   (* { api, error } in push order *)
  requests : list string }.          (* providers asked over HTTP, in order *)

Definition no_trail : Trail := {| errors := []; requests := [] |}.

Definition M (A : Type) : Type := Trail -> Completion A * Trail.

Definition ret {A} (a : A) : M A := fun t => (Return a, t).
Definition throw {A} (message : string) : M A := fun t => (Throw message, t).
Definition bind {A B} (m : M A) (k : A -> M B) : M B :=
  fun t => match m t with
           | (Return a, t') => k a t'
           | (Throw e, t') => (Throw e, t')
           end.

Notation "x <- m ;; k" := (bind m (fun x => k))
  (at level 61, m at next level, right associativity).

(** [await axios.get(...)] of one provider. *)
Definition axios_get {A} (provider : string) (answer : Completion A) : M A :=
  fun t => (answer, {| errors := errors t; requests := requests t ++ [provider] |}).

(** [errors.push({ api, error: error.message })]. *)
Definition push_error (api message : string) (t : Trail) : Trail :=
  {| errors := errors t ++ [(api, message)]; requests := requests t |}.

(** [a === b] on values that are a string or [null]. *)
Definition opt_eqb (a b : option string) : bool :=
  match a, b with
  | Some x, Some y => String.eqb x y
  | None, None => true
  | _, _ => false
  end.

(** [KEY && KEY !== 'PLACEHOLDER']. *)
Definition configured (key : option string) (placeholder : string) : bool :=
  truthy key && negb (opt_eqb key (Some placeholder)).

(** [state === 'Maharashtra' && district]. *)
Definition maharashtra_with_district (st d : option string) : bool :=
  opt_eqb st (Some "Maharashtra") && truthy d.

(** "Normalize for Maharashtra", as MapmyIndia, Geoapify and LocationIQ
    do it. *)
Definition normalize_for_maharashtra (st d : option string) : option string :=
  if maharashtra_with_district st d then normalizeDistrictName d else d.

Definition show_number (n : option Z) : string :=
  match n with
  | Some z => NilZero.string_of_int (Z.to_int z)
  | None => "undefined"
  end.

(** *** 1. Google *)

Record Components := {
  c_state : option string;
  c_district : option string;
  c_city : option string;
  c_country : option string }.

Definition includes (l : list string) (t : string) : bool :=
  existsb (String.eqb t) l.

(** Body of the inner loop, for one address component. *)
Definition scan_component (acc : Components) (c : AddressComponent) : Components :=
  let st := if includes (types c) "administrative_area_level_1" && negb (truthy (c_state acc))
            then long_name c else c_state acc in
  let d3 := if includes (types c) "administrative_area_level_3" && negb (truthy (c_district acc))
            then long_name c else c_district acc in
  let d2 := if includes (types c) "administrative_area_level_2" && negb (truthy d3)
            then long_name c else d3 in
  let ci := if includes (types c) "locality" && negb (truthy (c_city acc))
            then long_name c else c_city acc in
  let co := if includes (types c) "country" && negb (truthy (c_country acc))
            then long_name c else c_country acc in
  {| c_state := st; c_district := d2; c_city := ci; c_country := co |}.

(** The outer loop, with its [break] once state and district are found. *)
Fixpoint scan_results (acc : Components) (rs : list GoogleResult) : Components :=
  match rs with
  | [] => acc
  | r :: rest =>
      let acc' := fold_left scan_component (address_components r) acc in
      if truthy (c_state acc') && truthy (c_district acc') then acc'
      else scan_results acc' rest
  end.

Definition google_components (rs : list GoogleResult) : Components :=
  scan_results {| c_state := None; c_district := None; c_city := None; c_country := None |} rs.

Definition reverseGeocodeGoogle (w : World) (lat lon : Q) : M GeocodeResult :=
  if negb (configured (GOOGLE_API_KEY w) "YOUR_GOOGLE_API_KEY_HERE")
  then throw "Google Geocoding API key not configured"
  else
    data <- axios_get "Google" (http_google w) ;;
    match data with
    | None => throw "Google API returned status: UNKNOWN"
    | Some d =>
        match g_results d with
        | Some (first :: others) =>
            if opt_eqb (status d) (Some "OK") then
              let c := google_components (first :: others) in
              let normalizedDistrict := normalizeDistrictName (c_district c) in
              if negb (truthy (c_state c)) || negb (truthy normalizedDistrict)
              then throw "Could not extract state or district from Google response"
              else ret {| state := c_state c;
                          district := normalizedDistrict;
                          city := or_else (c_city c) normalizedDistrict;
                          country := or_else (c_country c) (Some "India");
                          formatted := formatted_address first;
                          coordinates := (lat, lon);
                          accuracy := AccuracyText
                                        (show (or_else (location_type first) (Some "APPROXIMATE")));
                          source := "Google" |}
            else throw ("Google API returned status: "
                          ++ show (or_else (status d) (Some "UNKNOWN")))
        | _ => throw ("Google API returned status: "
                        ++ show (or_else (status d) (Some "UNKNOWN")))
        end
    end.

(** *** 2. MapmyIndia *)

Definition mapmyindia_district (r : MapmyIndiaResult) : option string :=
  or_else (mmi_district r) (or_else (mmi_subDistrict r) None).

Definition mapmyindia_state (r : MapmyIndiaResult) : option string :=
  or_else (mmi_state r) None.

Definition mapmyindia_location (r : MapmyIndiaResult) (lat lon : Q) : GeocodeResult :=
  let district := mapmyindia_district r in
  let state := mapmyindia_state r in
  let city := or_else (mmi_city r) (or_else (mmi_locality r) None) in
  {| state := state;
     district := normalize_for_maharashtra state district;
     city := city;
     country := Some "India";
     formatted := or_else (mmi_formatted_address r)
                    (Some (show city ++ ", " ++ show district ++ ", " ++ show state));
     coordinates := (lat, lon);
     accuracy := AccuracyText (show (or_else (mmi_accuracy r) (Some "high")));
     source := "MapmyIndia" |}.

Definition reverseGeocodeMapMyIndia (w : World) (lat lon : Q) : M GeocodeResult :=
  if negb (configured (MAPMYINDIA_API_KEY w) "YOUR_MAPMYINDIA_API_KEY_HERE")
  then throw "MapmyIndia API key not configured"
  else
    data <- axios_get "MapmyIndia" (http_mapmyindia w) ;;
    match data with
    | None => throw "Cannot read properties of null (reading 'responseCode')"
    | Some d =>
        match responseCode d with
        | Some 200%Z =>
            match mmi_results d with
            | r :: _ => ret (mapmyindia_location r lat lon)
            | [] => throw "Cannot read properties of undefined (reading 'district')"
            end
        | code => throw ("MapmyIndia API error: " ++ show_number code)
        end
    end.

(** *** 3. Geoapify *)

Definition geoapify_district (r : GeoapifyResult) : option string :=
  or_else (gf_county r) (or_else (gf_state_district r) (or_else (gf_city r) None)).

Definition geoapify_state (r : GeoapifyResult) : option string :=
  or_else (gf_state r) None.

Definition geoapify_location (r : GeoapifyResult) (lat lon : Q) : GeocodeResult :=
  let district := geoapify_district r in
  let state := geoapify_state r in
  let city := or_else (gf_city r) (or_else (gf_town r) (or_else (gf_village r) None)) in
  {| state := state;
     district := normalize_for_maharashtra state district;
     city := city;
     country := or_else (gf_country r) (Some "India");
     formatted := or_else (gf_formatted r)
                    (Some (show city ++ ", " ++ show district ++ ", " ++ show state));
     coordinates := (lat, lon);
     accuracy := AccuracyNumber
                   match gf_confidence r with
                   | Some q => if Qeq_bool q 0 then (8 # 10)%Q else q
                   | None => (8 # 10)%Q
                   end;
     source := "Geoapify" |}.

Definition reverseGeocodeGeoapify (w : World) (lat lon : Q) : M GeocodeResult :=
  if negb (configured (GEOAPIFY_API_KEY w) "YOUR_GEOAPIFY_API_KEY_HERE")
  then throw "Geoapify API key not configured"
  else
    data <- axios_get "Geoapify" (http_geoapify w) ;;
    match data with
    | Some {| gf_results := Some (r :: _) |} => ret (geoapify_location r lat lon)
    | _ => throw "No results from Geoapify"
    end.

(** *** 4. LocationIQ *)

Definition empty_address : LocationIQAddress :=
  {| liq_state := None; liq_state_district := None; liq_region := None;
     liq_city := None; liq_county := None; liq_district := None;
     liq_town := None; liq_village := None; liq_country := None |}.

Definition locationiq_state (a : LocationIQAddress) : option string :=
  or_else (liq_state a) (or_else (liq_state_district a) (or_else (liq_region a) None)).

(** Priority: state_district > city > county. *)
Definition locationiq_district (a : LocationIQAddress) : option string :=
  let state := locationiq_state a in
  if truthy (liq_state_district a) && negb (opt_eqb (liq_state_district a) state)
  then liq_state_district a
  else if truthy (liq_city a) && opt_eqb state (Some "Maharashtra")
  then liq_city a
  else if truthy (liq_county a) then liq_county a
  else if truthy (liq_district a) then liq_district a
  else None.

Definition locationiq_location (d : LocationIQData) (lat lon : Q) : GeocodeResult :=
  let a := match address d with Some a => a | None => empty_address end in
  let state := locationiq_state a in
  let district := locationiq_district a in
  {| state := state;
     district := normalize_for_maharashtra state district;
     city := or_else (liq_city a) (or_else (liq_town a) (or_else (liq_village a) None));
     country := or_else (liq_country a) (Some "India");
     formatted := display_name d;
     coordinates := (lat, lon);
     accuracy := AccuracyNumber
                   match importance d with
                   | Some q => if Qeq_bool q 0 then (5 # 10)%Q else q
                   | None => (5 # 10)%Q
                   end;
     source := "LocationIQ" |}.

Definition reverseGeocodeLocationIQ (w : World) (lat lon : Q) : M GeocodeResult :=
  if negb (configured (LOCATIONIQ_API_KEY w) "YOUR_LOCATIONIQ_API_KEY_HERE")
  then throw "LocationIQ API key not configured"
  else
    data <- axios_get "LocationIQ" (http_locationiq w) ;;
    match data with
    | None => throw "Cannot read properties of null (reading 'address')"
    | Some d => ret (locationiq_location d lat lon)
    end.

(** *** The fallback chain *)

(** One block of [getLiveDistrict]: when the key is configured, call the
    adapter inside [try]; a result with district and state is returned at
    once; a thrown error is pushed on [errors]; in every other case
    control falls through to the rest of the function. *)
Definition attempt (key : option string) (placeholder api : string)
    (call : M GeocodeResult) (rest : M GeocodeResult) : M GeocodeResult :=
  if configured key placeholder then
    fun t =>
      match call t with
      | (Return result, t') =>
          if truthy (district result) && truthy (state result)
          then (Return result, t')
          else rest t'
      | (Throw message, t') => rest (push_error api message t')
      end
  else rest.

Definition ALL_FAILED : string :=
  "District detection unavailable. All geocoding APIs failed.".

(** Priority: Google > MapmyIndia > Geoapify > LocationIQ. *)
Definition getLiveDistrict (w : World) (lat lon : Q) : M GeocodeResult :=
  attempt (GOOGLE_API_KEY w) "YOUR_GOOGLE_API_KEY_HERE" "Google"
    (reverseGeocodeGoogle w lat lon)
    (attempt (MAPMYINDIA_API_KEY w) "YOUR_MAPMYINDIA_API_KEY_HERE" "MapmyIndia"
       (reverseGeocodeMapMyIndia w lat lon)
       (attempt (GEOAPIFY_API_KEY w) "YOUR_GEOAPIFY_API_KEY_HERE" "Geoapify"
          (reverseGeocodeGeoapify w lat lon)
          (attempt (LOCATIONIQ_API_KEY w) "YOUR_LOCATIONIQ_API_KEY_HERE" "LocationIQ"
             (reverseGeocodeLocationIQ w lat lon)
             (throw ALL_FAILED)))).

(** *** The chain seen as a list

    The four blocks of [getLiveDistrict] differ only in the key, the
    placeholder, the name and the adapter; [providers] lists them and
    [run_chain] folds [attempt] over such a list. *)

Record Provider := {
  key : option string;
  placeholder : string;
  api : string;
  call : M GeocodeResult }.

Definition providers (w : World) (lat lon : Q) : list Provider :=
  [ {| key := GOOGLE_API_KEY w; placeholder := "YOUR_GOOGLE_API_KEY_HERE";
       api := "Google"; call := reverseGeocodeGoogle w lat lon |};
    {| key := MAPMYINDIA_API_KEY w; placeholder := "YOUR_MAPMYINDIA_API_KEY_HERE";
       api := "MapmyIndia"; call := reverseGeocodeMapMyIndia w lat lon |};
    {| key := GEOAPIFY_API_KEY w; placeholder := "YOUR_GEOAPIFY_API_KEY_HERE";
       api := "Geoapify"; call := reverseGeocodeGeoapify w lat lon |};
    {| key := LOCATIONIQ_API_KEY w; placeholder := "YOUR_LOCATIONIQ_API_KEY_HERE";
       api := "LocationIQ"; call := reverseGeocodeLocationIQ w lat lon |} ].

Definition step (p : Provider) (rest : M GeocodeResult) : M GeocodeResult :=
  attempt (key p) (placeholder p) (api p) (call p) rest.

Definition run_chain (ps : list Provider) : M GeocodeResult :=
  fold_right step (throw ALL_FAILED) ps.

Definition extend (t : Trail) (es : list (string * string)) (rs : list string) : Trail :=
  {| errors := errors t ++ es; requests := requests t ++ rs |}.

Definition is_configured (p : Provider) : bool := configured (key p) (placeholder p).

(** What the adapter of a provider yields when it is called. *)
Definition outcome (p : Provider) : Completion GeocodeResult := fst (call p no_trail).

(** The test of [getLiveDistrict] on a result. *)
Definition sufficient (r : GeocodeResult) : bool :=
  truthy (district r) && truthy (state r).

Definition yields_sufficient (p : Provider) : bool :=
  is_configured p && match outcome p with
                     | Return r => sufficient r
                     | Throw _ => false
                     end.

(** State and district are both different from [null]. *)
Definition has_state_and_district (r : GeocodeResult) : bool :=
  match state r, district r with
  | Some _, Some _ => true
  | _, _ => false
  end.

(** The entries pushed on [errors] by the providers of a list: one for
    each configured provider whose adapter throws. *)
Definition thrown (ps : list Provider) : list (string * string) :=
  flat_map (fun p => if is_configured p
                     then match outcome p with
                          | Throw message => [(api p, message)]
                          | Return _ => []
                          end
                     else []) ps.

Definition asked (ps : list Provider) : list string :=
  map api (filter is_configured ps).

(** A call adds one request to the trail and nothing else, and what it
    yields does not depend on the trail. *)
Definition one_request (p : Provider) : Prop :=
  forall t, call p t
            = (outcome p, {| errors := errors t; requests := requests t ++ [api p] |}).

(** The failure trail names every provider that was asked. *)
Definition reports_every_attempt (t : Trail) : Prop :=
  map fst (errors t) = requests t.

(** [isInMaharashtra]. *)
Definition isInMaharashtra (location : option GeocodeResult) : bool :=
  match location with
  | Some l => opt_eqb (state l) (Some "Maharashtra")
  | None => false
  end.

End Geo.

(** ** Numbers over the rationals, and arrays *)

Module JsNumber.

Local Open Scope Q_scope.

(** [Math.round]: the nearest integer, a half going up. *)
Definition Math_round (x : Q) : Q := inject_Z (Qfloor (x + (1 # 2))).

(** [x || 0] on a number. *)
Definition or_zero (x : Q) : Q := if Qeq_bool x 0 then 0 else x.

(** [field || 0] on a field that may be missing. *)
Definition field_or_zero (x : option Q) : Q :=
  match x with
  | Some q => or_zero q
  | None => 0
  end.

(** [Math.max(...xs, last)]. *)
Definition Math_max (xs : list Q) (last : Q) : Q := fold_right Qmax last xs.

Definition Qltb (x y : Q) : bool := negb (Qle_bool y x).

End JsNumber.

Module JsArray.

Section Sort.

Variable A : Type.
(** The comparator handed to [sort]: a positive value asks for its
    second argument to come first. *)
Variable compareFn : A -> A -> Q.

(** [x] stood before every element of the sorted list [l]; it moves
    behind those the comparator orders strictly before it. *)
Fixpoint insert (x : A) (l : list A) : list A :=
  match l with
  | [] => [x]
  | y :: l' =>
      if JsNumber.Qltb 0 (compareFn x y) then y :: insert x l' else x :: l
  end.

(** [Array.prototype.sort(compareFn)]. The language requires the sort to
    be stable; with a comparator that is a consistent ordering the result
    is the one list that is sorted and keeps equal elements in their
    order, which insertion from the right computes. *)
Fixpoint sort (l : list A) : list A :=
  match l with
  | [] => []
  | x :: l' => insert x (sort l')
  end.

End Sort.

Arguments insert {A} compareFn x l.
Arguments sort {A} compareFn l.

(** [forEach((item, index) => ...)] used to rewrite every item. *)
Fixpoint mapi_from {A B} (f : A -> nat -> B) (index : nat) (l : list A) : list B :=
  match l with
  | [] => []
  | x :: l' => f x index :: mapi_from f (S index) l'
  end.

Definition mapi {A B} (f : A -> nat -> B) (l : list A) : list B := mapi_from f 0 l.

(** [l.slice(0, limit)]. *)
Definition slice0 {A} (limit : Z) (l : list A) : list A :=
  if (limit <? 0)%Z
  then firstn (Z.to_nat (Z.max (Z.of_nat (List.length l) + limit) 0)) l
  else firstn (Z.to_nat limit) l.

End JsArray.

(** ** The leaderboard ([maharashtraLeaderboard.js]), over the rationals

    The program with exact arithmetic. The value that the program gives to
    a score, to an average wage rate or to a completion rate can differ
    from the exact one by the rounding of its operations; these values are
    those of [Leaderboard64] below. *)

Module Leaderboard.

Import JsNumber.
Local Open Scope string_scope.
Local Open Scope Q_scope.

(** A stored record, with the root-level fields the service reads. *)
Record Doc := {
  state : string;
  district : string;
  year : Z;
  total_persondays_generated : option Q;
  total_expenditure : option Q;
  average_days_per_household : option Q;
  total_households_worked : option Q;
  total_completed_works : option Q;
  total_ongoing_works : option Q;
  average_wage_per_day : option Q }.

(** A value of [districtMap]. *)
Record DistrictData := {
  d_district : string;
  totalPersonDays : Q;
  totalExpenditure : Q;
  employmentProvided : Q;
  householdsWorked : Q;
  worksCompleted : Q;
  worksInProgress : Q;
  avgWageRate : Q;
  monthsCount : nat }.

Record Category := {
  label : string;
  labelEn : string;
  color : string;
  c_icon : string;
  c_emoji : string }.

Record Metrics := {
  m_totalPersonDays : Q;
  m_totalExpenditure : Q;
  m_employmentProvided : Q;
  m_householdsWorked : Q;
  m_worksCompleted : Q;
  m_worksInProgress : Q;
  completionRate : Q;
  m_avgWageRate : Q }.

Record Entry := {
  rank : nat;
  e_district : string;
  score : Q;
  employment : Q;
  works : Q;
  category : string;
  categoryColor : string;
  icon : string;
  emoji : string;
  metrics : Metrics;
  rankEmoji : option string }.

Record Response := {
  success : bool;
  message : option string;
  latest : option Z;                 (* the field [year] of the answer *)
  totalDistricts : option nat;
  leaderboard : list Entry }.

(** Uses: 60% Person-Days + 40% Expenditure. The argument is the
    [metrics] of the object passed, [None] when it is missing. *)
Definition calculatePerformanceScore (districtData : option DistrictData)
    (maxPersonDays maxExpenditure : Q) : Q :=
  match districtData with
  | None => 0
  | Some metrics =>
      let normalizedPersonDays :=
        if Qltb 0 maxPersonDays
        then or_zero (totalPersonDays metrics) / maxPersonDays else 0 in
      let normalizedExpenditure :=
        if Qltb 0 maxExpenditure
        then or_zero (totalExpenditure metrics) / maxExpenditure else 0 in
      let overallScore :=
        (normalizedPersonDays * (6 # 10) + normalizedExpenditure * (4 # 10)) * 100 in
      Math_round (overallScore * 100) / 100
  end.

Definition EXCELLENT : Category :=
  {| label := "🟢 उत्कृष्ट"; labelEn := "Excellent"; color := "green";
     c_icon := "🟢"; c_emoji := "🌟" |}.
Definition GOOD : Category :=
  {| label := "🟡 चांगले"; labelEn := "Good"; color := "yellow";
     c_icon := "🟡"; c_emoji := "✅" |}.
Definition AVERAGE : Category :=
  {| label := "🟠 सरासरी"; labelEn := "Average"; color := "orange";
     c_icon := "🟠"; c_emoji := "⚡" |}.
Definition NEEDS_IMPROVEMENT : Category :=
  {| label := "🔴 सुधारणा आवश्यक"; labelEn := "Needs Improvement"; color := "red";
     c_icon := "🔴"; c_emoji := "⚠️" |}.

(** Thresholds: 80 (Excellent), 60 (Good), 40 (Average), <40 (Needs
    Improvement). *)
Definition getPerformanceCategory (score : Q) : Category :=
  if Qle_bool 80 score then EXCELLENT
  else if Qle_bool 60 score then GOOD
  else if Qle_bool 40 score then AVERAGE
  else NEEDS_IMPROVEMENT.

(** [districtMap]: a [Map] keeps its keys in insertion order, so it is a
    list of bindings with distinct keys. *)
Definition DistrictMap := list (string * DistrictData).

Definition fresh (district : string) : DistrictData :=
  {| d_district := district; totalPersonDays := 0; totalExpenditure := 0;
     employmentProvided := 0; householdsWorked := 0; worksCompleted := 0;
     worksInProgress := 0; avgWageRate := 0; monthsCount := 0 |}.

(** The additions made for one record on the entry of its district. *)
Definition add_record (record : Doc) (d : DistrictData) : DistrictData :=
  {| d_district := d_district d;
     totalPersonDays := totalPersonDays d + field_or_zero (total_persondays_generated record);
     totalExpenditure := totalExpenditure d + field_or_zero (total_expenditure record);
     employmentProvided := employmentProvided d + field_or_zero (average_days_per_household record);
     householdsWorked := Qmax (householdsWorked d) (field_or_zero (total_households_worked record));
     worksCompleted := worksCompleted d + field_or_zero (total_completed_works record);
     worksInProgress := worksInProgress d + field_or_zero (total_ongoing_works record);
     avgWageRate := avgWageRate d + field_or_zero (average_wage_per_day record);
     monthsCount := S (monthsCount d) |}.

(** Body of [districts.forEach]: the entry of the record's district is
    created at the end of the map when it is missing, then updated in
    place. *)
Fixpoint upsert (m : DistrictMap) (record : Doc) : DistrictMap :=
  match m with
  | [] => [(district record, add_record record (fresh (district record)))]
  | (k, d) :: m' =>
      if String.eqb k (district record)
      then (k, add_record record d) :: m'
      else (k, d) :: upsert m' record
  end.

Definition aggregate (districts : list Doc) : DistrictMap :=
  fold_left upsert districts [].

(** "Calculate average wage rate". *)
Definition average_wage (data : DistrictData) : DistrictData :=
  {| d_district := d_district data;
     totalPersonDays := totalPersonDays data;
     totalExpenditure := totalExpenditure data;
     employmentProvided := employmentProvided data;
     householdsWorked := householdsWorked data;
     worksCompleted := worksCompleted data;
     worksInProgress := worksInProgress data;
     avgWageRate :=
       if (0 <? monthsCount data)%nat
       then Math_round (avgWageRate data / inject_Z (Z.of_nat (monthsCount data)))
       else 0;
     monthsCount := monthsCount data |}.

Definition maxPersonDays_of (allData : list DistrictData) : Q :=
  Math_max (map (fun d => or_zero (totalPersonDays d)) allData) 1.

Definition maxExpenditure_of (allData : list DistrictData) : Q :=
  Math_max (map (fun d => or_zero (totalExpenditure d)) allData) 1.

Definition completion_rate (data : DistrictData) : Q :=
  if Qltb 0 (worksCompleted data + worksInProgress data)
  then Math_round (worksCompleted data / (worksCompleted data + worksInProgress data) * 100)
  else 0.

(** The entry built for one district, before sorting. *)
Definition make_entry (maxPersonDays maxExpenditure : Q) (data : DistrictData) : Entry :=
  let score := calculatePerformanceScore (Some data) maxPersonDays maxExpenditure in
  let category := getPerformanceCategory score in
  {| rank := 0;
     e_district := d_district data;
     score := score;
     employment := totalPersonDays data;
     works := worksCompleted data;
     category := label category;
     categoryColor := color category;
     icon := c_icon category;
     emoji := c_emoji category;
     metrics := {| m_totalPersonDays := totalPersonDays data;
                   m_totalExpenditure := totalExpenditure data;
                   m_employmentProvided := employmentProvided data;
                   m_householdsWorked := householdsWorked data;
                   m_worksCompleted := worksCompleted data;
                   m_worksInProgress := worksInProgress data;
                   completionRate := completion_rate data;
                   m_avgWageRate := avgWageRate data |};
     rankEmoji := None |}.

(** [(a, b) => b.score - a.score]. *)
Definition by_score_descending (a b : Entry) : Q := score b - score a.

(** "Add ranks". *)
Definition add_rank (item : Entry) (index : nat) : Entry :=
  let r := (index + 1)%nat in
  {| rank := r;
     e_district := e_district item;
     score := score item;
     employment := employment item;
     works := works item;
     category := category item;
     categoryColor := categoryColor item;
     icon := icon item;
     emoji := emoji item;
     metrics := metrics item;
     rankEmoji := Some (if (r =? 1)%nat then "🥇"
                        else if (r =? 2)%nat then "🥈"
                        else if (r =? 3)%nat then "🥉"
                        else if (r <=? 10)%nat then "🏆"
                        else "📍") |}.

(** [allData]: the values of the map, in its order, once the average
    wage has been computed in each. *)
Definition all_data (districts : list Doc) : list DistrictData :=
  map snd (map (fun kd => (fst kd, average_wage (snd kd))) (aggregate districts)).

(** "Calculate scores": the entries before they are sorted. *)
Definition scored (districts : list Doc) : list Entry :=
  let allData := all_data districts in
  let maxPersonDays := maxPersonDays_of allData in
  let maxExpenditure := maxExpenditure_of allData in
  map (make_entry maxPersonDays maxExpenditure) allData.

(** "Sort by score (descending)" and "Add ranks". *)
Definition rank_all (districts : list Doc) : list Entry :=
  JsArray.mapi add_rank (JsArray.sort by_score_descending (scored districts)).

(** The two queries on the collection. [findOne] sorted by year and month,
    both descending, yields a record of the greatest year; [find] then
    yields the records of Maharashtra of that year. *)
Definition of_maharashtra (db : list Doc) : list Doc :=
  filter (fun r => String.eqb (state r) "Maharashtra") db.

Definition latestYear (db : list Doc) : option Z :=
  match of_maharashtra db with
  | [] => None
  | r :: rs => Some (fold_left Z.max (map year rs) (year r))
  end.

Definition find_year (db : list Doc) (y : Z) : list Doc :=
  filter (fun r => Z.eqb (year r) y) (of_maharashtra db).

Definition getMaharashtraLeaderboard (db : list Doc) : Response :=
  match latestYear db with
  | None => {| success := false;
               message := Some "No data found for Maharashtra";
               latest := None; totalDistricts := None; leaderboard := [] |}
  | Some latestYear =>
      let districts := find_year db latestYear in
      let leaderboard := rank_all districts in
      {| success := true;
         message := None;
         latest := Some latestYear;
         totalDistricts := Some (List.length leaderboard);
         leaderboard := leaderboard |}
  end.

Definition getDistrictRank (db : list Doc) (districtName : string) : option Entry :=
  let leaderboardData := getMaharashtraLeaderboard db in
  if negb (success leaderboardData) then None
  else find (fun d => String.eqb (toLowerCase (e_district d)) (toLowerCase districtName))
            (leaderboard leaderboardData).

Definition getTopDistricts (db : list Doc) (limit : Z) : list Entry :=
  let leaderboardData := getMaharashtraLeaderboard db in
  if negb (success leaderboardData) then []
  else JsArray.slice0 limit (leaderboard leaderboardData).

Definition getDistrictsByCategory (db : list Doc) (category_ : string) : list Entry :=
  let leaderboardData := getMaharashtraLeaderboard db in
  if negb (success leaderboardData) then []
  else filter (fun d => String.eqb (toLowerCase (category d)) (toLowerCase category_))
              (leaderboard leaderboardData).

End Leaderboard.

(** ** Vocabulary of the statements on the leaderboard *)

Module LeaderboardSpec.

Import JsNumber Leaderboard.
Local Open Scope Q_scope.

(** The records the leaderboard is computed from. *)
Definition selected (db : list Doc) : list Doc :=
  match latestYear db with
  | None => []
  | Some y => find_year db y
  end.

(** The distinct texts of a list, each at its first occurrence: the order
    in which [forEach] meets the districts. *)
Fixpoint distinct (l : list string) : list string :=
  match l with
  | [] => []
  | x :: l' => x :: filter (fun y => negb (String.eqb y x)) (distinct l')
  end.

(** The district groups, in group-iteration order. *)
Definition groups (districts : list Doc) : list string :=
  distinct (map district districts).

(** The rows of one district. *)
Definition rows_of (k : string) (districts : list Doc) : list Doc :=
  filter (fun r => String.eqb k (district r)) districts.

(** What the rows of one district add up to. *)
Definition summary (k : string) (rows : list Doc) : DistrictData :=
  fold_left (fun d r => add_record r d) rows (fresh k).

(** The entry of the map for one district. *)
Definition group_entry (districts : list Doc) (k : string) : string * DistrictData :=
  (k, summary k (rows_of k districts)).


Definition Qsum (l : list Q) : Q := fold_right Qplus 0 l.

Definition wage (r : Doc) : Q := field_or_zero (average_wage_per_day r).


(** Rounding to two decimal places. *)
Definition round2 (x : Q) : Q := Math_round (x * 100) / 100.

(** Every number of the record that is present is at least 0. *)
Definition non_negative (r : Doc) : bool :=
  forallb (fun x => Qle_bool 0 (field_or_zero x))
    [ total_persondays_generated r; total_expenditure r;
      average_days_per_household r; total_households_worked r;
      total_completed_works r; total_ongoing_works r; average_wage_per_day r ].

(** A record of Maharashtra for the year 2024. *)
Definition row (d : string) (persondays expenditure completed ongoing wage_rate : Q) : Doc :=
  {| state := "Maharashtra"; district := d; year := 2024;
     total_persondays_generated := Some persondays;
     total_expenditure := Some expenditure;
     average_days_per_household := None;
     total_households_worked := None;
     total_completed_works := Some completed;
     total_ongoing_works := Some ongoing;
     average_wage_per_day := Some wage_rate |}.

End LeaderboardSpec.

(** ** Collections used as examples *)

Module LeaderboardScenarios.

Import Leaderboard LeaderboardSpec.
Local Open Scope string_scope.
Local Open Scope Q_scope.

(** District A has 100000 person-days and no expenditure, district B has
    50000 person-days and an expenditure of 100000000. *)
Definition two_districts : list Doc :=
  [ row "A" 100000 0 0 0 0; row "B" 50000 100000000 0 0 0 ].

(** A and B have the same figures, C has twice as much. *)
Definition tie : list Doc :=
  [ row "A" 50 50 1 1 200; row "B" 50 50 3 1 200; row "C" 100 100 2 2 250 ].

(** Two months of one district, the second without any wage paid. *)
Definition uneven_wages : list Doc :=
  [ row "PUNE" 10 10 0 0 100; row "PUNE" 10 10 0 0 0 ].

Definition no_entry : Entry :=
  {| rank := 0; e_district := ""; score := 0; employment := 0; works := 0;
     category := ""; categoryColor := ""; icon := ""; emoji := "";
     metrics := {| m_totalPersonDays := 0; m_totalExpenditure := 0;
                   m_employmentProvided := 0; m_householdsWorked := 0;
                   m_worksCompleted := 0; m_worksInProgress := 0;
                   completionRate := 0; m_avgWageRate := 0 |};
     rankEmoji := None |}.

(** The entry at a position of the leaderboard, counted from 0. *)
Definition entry_at (i : nat) (db : list Doc) : Entry :=
  nth i (leaderboard (getMaharashtraLeaderboard db)) no_entry.

End LeaderboardScenarios.

(** ** Worlds used as examples *)

Module Scenarios.

Import Geo.
Local Open Scope string_scope.

Definition geoapify_answer (r : GeoapifyResult) : Completion (option GeoapifyData) :=
  Return (Some {| gf_results := Some [r] |}).

Definition mapmyindia_answer (r : MapmyIndiaResult) : Completion (option MapmyIndiaData) :=
  Return (Some {| responseCode := Some 200%Z; mmi_results := [r] |}).

(** Google is not configured, MapmyIndia times out, Geoapify places the
    point in the district AURANGABAD of Maharashtra. *)
Definition aurangabad_by_geoapify : GeoapifyResult :=
  {| gf_county := Some "AURANGABAD"; gf_state_district := None; gf_city := None;
     gf_town := None; gf_village := None; gf_state := Some "Maharashtra";
     gf_country := Some "India"; gf_formatted := Some "Aurangabad, Maharashtra, India";
     gf_confidence := Some 1%Q |}.

Definition third_answers : World :=
  {| GOOGLE_API_KEY := None;
     MAPMYINDIA_API_KEY := Some "key-2";
     GEOAPIFY_API_KEY := Some "key-3";
     LOCATIONIQ_API_KEY := Some "key-4";
     http_google := Throw "not called";
     http_mapmyindia := Throw "timeout of 5000ms exceeded";
     http_geoapify := geoapify_answer aurangabad_by_geoapify;
     http_locationiq := Throw "not called" |}.

(** MapmyIndia answers for Maharashtra with a district made of one space;
    Geoapify answers with Pune. *)
Definition blank_district : MapmyIndiaResult :=
  {| mmi_district := Some " "; mmi_subDistrict := None; mmi_state := Some "Maharashtra";
     mmi_city := None; mmi_locality := None; mmi_formatted_address := None;
     mmi_accuracy := None |}.

Definition pune_by_geoapify : GeoapifyResult :=
  {| gf_county := Some "Pune"; gf_state_district := None; gf_city := None;
     gf_town := None; gf_village := None; gf_state := Some "Maharashtra";
     gf_country := Some "India"; gf_formatted := Some "Pune, Maharashtra, India";
     gf_confidence := Some 1%Q |}.

Definition blank_then_pune : World :=
  {| GOOGLE_API_KEY := None;
     MAPMYINDIA_API_KEY := Some "key-2";
     GEOAPIFY_API_KEY := Some "key-3";
     LOCATIONIQ_API_KEY := None;
     http_google := Throw "not called";
     http_mapmyindia := mapmyindia_answer blank_district;
     http_geoapify := geoapify_answer pune_by_geoapify;
     http_locationiq := Throw "not called" |}.

(** Google is refused, MapmyIndia answers without any district, Geoapify
    still has the placeholder for a key, LocationIQ has none. *)
Definition state_only : MapmyIndiaResult :=
  {| mmi_district := None; mmi_subDistrict := None; mmi_state := Some "Maharashtra";
     mmi_city := None; mmi_locality := None; mmi_formatted_address := None;
     mmi_accuracy := None |}.

Definition nothing_found : World :=
  {| GOOGLE_API_KEY := Some "key-1";
     MAPMYINDIA_API_KEY := Some "key-2";
     GEOAPIFY_API_KEY := Some "YOUR_GEOAPIFY_API_KEY_HERE";
     LOCATIONIQ_API_KEY := None;
     http_google := Throw "Request failed with status code 403";
     http_mapmyindia := mapmyindia_answer state_only;
     http_geoapify := Throw "not called";
     http_locationiq := Throw "not called" |}.

(** MapmyIndia spells the state in capitals. *)
Definition capital_state : MapmyIndiaResult :=
  {| mmi_district := Some "Aurangabad"; mmi_subDistrict := None;
     mmi_state := Some "MAHARASHTRA";
     mmi_city := None; mmi_locality := None; mmi_formatted_address := None;
     mmi_accuracy := None |}.

(** Google places a point in the district Aurangabad of Bihar. *)
Definition bihar_by_google : GoogleData :=
  {| status := Some "OK";
     g_results := Some
       [ {| address_components :=
              [ {| long_name := Some "Aurangabad";
                   types := ["administrative_area_level_3"; "political"] |};
                {| long_name := Some "Bihar";
                   types := ["administrative_area_level_1"; "political"] |};
                {| long_name := Some "India"; types := ["country"; "political"] |} ];
            formatted_address := Some "Aurangabad, Bihar, India";
            location_type := Some "APPROXIMATE" |} ] |}.

Definition bihar : World :=
  {| GOOGLE_API_KEY := Some "key-1"; MAPMYINDIA_API_KEY := None;
     GEOAPIFY_API_KEY := None; LOCATIONIQ_API_KEY := None;
     http_google := Return (Some bihar_by_google);
     http_mapmyindia := Throw "not called";
     http_geoapify := Throw "not called"; http_locationiq := Throw "not called" |}.

Definition capital : World :=
  {| GOOGLE_API_KEY := None; MAPMYINDIA_API_KEY := Some "key-2";
     GEOAPIFY_API_KEY := None; LOCATIONIQ_API_KEY := None;
     http_google := Throw "not called";
     http_mapmyindia := mapmyindia_answer capital_state;
     http_geoapify := Throw "not called"; http_locationiq := Throw "not called" |}.

End Scenarios.

(** ** Vocabulary of the statements *)

Module Vocabulary.

(** The text does not begin with white space. *)
Definition clean_start (l : chars) : Prop :=
  match l with
  | c :: _ => is_space c = false
  | [] => True
  end.

(** A value that is a non-empty text, or [null]: never the empty text. *)
Definition text_or_null (v : option string) : Prop :=
  truthy v = true \/ v = None.

(** The text neither begins nor ends with white space and has no
    lower-case letter: the shape of every text looked up in the table. *)
Record settled (l : chars) : Prop := {
  settled_start : clean_start l;
  settled_end : clean_start (rev l);
  settled_upper : upper_chars l = l }.

End Vocabulary.

Import Vocabulary.

(** ** The route [POST /api/geolocation] ([routes/api.js]) *)

Module Routes.

Import Geo JsNumber.
Local Open Scope string_scope.

(** What the handler sends: status 400 with an error and a message, status
    200 with the location and its warning, or status 500 with the message
    of the error caught. *)
Inductive Reply :=
| BadRequest (error message : string)
| Located (location : GeocodeResult) (warning : option string)
| ServerError (message : string).

(** Truthiness of a number of the body that may be missing. *)
Definition given (x : option Q) : bool :=
  match x with
  | Some q => negb (Qeq_bool q 0)
  | None => false
  end.

Definition OUTSIDE : string :=
  "Location is outside Maharashtra. Only Maharashtra districts are supported.".

(** The handler, with the numbers [latitude] and [longitude] of the body.
    The trail is the one of the call of [getLiveDistrict], empty when the
    handler answers before calling it. *)
Definition geolocation (w : World) (latitude longitude : option Q) : Reply * Trail :=
  if negb (given latitude) || negb (given longitude)
  then (BadRequest "Missing coordinates" "Both latitude and longitude are required",
        no_trail)
  else
    match latitude, longitude with
    | Some lat, Some lon =>
        if Qltb lat (-90) || Qltb 90 lat
        then (BadRequest "Invalid latitude" "Latitude must be between -90 and 90",
              no_trail)
        else if Qltb lon (-180) || Qltb 180 lon
        then (BadRequest "Invalid longitude" "Longitude must be between -180 and 180",
              no_trail)
        else
          match getLiveDistrict w lat lon no_trail with
          | (Return locationInfo, t) =>
              let inMaharashtra := isInMaharashtra (Some locationInfo) in
              (Located locationInfo (if negb inMaharashtra then Some OUTSIDE else None), t)
          | (Throw message, t) => (ServerError message, t)
          end
    | _, _ =>
        (BadRequest "Missing coordinates" "Both latitude and longitude are required",
         no_trail)
    end.

End Routes.

(** ** Further vocabulary *)

Module Order.

(** [l] is [m] with some elements left out. *)
Inductive sublist {A : Type} : list A -> list A -> Prop :=
| sublist_nil : sublist [] []
| sublist_skip (x : A) (l m : list A) : sublist l m -> sublist l (x :: m)
| sublist_keep (x : A) (l m : list A) : sublist l m -> sublist (x :: l) (x :: m).

(** The names of the providers, in the order of the chain. *)
Definition PRIORITY : list string :=
  ["Google"; "MapmyIndia"; "Geoapify"; "LocationIQ"]%string.

End Order.

Module LeaderboardTotals.

Import JsNumber Leaderboard LeaderboardSpec.
Local Open Scope Q_scope.

(** The figures of a record as the service reads them. *)
Definition persondays (r : Doc) : Q := field_or_zero (total_persondays_generated r).
Definition expenditure (r : Doc) : Q := field_or_zero (total_expenditure r).
Definition completed (r : Doc) : Q := field_or_zero (total_completed_works r).
Definition ongoing (r : Doc) : Q := field_or_zero (total_ongoing_works r).
Definition households (r : Doc) : Q := field_or_zero (total_households_worked r).

(** The request and the district of an entry are the same text up to case. *)
Definition same_name (districtName : string) (e : Entry) : bool :=
  String.eqb (toLowerCase (e_district e)) (toLowerCase districtName).

Definition is_maharashtra (r : Doc) : bool := String.eqb (state r) "Maharashtra".

(** A record without person-days and without expenditure. *)
Definition idle (r : Doc) : bool :=
  Qeq_bool (persondays r) 0 && Qeq_bool (expenditure r) 0.

(** Records of two years and of two states. *)
Definition mixed : list Doc :=
  [ {| state := "Maharashtra"; district := "PUNE"; year := 2023;
       total_persondays_generated := Some 900; total_expenditure := Some 900;
       average_days_per_household := None; total_households_worked := Some 70;
       total_completed_works := None; total_ongoing_works := None;
       average_wage_per_day := None |};
    {| state := "Gujarat"; district := "SURAT"; year := 2025;
       total_persondays_generated := Some 500; total_expenditure := Some 500;
       average_days_per_household := None; total_households_worked := Some 10;
       total_completed_works := None; total_ongoing_works := None;
       average_wage_per_day := None |};
    {| state := "Maharashtra"; district := "PUNE"; year := 2024;
       total_persondays_generated := Some 100; total_expenditure := Some 40;
       average_days_per_household := None; total_households_worked := Some 30;
       total_completed_works := Some 2; total_ongoing_works := Some 2;
       average_wage_per_day := Some 200 |};
    {| state := "Maharashtra"; district := "Thane"; year := 2024;
       total_persondays_generated := Some 50; total_expenditure := Some 80;
       average_days_per_household := None; total_households_worked := Some 20;
       total_completed_works := Some 1; total_ongoing_works := None;
       average_wage_per_day := Some 210 |};
    {| state := "Maharashtra"; district := "PUNE"; year := 2024;
       total_persondays_generated := Some 100; total_expenditure := Some 40;
       average_days_per_household := None; total_households_worked := Some 45;
       total_completed_works := Some 1; total_ongoing_works := Some 1;
       average_wage_per_day := Some 220 |} ]%string.

(** Records of another state only. *)
Definition elsewhere : list Doc :=
  [ {| state := "Gujarat"; district := "SURAT"; year := 2025;
       total_persondays_generated := Some 500; total_expenditure := Some 500;
       average_days_per_household := None; total_households_worked := Some 10;
       total_completed_works := None; total_ongoing_works := None;
       average_wage_per_day := None |} ]%string.

(** Two districts that report nothing. *)
Definition nothing_reported : list Doc :=
  [ row "A" 0 0 0 0 0; row "B" 0 0 0 0 0 ]%string.

End LeaderboardTotals.

Module MoreScenarios.

Import Geo.
Local Open Scope string_scope.

(** No key is set, or only the placeholder that stands for one. *)
Definition no_keys : World :=
  {| GOOGLE_API_KEY := None;
     MAPMYINDIA_API_KEY := Some "YOUR_MAPMYINDIA_API_KEY_HERE";
     GEOAPIFY_API_KEY := Some "";
     LOCATIONIQ_API_KEY := None;
     http_google := Return (Some Scenarios.bihar_by_google);
     http_mapmyindia := Scenarios.mapmyindia_answer Scenarios.state_only;
     http_geoapify := Scenarios.geoapify_answer Scenarios.pune_by_geoapify;
     http_locationiq := Throw "not called" |}.

End MoreScenarios.

(** ** Binary64 numbers

    The numbers of JavaScript, with the arithmetic of IEEE 754 binary64 in
    its default mode: the result of an operation is the exact result
    rounded to the nearest number of the format, a tie going to the even
    mantissa; a result of magnitude [2 ^ 1024] or more is an infinity. A
    finite number is kept as the rational it stands for, written as a
    reduced fraction. The two zeros are not told apart: the only operation
    that would show the sign of a zero is a division by it, and the
    leaderboard divides by a number only after testing that it is greater
    than 0. *)

Module Binary64.

Local Open Scope Q_scope.

Inductive number := Finite (q : Q) | Infinity (negative : bool) | NaN.

Definition pow2 (e : Z) : Q := 2 ^ e.

(** For [q] greater than 0, the integer [k] with
    [2 ^ k <= q < 2 ^ (k + 1)]. *)
Definition ilog2 (q : Q) : Z :=
  let l := (Z.log2 (Qnum q) - Z.log2 (Zpos (Qden q)))%Z in
  if Qle_bool (pow2 l) q then l else (l - 1)%Z.

(** The exponent of the last bit of the 53 bits that the format keeps of
    [q]; it is [-1074] for the subnormal numbers. *)
Definition exponent (q : Q) : Z := Z.max (ilog2 (Qabs q) - 52) (-1074).

(** The nearest integer, a tie going to the even one. *)
Definition round_even (x : Q) : Z :=
  let f := Qfloor x in
  match Qcompare (x - inject_Z f) (1 # 2) with
  | Lt => f
  | Gt => (f + 1)%Z
  | Eq => if Z.even f then f else (f + 1)%Z
  end.

Definition mantissa (q : Q) : Z := round_even (q / pow2 (exponent q)).

(** The nearest number with 53 bits, before the test for overflow. *)
Definition nearest (q : Q) : Q := inject_Z (mantissa q) * pow2 (exponent q).

(** The number of the format that an exact result is rounded to. *)
Definition round64 (q : Q) : number :=
  let r := nearest (Qred q) in
  if Qle_bool (pow2 1024) (Qabs r) then Infinity (negb (Qle_bool 0 r)) else Finite (Qred r).

(** A numeric literal of the program text. *)
Definition literal (q : Q) : number := round64 q.

(** A count as a number. *)
Definition of_nat (n : nat) : number := round64 (inject_Z (Z.of_nat n)).

(** [x + y]. *)
Definition add (x y : number) : number :=
  match x, y with
  | Finite a, Finite b => round64 (a + b)
  | Finite _, Infinity s => Infinity s
  | Infinity s, Finite _ => Infinity s
  | Infinity s, Infinity t => if Bool.eqb s t then Infinity s else NaN
  | _, _ => NaN
  end.

Definition neg (x : number) : number :=
  match x with
  | Finite q => Finite (- q)
  | Infinity s => Infinity (negb s)
  | NaN => NaN
  end.

(** [x - y]. *)
Definition sub (x y : number) : number := add x (neg y).

(** [x * y]. *)
Definition mul (x y : number) : number :=
  match x, y with
  | Finite a, Finite b => round64 (a * b)
  | Finite a, Infinity s | Infinity s, Finite a =>
      if Qeq_bool a 0 then NaN else Infinity (xorb s (negb (Qle_bool 0 a)))
  | Infinity s, Infinity t => Infinity (xorb s t)
  | _, _ => NaN
  end.

(** [x / y]. *)
Definition div (x y : number) : number :=
  match x, y with
  | Finite a, Finite b =>
      if Qeq_bool b 0
      then if Qeq_bool a 0 then NaN else Infinity (negb (Qle_bool 0 a))
      else round64 (a / b)
  | Finite _, Infinity _ => Finite 0
  | Infinity s, Finite b => Infinity (xorb s (negb (Qle_bool 0 b)))
  | _, _ => NaN
  end.

(** [x < y] and [x <= y]: false as soon as one side is NaN. *)
Definition ltb (x y : number) : bool :=
  match x, y with
  | Finite a, Finite b => negb (Qle_bool b a)
  | Finite _, Infinity s => negb s
  | Infinity s, Finite _ => s
  | Infinity s, Infinity t => s && negb t
  | _, _ => false
  end.

Definition leb (x y : number) : bool :=
  match x, y with
  | Finite a, Finite b => Qle_bool a b
  | Finite _, Infinity s => negb s
  | Infinity s, Finite _ => s
  | Infinity s, Infinity t => s || negb t
  | _, _ => false
  end.

Definition is_zero (x : number) : bool :=
  match x with
  | Finite q => Qeq_bool q 0
  | _ => false
  end.

(** [x || 0]: 0 and NaN are the numbers that are falsy. *)
Definition or_zero (x : number) : number :=
  match x with
  | Finite q => if Qeq_bool q 0 then Finite 0 else x
  | Infinity _ => x
  | NaN => Finite 0
  end.

(** [field || 0] on a field that may be missing. *)
Definition field_or_zero (x : option number) : number :=
  match x with
  | Some n => or_zero n
  | None => Finite 0
  end.

(** [Math.round]: the nearest integer, a half going up. The integer is a
    number of the format whenever [x] is. *)
Definition Math_round (x : number) : number :=
  match x with
  | Finite q => Finite (JsNumber.Math_round q)
  | _ => x
  end.

(** [Math.max(x, y)]: NaN as soon as one argument is NaN. *)
Definition max2 (x y : number) : number :=
  match x, y with
  | NaN, _ | _, NaN => NaN
  | _, _ => if ltb x y then y else x
  end.

(** [Math.max(...xs, last)]. *)
Definition Math_max (xs : list number) (last : number) : number := fold_right max2 last xs.

(** What [sort] makes of the value returned by its comparator: only the
    sign counts, and NaN counts as 0. *)
Definition sort_key (v : number) : Q :=
  match v with
  | Finite q => q
  | Infinity s => if s then -1 else 1
  | NaN => 0
  end.

(** At least 0, possibly infinite. *)
Definition nonneg (x : number) : Prop :=
  match x with
  | Finite q => 0 <= q
  | Infinity s => s = false
  | NaN => False
  end.

(** A finite number is a number of the format when rounding leaves it as
    it is. *)
Definition representable (x : number) : Prop :=
  match x with
  | Finite q => round64 q = Finite q
  | _ => True
  end.

Definition finite (x : number) : Prop :=
  match x with
  | Finite _ => True
  | _ => False
  end.

End Binary64.

(** ** The leaderboard over binary64 numbers *)

Module Leaderboard64.

Import Binary64.
Local Open Scope string_scope.

(** A stored record, with the root-level fields the service reads. *)
Record Doc := {
  state : string;
  district : string;
  year : Z;
  total_persondays_generated : option number;
  total_expenditure : option number;
  average_days_per_household : option number;
  total_households_worked : option number;
  total_completed_works : option number;
  total_ongoing_works : option number;
  average_wage_per_day : option number }.

(** A value of [districtMap]. [monthsCount] starts at 0 and grows by 1 for
    each record; an array has fewer than [2 ^ 32] elements, so the counter
    is the exact count, and it enters the division as the number
    [of_nat monthsCount]. *)
Record DistrictData := {
  d_district : string;
  totalPersonDays : number;
  totalExpenditure : number;
  employmentProvided : number;
  householdsWorked : number;
  worksCompleted : number;
  worksInProgress : number;
  avgWageRate : number;
  monthsCount : nat }.

Record Metrics := {
  m_totalPersonDays : number;
  m_totalExpenditure : number;
  m_employmentProvided : number;
  m_householdsWorked : number;
  m_worksCompleted : number;
  m_worksInProgress : number;
  completionRate : number;
  m_avgWageRate : number }.

Record Entry := {
  rank : nat;
  e_district : string;
  score : number;
  employment : number;
  works : number;
  category : string;
  categoryColor : string;
  icon : string;
  emoji : string;
  metrics : Metrics;
  rankEmoji : option string }.

Record Response := {
  success : bool;
  message : option string;
  latest : option Z;
  totalDistricts : option nat;
  leaderboard : list Entry }.

(** [calculatePerformanceScore], every operation rounded as it is made. *)
Definition calculatePerformanceScore (districtData : option DistrictData)
    (maxPersonDays maxExpenditure : number) : number :=
  match districtData with
  | None => Finite 0
  | Some metrics =>
      let normalizedPersonDays :=
        if ltb (Finite 0) maxPersonDays
        then div (or_zero (totalPersonDays metrics)) maxPersonDays else Finite 0 in
      let normalizedExpenditure :=
        if ltb (Finite 0) maxExpenditure
        then div (or_zero (totalExpenditure metrics)) maxExpenditure else Finite 0 in
      let overallScore :=
        mul (add (mul normalizedPersonDays (literal (6 # 10)))
                 (mul normalizedExpenditure (literal (4 # 10))))
            (Finite 100) in
      div (Math_round (mul overallScore (Finite 100))) (Finite 100)
  end.

(** The comparisons with 80, 60 and 40 are all false of NaN. *)
Definition getPerformanceCategory (score : number) : Leaderboard.Category :=
  if leb (Finite 80) score then Leaderboard.EXCELLENT
  else if leb (Finite 60) score then Leaderboard.GOOD
  else if leb (Finite 40) score then Leaderboard.AVERAGE
  else Leaderboard.NEEDS_IMPROVEMENT.

Definition DistrictMap := list (string * DistrictData).

Definition fresh (district : string) : DistrictData :=
  {| d_district := district; totalPersonDays := Finite 0; totalExpenditure := Finite 0;
     employmentProvided := Finite 0; householdsWorked := Finite 0;
     worksCompleted := Finite 0; worksInProgress := Finite 0;
     avgWageRate := Finite 0; monthsCount := 0 |}.

(** The additions made for one record on the entry of its district. *)
Definition add_record (record : Doc) (d : DistrictData) : DistrictData :=
  {| d_district := d_district d;
     totalPersonDays :=
       add (totalPersonDays d) (field_or_zero (total_persondays_generated record));
     totalExpenditure :=
       add (totalExpenditure d) (field_or_zero (total_expenditure record));
     employmentProvided :=
       add (employmentProvided d) (field_or_zero (average_days_per_household record));
     householdsWorked :=
       max2 (householdsWorked d) (field_or_zero (total_households_worked record));
     worksCompleted :=
       add (worksCompleted d) (field_or_zero (total_completed_works record));
     worksInProgress :=
       add (worksInProgress d) (field_or_zero (total_ongoing_works record));
     avgWageRate := add (avgWageRate d) (field_or_zero (average_wage_per_day record));
     monthsCount := S (monthsCount d) |}.

Fixpoint upsert (m : DistrictMap) (record : Doc) : DistrictMap :=
  match m with
  | [] => [(district record, add_record record (fresh (district record)))]
  | (k, d) :: m' =>
      if String.eqb k (district record)
      then (k, add_record record d) :: m'
      else (k, d) :: upsert m' record
  end.

Definition aggregate (districts : list Doc) : DistrictMap :=
  fold_left upsert districts [].

(** "Calculate average wage rate". *)
Definition average_wage (data : DistrictData) : DistrictData :=
  {| d_district := d_district data;
     totalPersonDays := totalPersonDays data;
     totalExpenditure := totalExpenditure data;
     employmentProvided := employmentProvided data;
     householdsWorked := householdsWorked data;
     worksCompleted := worksCompleted data;
     worksInProgress := worksInProgress data;
     avgWageRate :=
       if (0 <? monthsCount data)%nat
       then Math_round (div (avgWageRate data) (of_nat (monthsCount data)))
       else Finite 0;
     monthsCount := monthsCount data |}.

Definition maxPersonDays_of (allData : list DistrictData) : number :=
  Math_max (map (fun d => or_zero (totalPersonDays d)) allData) (Finite 1).

Definition maxExpenditure_of (allData : list DistrictData) : number :=
  Math_max (map (fun d => or_zero (totalExpenditure d)) allData) (Finite 1).

Definition completion_rate (data : DistrictData) : number :=
  if ltb (Finite 0) (add (worksCompleted data) (worksInProgress data))
  then Math_round
         (mul (div (worksCompleted data) (add (worksCompleted data) (worksInProgress data)))
              (Finite 100))
  else Finite 0.

(** The entry built for one district, before sorting. *)
Definition make_entry (maxPersonDays maxExpenditure : number) (data : DistrictData) : Entry :=
  let score := calculatePerformanceScore (Some data) maxPersonDays maxExpenditure in
  let category := getPerformanceCategory score in
  {| rank := 0;
     e_district := d_district data;
     score := score;
     employment := totalPersonDays data;
     works := worksCompleted data;
     category := Leaderboard.label category;
     categoryColor := Leaderboard.color category;
     icon := Leaderboard.c_icon category;
     emoji := Leaderboard.c_emoji category;
     metrics := {| m_totalPersonDays := totalPersonDays data;
                   m_totalExpenditure := totalExpenditure data;
                   m_employmentProvided := employmentProvided data;
                   m_householdsWorked := householdsWorked data;
                   m_worksCompleted := worksCompleted data;
                   m_worksInProgress := worksInProgress data;
                   completionRate := completion_rate data;
                   m_avgWageRate := avgWageRate data |};
     rankEmoji := None |}.

(** [(a, b) => b.score - a.score], as [sort] reads it. *)
Definition by_score_descending (a b : Entry) : Q := sort_key (sub (score b) (score a)).

(** "Add ranks". *)
Definition add_rank (item : Entry) (index : nat) : Entry :=
  let r := (index + 1)%nat in
  {| rank := r;
     e_district := e_district item;
     score := score item;
     employment := employment item;
     works := works item;
     category := category item;
     categoryColor := categoryColor item;
     icon := icon item;
     emoji := emoji item;
     metrics := metrics item;
     rankEmoji := Some (if (r =? 1)%nat then "🥇"
                        else if (r =? 2)%nat then "🥈"
                        else if (r =? 3)%nat then "🥉"
                        else if (r <=? 10)%nat then "🏆"
                        else "📍") |}.

Definition all_data (districts : list Doc) : list DistrictData :=
  map snd (map (fun kd => (fst kd, average_wage (snd kd))) (aggregate districts)).

Definition scored (districts : list Doc) : list Entry :=
  let allData := all_data districts in
  let maxPersonDays := maxPersonDays_of allData in
  let maxExpenditure := maxExpenditure_of allData in
  map (make_entry maxPersonDays maxExpenditure) allData.

Definition rank_all (districts : list Doc) : list Entry :=
  JsArray.mapi add_rank (JsArray.sort by_score_descending (scored districts)).

Definition of_maharashtra (db : list Doc) : list Doc :=
  filter (fun r => String.eqb (state r) "Maharashtra") db.

Definition latestYear (db : list Doc) : option Z :=
  match of_maharashtra db with
  | [] => None
  | r :: rs => Some (fold_left Z.max (map year rs) (year r))
  end.

Definition find_year (db : list Doc) (y : Z) : list Doc :=
  filter (fun r => Z.eqb (year r) y) (of_maharashtra db).

Definition getMaharashtraLeaderboard (db : list Doc) : Response :=
  match latestYear db with
  | None => {| success := false;
               message := Some "No data found for Maharashtra";
               latest := None; totalDistricts := None; leaderboard := [] |}
  | Some latestYear =>
      let districts := find_year db latestYear in
      let leaderboard := rank_all districts in
      {| success := true;
         message := None;
         latest := Some latestYear;
         totalDistricts := Some (List.length leaderboard);
         leaderboard := leaderboard |}
  end.

End Leaderboard64.

(** ** Vocabulary of the statements on the binary64 leaderboard *)

Module Spec64.

Import Binary64 Leaderboard64.
Local Open Scope string_scope.

(** The records the leaderboard is computed from. *)
Definition selected (db : list Doc) : list Doc :=
  match latestYear db with
  | None => []
  | Some y => find_year db y
  end.

(** The district groups, in group-iteration order. *)
Definition groups (districts : list Doc) : list string :=
  LeaderboardSpec.distinct (map district districts).

(** The rows of one district, in the order of the records. *)
Definition rows_of (k : string) (districts : list Doc) : list Doc :=
  filter (fun r => String.eqb k (district r)) districts.

(** What the rows of one district add up to, row after row. *)
Definition summary (k : string) (rows : list Doc) : DistrictData :=
  fold_left (fun d r => add_record r d) rows (fresh k).

(** The entry of the map for one district. *)
Definition group_entry (districts : list Doc) (k : string) : string * DistrictData :=
  (k, summary k (rows_of k districts)).

(** The wage rate of a record as the service reads it. *)
Definition wage (r : Doc) : number := field_or_zero (average_wage_per_day r).

(** The wage rates of the rows added one after the other, as [+=] does. *)
Definition wages (rows : list Doc) : number :=
  fold_left (fun total r => add total (wage r)) rows (Finite 0).

(** The figures of an entry as the score reads them. *)
Definition personDays (e : Entry) : number := or_zero (m_totalPersonDays (metrics e)).
Definition expenditure (e : Entry) : number := or_zero (m_totalExpenditure (metrics e)).

(** The two maxima that [getMaharashtraLeaderboard] computes. *)
Definition maxPersonDays (db : list Doc) : number :=
  maxPersonDays_of (all_data (selected db)).
Definition maxExpenditure (db : list Doc) : number :=
  maxExpenditure_of (all_data (selected db)).

(** The average of C5 as the claim words it: over the rows with a wage
    rate that is present and not zero, and 0 when there is none. *)
Definition average_of_rows_with_data (rows : list Doc) : number :=
  let valid := filter (fun r => negb (is_zero (wage r))) rows in
  match valid with
  | [] => Finite 0
  | _ => div (wages valid) (of_nat (List.length valid))
  end.

(** Every number of the record is at least 0 once read with [|| 0]. *)
Definition non_negative (r : Doc) : bool :=
  forallb (fun x => leb (Finite 0) (field_or_zero x))
    [ total_persondays_generated r; total_expenditure r;
      average_days_per_household r; total_households_worked r;
      total_completed_works r; total_ongoing_works r; average_wage_per_day r ].

(** A record of Maharashtra for the year 2024; the figures are written as
    in a program text and stand for the nearest numbers. *)
Definition row (d : string) (persondays expenditure completed ongoing wage_rate : Q) : Doc :=
  {| state := "Maharashtra"; district := d; year := 2024;
     total_persondays_generated := Some (literal persondays);
     total_expenditure := Some (literal expenditure);
     average_days_per_household := None;
     total_households_worked := None;
     total_completed_works := Some (literal completed);
     total_ongoing_works := Some (literal ongoing);
     average_wage_per_day := Some (literal wage_rate) |}.

(** 3 of 32 person-days. *)
Definition three_of_thirty_two : list Doc :=
  [ row "A" 3 0 0 0 0; row "B" 32 0 0 0 0 ].

(** 23 works completed and 17 ongoing. *)
Definition works_23_17 : list Doc := [ row "A" 10 10 23 17 0 ].

(** Two months of one district, the second without any wage paid. *)
Definition uneven_wages : list Doc :=
  [ row "PUNE" 10 10 0 0 100; row "PUNE" 10 10 0 0 0 ].

(** Three months of one district. *)
Definition three_wages : list Doc :=
  [ row "PUNE" 10 10 0 0 (29683 # 100); row "PUNE" 10 10 0 0 (28475 # 100);
    row "PUNE" 10 10 0 0 (24792 # 100) ].

(** District A has 100000 person-days and no expenditure, district B has
    50000 person-days and an expenditure of 100000000. *)
Definition two_districts : list Doc :=
  [ row "A" 100000 0 0 0 0; row "B" 50000 100000000 3 1 0 ].

Definition no_entry : Entry :=
  {| rank := 0; e_district := ""; score := NaN; employment := NaN; works := NaN;
     category := ""; categoryColor := ""; icon := ""; emoji := "";
     metrics := {| m_totalPersonDays := NaN; m_totalExpenditure := NaN;
                   m_employmentProvided := NaN; m_householdsWorked := NaN;
                   m_worksCompleted := NaN; m_worksInProgress := NaN;
                   completionRate := NaN; m_avgWageRate := NaN |};
     rankEmoji := None |}.

Definition entry_at (i : nat) (db : list Doc) : Entry :=
  nth i (leaderboard (getMaharashtraLeaderboard db)) no_entry.

(** round2((personDays / maxPersonDays * 0.6
            + expenditure / maxExpenditure * 0.4) * 100), each operation
    rounded as it is made, in the order of the program. *)
Definition score_of (personDays expenditure maxPersonDays maxExpenditure : number) : number :=
  div (Math_round
         (mul (mul (add (mul (div personDays maxPersonDays) (literal (6 # 10)))
                        (mul (div expenditure maxExpenditure) (literal (4 # 10))))
                   (Finite 100))
              (Finite 100)))
      (Finite 100).

(** Math.round((completed / (completed + ongoing)) * 100): the quotient
    first, then the product, each rounded as it is made. *)
Definition rate_of (completed ongoing : number) : number :=
  Math_round (mul (div completed (add completed ongoing)) (Finite 100)).

(** The numbers written 0.6 and 0.4. *)
Definition c06 : Q := 5404319552844595 # 9007199254740992.
Definition c04 : Q := 3602879701896397 # 9007199254740992.

End Spec64.

(** ** The primitive binary64 numbers, as a check of [Binary64]

    Rocq has the binary64 numbers of the machine as a primitive type. The
    operations of [Binary64] are compared with the primitive ones on a
    table of sample values. *)

Module Machine.

Import PrimFloat.
Import Binary64.
#[local] Set Warnings "-inexact-float".
Local Open Scope Q_scope.

(** The value of a primitive number. The sign of a zero is dropped. *)
Definition of_float (f : PrimFloat.float) : number :=
  match FloatOps.Prim2SF f with
  | SpecFloat.S754_zero _ => Finite 0
  | SpecFloat.S754_infinity s => Infinity s
  | SpecFloat.S754_nan => NaN
  | SpecFloat.S754_finite s m e =>
      Finite (Qred ((if s then -1 else 1) * inject_Z (Zpos m) * pow2 e))
  end.

Definition same (x y : number) : bool :=
  match x, y with
  | Finite a, Finite b => Qeq_bool a b
  | Infinity s, Infinity t => Bool.eqb s t
  | NaN, NaN => true
  | _, _ => false
  end.

(** Small and large numbers, decimal fractions, numbers next to a power of
    2, subnormal numbers, the infinities and NaN. *)
Definition samples : list PrimFloat.float :=
  [ 0; 1; 3; 23; 40; 100; 0.5; 2.5; 0.1; 0.2; 0.4; 0.6; 296.83; 5.62; -1; -0.3;
    9007199254740992; 4503599627370497; 0.49999999999999994;
    1.7976931348623157e308; 2.2250738585072014e-308; 1e-320; 5e-324;
    PrimFloat.infinity; PrimFloat.neg_infinity; PrimFloat.nan ]%float.

(** One pair of samples: the four operations give the same numbers. A
    division by a zero is left out when the zero could be negative. *)
Definition agree (x y : PrimFloat.float) : bool :=
  same (of_float (PrimFloat.add x y)) (add (of_float x) (of_float y))
  && same (of_float (PrimFloat.sub x y)) (sub (of_float x) (of_float y))
  && same (of_float (PrimFloat.mul x y)) (mul (of_float x) (of_float y))
  && same (of_float (PrimFloat.div x y)) (div (of_float x) (of_float y))
  && Bool.eqb (PrimFloat.ltb x y) (ltb (of_float x) (of_float y))
  && Bool.eqb (PrimFloat.leb x y) (leb (of_float x) (of_float y)).

Definition agree_on (l : list PrimFloat.float) : bool :=
  forallb (fun x => forallb (agree x) l) l.

End Machine.

(* ===== proofs ===== *)

(** * Strings *)

Section StringFacts.

Lemma upper_char_idem (c : ascii) : upper_char (upper_char c) = upper_char c.
Proof. destruct c as [[] [] [] [] [] [] [] []]; reflexivity. Qed.

Lemma is_space_upper_char (c : ascii) : is_space (upper_char c) = is_space c.
Proof. destruct c as [[] [] [] [] [] [] [] []]; reflexivity. Qed.

Lemma explode_implode (l : chars) : explode (implode l) = l.
Proof. apply list_ascii_of_string_of_list_ascii. Qed.

Lemma implode_explode (s : string) : implode (explode s) = s.
Proof. apply string_of_list_ascii_of_string. Qed.

Lemma dropWhile_clean (l : chars) : clean_start (dropWhile is_space l).
Proof.
  induction l as [|c l IH]; simpl; [exact I|].
  destruct (is_space c) eqn:E; [exact IH | exact E].
Qed.

Lemma dropWhile_fixed (l : chars) : clean_start l -> dropWhile is_space l = l.
Proof. destruct l as [|c l]; simpl; [reflexivity | intros ->; reflexivity]. Qed.

Lemma dropWhile_split (l : chars) : exists p, l = p ++ dropWhile is_space l.
Proof.
  induction l as [|c l [p IH]]; simpl.
  - exists []. reflexivity.
  - destruct (is_space c).
    + exists (c :: p). simpl. now rewrite <- IH.
    + exists []. reflexivity.
Qed.

Lemma dropWhile_keeps_last (a : chars) (c : ascii) :
  is_space c = false -> exists a', dropWhile is_space (a ++ [c]) = a' ++ [c].
Proof.
  intros Hc. induction a as [|b a [a' IH]]; simpl.
  - rewrite Hc. exists []. reflexivity.
  - destruct (is_space b).
    + exists a'. exact IH.
    + exists (b :: a). reflexivity.
Qed.

Lemma trim_chars_start (l : chars) : clean_start (trim_chars l).
Proof.
  unfold trim_chars, trimEnd, trimStart.
  pose proof (dropWhile_clean l) as H.
  destruct (dropWhile is_space l) as [|c m]; simpl; [exact I|].
  simpl in H. destruct (dropWhile_keeps_last (rev m) c H) as [a' ->].
  rewrite rev_app_distr. simpl. exact H.
Qed.

Lemma trim_chars_end (l : chars) : clean_start (rev (trim_chars l)).
Proof.
  unfold trim_chars, trimEnd. rewrite rev_involutive. apply dropWhile_clean.
Qed.

Lemma trim_chars_fixed (l : chars) :
  clean_start l -> clean_start (rev l) -> trim_chars l = l.
Proof.
  intros H1 H2. unfold trim_chars, trimEnd, trimStart.
  rewrite (dropWhile_fixed _ H1), (dropWhile_fixed _ H2). apply rev_involutive.
Qed.

Lemma upper_chars_idem (l : chars) : upper_chars (upper_chars l) = upper_chars l.
Proof.
  unfold upper_chars. rewrite map_map. apply map_ext. apply upper_char_idem.
Qed.

Lemma upper_chars_clean (l : chars) : clean_start l -> clean_start (upper_chars l).
Proof. destruct l as [|c l]; simpl; [trivial|]. now rewrite is_space_upper_char. Qed.

Lemma eat_ci_rest (w l r : chars) : eat_ci w l = Some r -> exists p, l = p ++ r.
Proof.
  revert l. induction w as [|a w IH]; intros l H; simpl in H.
  - exists []. now inversion H.
  - destruct l as [|b l]; [discriminate|].
    destruct (Ascii.eqb (upper_char a) (upper_char b)); [|discriminate].
    destruct (IH _ H) as [p ->]. exists (b :: p). reflexivity.
Qed.

(** What [replace] leaves is a prefix of the text. *)
Lemma replace_trailing_word_prefix (word : string) (l : chars) :
  exists t, l = replace_trailing_word word l ++ t.
Proof.
  unfold replace_trailing_word.
  destruct (eat_ci (rev (explode word)) (rev l)) as [[|c rest]|] eqn:E;
    try (exists []; now rewrite app_nil_r).
  destruct (is_space c); [|exists []; now rewrite app_nil_r].
  destruct (eat_ci_rest _ _ _ E) as [p Hp].
  destruct (dropWhile_split rest) as [q Hq].
  exists (rev (p ++ c :: q)).
  rewrite <- rev_app_distr, <- app_assoc. simpl.
  rewrite <- Hq, <- Hp. symmetry. apply rev_involutive.
Qed.

Lemma prefix_clean (r t : chars) : clean_start (r ++ t) -> clean_start r.
Proof. destruct r; simpl; trivial. Qed.

Lemma prefix_upper (r t : chars) :
  upper_chars (r ++ t) = r ++ t -> upper_chars r = r.
Proof.
  unfold upper_chars. induction r as [|c r IH]; simpl; [reflexivity|].
  intros [= Hc Hr]. rewrite Hc, (IH Hr). reflexivity.
Qed.

Lemma replace_trailing_word_settled (word : string) (l : chars) :
  settled l -> settled (replace_trailing_word word l).
Proof.
  intros [Hs He Hu]. destruct (replace_trailing_word_prefix word l) as [t Ht].
  split.
  - rewrite Ht in Hs. exact (prefix_clean _ _ Hs).
  - unfold replace_trailing_word.
    destruct (eat_ci (rev (explode word)) (rev l)) as [[|c rest]|]; trivial.
    destruct (is_space c); trivial.
    rewrite rev_involutive. apply dropWhile_clean.
  - rewrite Ht in Hu. exact (prefix_upper _ _ Hu).
Qed.

Lemma strip_suffixes_settled (l : chars) : settled l -> settled (strip_suffixes l).
Proof.
  intros H. unfold strip_suffixes.
  repeat apply replace_trailing_word_settled. exact H.
Qed.

Lemma upper_trim_settled (l : chars) : settled (upper_chars (trim_chars l)).
Proof.
  split.
  - apply upper_chars_clean, trim_chars_start.
  - unfold upper_chars. rewrite <- map_rev. apply upper_chars_clean, trim_chars_end.
  - apply upper_chars_idem.
Qed.

(** The text looked up in the table is settled. *)
Lemma normalized_key_settled (d : string) : settled (explode (normalized_key d)).
Proof.
  unfold normalized_key. rewrite explode_implode.
  apply strip_suffixes_settled, upper_trim_settled.
Qed.

(** On a settled text with no suffix left to strip, the key is the text. *)
Lemma normalized_key_fixed (y : string) :
  settled (explode y) -> strip_suffixes (explode y) = explode y ->
  normalized_key y = y.
Proof.
  intros [Hs He Hu] Hstrip. unfold normalized_key.
  rewrite (trim_chars_fixed _ Hs He), Hu, Hstrip. apply implode_explode.
Qed.

Lemma lookup_in_values (table : list (string * string)) (k v : string) :
  lookup table k = Some v -> In v (map snd table).
Proof.
  induction table as [|[k' v'] table IH]; simpl; [discriminate|].
  destruct (String.eqb k' k); [intros [= ->]; now left | right; auto].
Qed.

(** Every canonical name of the table is returned as it is. *)
Lemma table_values_fixed :
  Forall (fun v => truthy (Some v) = true /\ normalizeDistrictName (Some v) = Some v)
         (map snd MAHARASHTRA_DISTRICT_MAP).
Proof. repeat constructor. Qed.

End StringFacts.

(** * District names *)

(** C7, the claim as it is written, fails: stripping is one pass over the
    four suffixes in a fixed order, so a name that ends in two of them in
    another order keeps one after the first call and loses it in the
    second. *)
Lemma normalizeDistrictName_not_idempotent :
  normalizeDistrictName (normalizeDistrictName (Some "PUNE DISTRICT TALUK"%string))
  <> normalizeDistrictName (Some "PUNE DISTRICT TALUK"%string).
Proof. vm_compute. discriminate. Qed.

(** A second way for the second call to differ: a name of white space only
    is normalised to the empty text, which the second call answers with
    [null]. *)
Example normalizeDistrictName_blank :
  normalizeDistrictName (Some " "%string) = Some ""%string
  /\ normalizeDistrictName (Some ""%string) = None.
Proof. split; reflexivity. Qed.

(** C7 (amended): when the name returned by [normalizeDistrictName] is not
    empty and ends in none of the suffixes (stripping it again changes
    nothing), a second call returns it unchanged. *)
Theorem normalizeDistrictName_idempotent_on_stripped (x y : string) :
  normalizeDistrictName (Some x) = Some y ->
  y <> ""%string ->
  strip_suffixes (explode y) = explode y ->
  normalizeDistrictName (Some y) = Some y.
Proof.
  intros Hx Hne Hstrip.
  assert (Hy : truthy (Some y) = true).
  { simpl. destruct (String.eqb_spec y ""); [contradiction | reflexivity]. }
  unfold normalizeDistrictName in Hx.
  destruct (truthy (Some x)); cbn [negb] in Hx; [|discriminate].
  unfold or_else in Hx.
  destruct (lookup MAHARASHTRA_DISTRICT_MAP (normalized_key x)) as [v|] eqn:Hl.
  - apply lookup_in_values in Hl.
    pose proof table_values_fixed as Hall. rewrite Forall_forall in Hall.
    destruct (Hall v Hl) as [Hv Hfix]. rewrite Hv in Hx.
    injection Hx as <-. exact Hfix.
  - cbn [truthy] in Hx. injection Hx as <-.
    unfold normalizeDistrictName. rewrite Hy. cbn [negb].
    rewrite (normalized_key_fixed _ (normalized_key_settled x) Hstrip).
    rewrite Hl. reflexivity.
Qed.

(** The former name of the district, then its current name. *)
Lemma normalizeDistrictName_idempotent_on_stripped_witness :
  normalizeDistrictName (Some "Aurangabad District"%string)
    = Some "CHATRAPATI SAMBHAJI NAGAR"%string
  /\ normalizeDistrictName (Some "CHATRAPATI SAMBHAJI NAGAR"%string)
    = Some "CHATRAPATI SAMBHAJI NAGAR"%string.
Proof.
  split; [reflexivity|].
  apply (normalizeDistrictName_idempotent_on_stripped
           "Aurangabad District"%string "CHATRAPATI SAMBHAJI NAGAR"%string).
  - reflexivity.
  - discriminate.
  - reflexivity.
Defined.

(** * The fallback chain *)

Section ChainFacts.

Import Geo.

Lemma getLiveDistrict_is_chain (w : World) (lat lon : Q) :
  getLiveDistrict w lat lon = run_chain (providers w lat lon).
Proof. reflexivity. Qed.

Ltac split_matches :=
  repeat match goal with
         | |- context [match ?x with _ => _ end] => destruct x
         end.

(** Each adapter of a configured provider issues exactly one request. *)
Lemma providers_one_request (w : World) (lat lon : Q) (p : Provider) :
  In p (providers w lat lon) -> is_configured p = true -> one_request p.
Proof.
  unfold is_configured.
  intros [<-|[<-|[<-|[<-|[]]]]] Hc t; cbn [key placeholder api call] in *;
    unfold outcome; cbn [call];
    unfold reverseGeocodeGoogle, reverseGeocodeMapMyIndia,
           reverseGeocodeGeoapify, reverseGeocodeLocationIQ;
    rewrite Hc; cbn [negb]; unfold bind, axios_get, ret, throw; cbn [fst errors requests no_trail app].
  - destruct (http_google w) as [[d|]|]; try reflexivity.
    destruct (g_results d) as [[|first others]|]; try reflexivity.
    destruct (opt_eqb (status d) (Some "OK"%string)); try reflexivity.
    destruct (_ || _); reflexivity.
  - destruct (http_mapmyindia w) as [[d|]|]; try reflexivity.
    destruct (responseCode d) as [[|[]|]|]; try reflexivity.
    all: split_matches; reflexivity.
  - destruct (http_geoapify w) as [[[[[|r rs]|]]|]|]; reflexivity.
  - destruct (http_locationiq w) as [[d|]|]; reflexivity.
Qed.

(** Providers that are skipped, throw or return too little hand control
    to the rest of the chain, leaving their requests and their errors on
    the trail. *)
Lemma insufficient_prefix (pre : list Provider) (rest : M GeocodeResult) :
  (forall q, In q pre -> is_configured q = true -> one_request q) ->
  (forall q, In q pre -> yields_sufficient q = false) ->
  forall t, fold_right step rest pre t = rest (extend t (thrown pre) (asked pre)).
Proof.
  induction pre as [|q pre IH]; intros Hone Hins t.
  - unfold extend, thrown, asked. cbn. rewrite !app_nil_r. now destruct t.
  - cbn [fold_right]. unfold step at 1, attempt.
    assert (IH' := IH (fun x Hx => Hone x (or_intror Hx))
                      (fun x Hx => Hins x (or_intror Hx))).
    pose proof (Hins q (or_introl eq_refl)) as Hq. unfold yields_sufficient in Hq.
    unfold thrown, asked. cbn [flat_map filter].
    fold (is_configured q). destruct (is_configured q) eqn:Hc.
    + rewrite (Hone q (or_introl eq_refl) Hc t). cbn [andb] in Hq.
      fold (thrown pre). fold (asked pre).
      destruct (outcome q) as [r|message].
      * unfold sufficient in Hq. rewrite Hq. rewrite IH'.
        f_equal. unfold extend. cbn. now rewrite <- app_assoc.
      * rewrite IH'. f_equal. unfold extend, push_error. cbn.
        now rewrite <- !app_assoc.
    + rewrite IH'. reflexivity.
Qed.

Lemma chain_found (pre post : list Provider) (p : Provider) (r : GeocodeResult) :
  (forall q, In q (pre ++ [p]) -> is_configured q = true -> one_request q) ->
  (forall q, In q pre -> yields_sufficient q = false) ->
  is_configured p = true -> outcome p = Return r -> sufficient r = true ->
  run_chain (pre ++ p :: post) no_trail
  = (Return r, {| errors := thrown pre; requests := asked pre ++ [api p] |}).
Proof.
  intros Hone Hins Hc Hout Hsuf. unfold run_chain. rewrite fold_right_app.
  assert (Hp : one_request p).
  { apply Hone; [apply in_or_app; right; apply in_eq | exact Hc]. }
  rewrite insufficient_prefix; auto.
  - cbn [fold_right]. unfold step at 1, attempt. fold (is_configured p). rewrite Hc.
    rewrite Hp, Hout. unfold sufficient in Hsuf. rewrite Hsuf. reflexivity.
  - intros q Hq. apply Hone. apply in_or_app. now left.
Qed.

Lemma chain_exhausted (ps : list Provider) :
  (forall q, In q ps -> is_configured q = true -> one_request q) ->
  (forall q, In q ps -> yields_sufficient q = false) ->
  run_chain ps no_trail
  = (Throw ALL_FAILED, {| errors := thrown ps; requests := asked ps |}).
Proof.
  intros Hone Hins. unfold run_chain.
  rewrite insufficient_prefix; auto.
Qed.

Lemma existsb_none {A} (f : A -> bool) (l : list A) :
  existsb f l = false -> forall x, In x l -> f x = false.
Proof.
  intros H x Hx. destruct (f x) eqn:E; [|reflexivity].
  rewrite <- H. symmetry. apply existsb_exists. now exists x.
Qed.

End ChainFacts.

(** C1, the claim as it is written, fails: the test of [getLiveDistrict] is
    the truthiness of [district] and [state], and the empty text is not
    [null]. MapmyIndia, asked first, yields a result whose state and
    district are both different from [null] (the district, one space, is
    normalised to the empty text); the chain goes on to Geoapify and
    returns its result. *)
Lemma getLiveDistrict_passes_over_empty_district :
  let r := Geo.mapmyindia_location Scenarios.blank_district 0 0 in
  Geo.reverseGeocodeMapMyIndia Scenarios.blank_then_pune 0 0 Geo.no_trail
    = (Return r, {| Geo.errors := []; Geo.requests := ["MapmyIndia"%string] |})
  /\ Geo.has_state_and_district r = true
  /\ Geo.district r = Some ""%string
  /\ Geo.getLiveDistrict Scenarios.blank_then_pune 0 0 Geo.no_trail
     = (Return (Geo.geoapify_location Scenarios.pune_by_geoapify 0 0),
        {| Geo.errors := [];
           Geo.requests := ["MapmyIndia"%string; "Geoapify"%string] |}).
Proof. repeat split. Qed.

(** C1 (amended): when a configured provider yields a result whose state and
    district are both non-empty texts, and no provider before it in the
    order Google, MapmyIndia, Geoapify, LocationIQ does, [getLiveDistrict]
    returns the result of that provider, and the requests issued are those
    to the configured providers before it and to it: no later provider is
    asked. *)
Theorem getLiveDistrict_first_sufficient
    (w : Geo.World) (lat lon : Q) (pre post : list Geo.Provider)
    (p : Geo.Provider) (r : Geo.GeocodeResult) :
  Geo.providers w lat lon = pre ++ p :: post ->
  existsb Geo.yields_sufficient pre = false ->
  Geo.is_configured p = true ->
  Geo.outcome p = Return r ->
  Geo.sufficient r = true ->
  Geo.getLiveDistrict w lat lon Geo.no_trail
  = (Return r, {| Geo.errors := Geo.thrown pre;
                  Geo.requests := Geo.asked pre ++ [Geo.api p] |}).
Proof.
  intros Hps Hpre Hc Hout Hsuf.
  rewrite getLiveDistrict_is_chain, Hps.
  apply chain_found; auto.
  - intros q Hq. apply (providers_one_request w lat lon).
    rewrite Hps. apply in_app_or in Hq. apply in_or_app.
    destruct Hq as [Hq|[<-|[]]]; [now left | right; apply in_eq].
  - apply existsb_none. exact Hpre.
Qed.

(** Google is not configured, MapmyIndia times out, Geoapify answers: its
    result is returned, with the district under its current name, and
    LocationIQ is not asked. *)
Lemma getLiveDistrict_first_sufficient_witness :
  Geo.getLiveDistrict Scenarios.third_answers 0 0 Geo.no_trail
  = (Return (Geo.geoapify_location Scenarios.aurangabad_by_geoapify 0 0),
     {| Geo.errors := [("MapmyIndia", "timeout of 5000ms exceeded")]%string;
        Geo.requests := ["MapmyIndia"; "Geoapify"]%string |})
  /\ Geo.district (Geo.geoapify_location Scenarios.aurangabad_by_geoapify 0 0)
     = Some "CHATRAPATI SAMBHAJI NAGAR"%string.
Proof.
  split; [|reflexivity].
  exact (getLiveDistrict_first_sufficient Scenarios.third_answers 0 0
           (firstn 2 (Geo.providers Scenarios.third_answers 0 0))
           (skipn 3 (Geo.providers Scenarios.third_answers 0 0))
           (nth 2 (Geo.providers Scenarios.third_answers 0 0)
                (Geo.Build_Provider None "" "" (Geo.throw "")))
           (Geo.geoapify_location Scenarios.aurangabad_by_geoapify 0 0)
           eq_refl eq_refl eq_refl eq_refl eq_refl).
Defined.

(** C8, the claim as it is written, fails: the error thrown carries its
    message only, and the list [errors], which is logged, has no entry for
    a provider that answered without a district. Google is refused and
    MapmyIndia answers with a state only: both were asked, one is listed. *)
Lemma getLiveDistrict_failure_omits_insufficient :
  Geo.getLiveDistrict Scenarios.nothing_found 0 0 Geo.no_trail
  = (Throw Geo.ALL_FAILED,
     {| Geo.errors := [("Google", "Request failed with status code 403")]%string;
        Geo.requests := ["Google"; "MapmyIndia"]%string |})
  /\ ~ Geo.reports_every_attempt
         (snd (Geo.getLiveDistrict Scenarios.nothing_found 0 0 Geo.no_trail)).
Proof. split; [reflexivity | vm_compute; discriminate]. Qed.

(** C8 (amended): when every provider is skipped, throws or yields a result
    without a non-empty state and district, [getLiveDistrict] throws the
    error with the fixed message [ALL_FAILED]; the list [errors] it has
    built and logged by then holds, in the order of the chain, the name and
    the message of each configured provider whose adapter threw, and only
    those. *)
Theorem getLiveDistrict_all_failed (w : Geo.World) (lat lon : Q) :
  existsb Geo.yields_sufficient (Geo.providers w lat lon) = false ->
  Geo.getLiveDistrict w lat lon Geo.no_trail
  = (Throw Geo.ALL_FAILED,
     {| Geo.errors := Geo.thrown (Geo.providers w lat lon);
        Geo.requests := Geo.asked (Geo.providers w lat lon) |}).
Proof.
  intros Hnone. rewrite getLiveDistrict_is_chain.
  apply chain_exhausted.
  - apply providers_one_request.
  - apply existsb_none. exact Hnone.
Qed.

(** Google is refused and MapmyIndia answers with a state only. *)
Lemma getLiveDistrict_all_failed_witness :
  Geo.getLiveDistrict Scenarios.nothing_found 0 0 Geo.no_trail
  = (Throw Geo.ALL_FAILED,
     {| Geo.errors := [("Google", "Request failed with status code 403")]%string;
        Geo.requests := ["Google"; "MapmyIndia"]%string |}).
Proof.
  exact (getLiveDistrict_all_failed Scenarios.nothing_found 0 0 eq_refl).
Defined.

(** * Normalisation inside the adapters *)

Section AdapterFacts.

Import Geo.

Lemma or_else_text_or_null (a b : option string) :
  text_or_null b -> text_or_null (or_else a b).
Proof.
  intros Hb. unfold or_else. destruct (truthy a) eqn:E; [now left | exact Hb].
Qed.

Lemma null_is_text_or_null : text_or_null None.
Proof. now right. Qed.

Lemma mapmyindia_district_text (r : MapmyIndiaResult) :
  text_or_null (mapmyindia_district r).
Proof. repeat apply or_else_text_or_null. apply null_is_text_or_null. Qed.

Lemma geoapify_district_text (r : GeoapifyResult) :
  text_or_null (geoapify_district r).
Proof. repeat apply or_else_text_or_null. apply null_is_text_or_null. Qed.

Lemma locationiq_district_text (a : LocationIQAddress) :
  text_or_null (locationiq_district a).
Proof.
  unfold locationiq_district.
  destruct (truthy (liq_state_district a)) eqn:E1; cbn [andb].
  - destruct (negb _); [now left|].
    destruct (truthy (liq_city a)) eqn:E2; cbn [andb].
    + destruct (opt_eqb _ _); [now left|].
      destruct (truthy (liq_county a)) eqn:E3; [now left|].
      destruct (truthy (liq_district a)) eqn:E4; [now left | now right].
    + destruct (truthy (liq_county a)) eqn:E3; [now left|].
      destruct (truthy (liq_district a)) eqn:E4; [now left | now right].
  - destruct (truthy (liq_city a)) eqn:E2; cbn [andb].
    + destruct (opt_eqb _ _); [now left|].
      destruct (truthy (liq_county a)) eqn:E3; [now left|].
      destruct (truthy (liq_district a)) eqn:E4; [now left | now right].
    + destruct (truthy (liq_county a)) eqn:E3; [now left|].
      destruct (truthy (liq_district a)) eqn:E4; [now left | now right].
Qed.

(** The guard [state === 'Maharashtra' && district] decides on the state
    alone once the district is a text or [null]. *)
Lemma normalize_for_maharashtra_spec (st d : option string) :
  text_or_null d ->
  normalize_for_maharashtra st d
  = if opt_eqb st (Some "Maharashtra"%string) then normalizeDistrictName d else d.
Proof.
  intros Hd. unfold normalize_for_maharashtra, maharashtra_with_district.
  destruct (opt_eqb st (Some "Maharashtra"%string)); cbn [andb]; [|reflexivity].
  destruct Hd as [Hd | ->]; [now rewrite Hd | reflexivity].
Qed.

End AdapterFacts.

(** C6, the claim as it is written, fails: the adapters compare the state
    with ['Maharashtra'] by [===], so a state that differs from it by case
    only is not normalised. MapmyIndia answers with the state MAHARASHTRA
    and the district Aurangabad: the district is returned as it came. *)
Lemma capital_state_is_not_normalized :
  let r := Geo.mapmyindia_location Scenarios.capital_state 0 0 in
  fst (Geo.getLiveDistrict Scenarios.capital 0 0 Geo.no_trail) = Return r
  /\ toLowerCase (show (Geo.state r)) = toLowerCase "Maharashtra"
  /\ Geo.district r = Some "Aurangabad"%string
  /\ normalizeDistrictName (Some "Aurangabad"%string)
     = Some "CHATRAPATI SAMBHAJI NAGAR"%string.
Proof. repeat split. Qed.

(** The adapter of Google has no guard at all: it passes every district
    through [normalizeDistrictName], here one of Bihar. *)
Example google_normalizes_every_state :
  exists r,
    fst (Geo.getLiveDistrict Scenarios.bihar 0 0 Geo.no_trail) = Return r
    /\ Geo.state r = Some "Bihar"%string
    /\ Geo.district r = Some "CHATRAPATI SAMBHAJI NAGAR"%string.
Proof. eexists. repeat split. Qed.

(** C6 (amended): in the locations built by the adapters of MapmyIndia,
    Geoapify and LocationIQ the state is the extracted state, and the
    district is [normalizeDistrictName] of the extracted district when the
    extracted state is exactly ["Maharashtra"] (same case), and the
    extracted district itself for every other state. *)
Theorem normalization_only_for_exact_Maharashtra (lat lon : Q) :
  (forall r,
      let location := Geo.mapmyindia_location r lat lon in
      Geo.state location = Geo.mapmyindia_state r
      /\ Geo.district location
         = if Geo.opt_eqb (Geo.mapmyindia_state r) (Some "Maharashtra"%string)
           then normalizeDistrictName (Geo.mapmyindia_district r)
           else Geo.mapmyindia_district r)
  /\ (forall r,
      let location := Geo.geoapify_location r lat lon in
      Geo.state location = Geo.geoapify_state r
      /\ Geo.district location
         = if Geo.opt_eqb (Geo.geoapify_state r) (Some "Maharashtra"%string)
           then normalizeDistrictName (Geo.geoapify_district r)
           else Geo.geoapify_district r)
  /\ (forall d,
      let a := match Geo.address d with Some a => a | None => Geo.empty_address end in
      let location := Geo.locationiq_location d lat lon in
      Geo.state location = Geo.locationiq_state a
      /\ Geo.district location
         = if Geo.opt_eqb (Geo.locationiq_state a) (Some "Maharashtra"%string)
           then normalizeDistrictName (Geo.locationiq_district a)
           else Geo.locationiq_district a).
Proof.
  split; [|split]; intros r; cbn zeta; (split; [reflexivity|]);
    cbn [Geo.district Geo.mapmyindia_location Geo.geoapify_location
         Geo.locationiq_location].
  - apply normalize_for_maharashtra_spec, mapmyindia_district_text.
  - apply normalize_for_maharashtra_spec, geoapify_district_text.
  - apply normalize_for_maharashtra_spec, locationiq_district_text.
Qed.

(** * The leaderboard *)

Section LeaderboardExamples.

Import JsNumber Leaderboard LeaderboardSpec.
Local Open Scope string_scope.
Local Open Scope Q_scope.

(** District A has 100000 person-days and no expenditure, district B has
    50000 person-days and an expenditure of 100000000: B leads with 70,
    A follows with 60. *)
Example leaderboard_of_two :
  map (fun e => (rank e, e_district e, Qred (score e)))
      (leaderboard (getMaharashtraLeaderboard
                      [ row "A" 100000 0 0 0 0; row "B" 50000 100000000 0 0 0 ]))
  = [ (1%nat, "B", 70); (2%nat, "A", 60) ].
Proof. vm_compute. reflexivity. Qed.

Example leaderboard_of_nothing :
  getMaharashtraLeaderboard []
  = {| success := false; message := Some "No data found for Maharashtra";
       latest := None; totalDistricts := None; leaderboard := [] |}.
Proof. reflexivity. Qed.

End LeaderboardExamples.

Section AggregationFacts.

Import JsNumber Leaderboard LeaderboardSpec.

Lemma in_distinct (l : list string) (x : string) : In x (distinct l) <-> In x l.
Proof.
  induction l as [|y l IH]; simpl; [tauto|].
  rewrite filter_In, IH. destruct (String.eqb_spec x y) as [->|Hne]; simpl.
  - tauto.
  - split; [tauto|]. intros [->|H]; [now left | right; now split].
Qed.

Lemma NoDup_distinct (l : list string) : NoDup (distinct l).
Proof.
  induction l as [|y l IH]; simpl; constructor.
  - rewrite filter_In. intros [_ H]. now rewrite String.eqb_refl in H.
  - now apply NoDup_filter.
Qed.

Lemma filter_all {A} (f : A -> bool) (l : list A) :
  (forall x, In x l -> f x = true) -> filter f l = l.
Proof.
  induction l as [|a l IH]; simpl; intros H; [reflexivity|].
  rewrite (H a (or_introl eq_refl)), IH; auto.
Qed.

Lemma filter_none {A} (f : A -> bool) (l : list A) :
  (forall x, In x l -> f x = false) -> filter f l = [].
Proof.
  induction l as [|a l IH]; simpl; intros H; [reflexivity|].
  rewrite (H a (or_introl eq_refl)), IH; auto.
Qed.

(** A district met for the first time goes to the end of the groups; one
    met again changes nothing. *)
Lemma distinct_snoc (l : list string) (x : string) :
  distinct (l ++ [x])
  = if existsb (String.eqb x) l then distinct l else distinct l ++ [x].
Proof.
  induction l as [|y l IH]; simpl; [reflexivity|].
  rewrite IH. destruct (String.eqb_spec x y) as [->|Hne]; simpl.
  - destruct (existsb (String.eqb y) l); [reflexivity|].
    rewrite filter_app. simpl. rewrite String.eqb_refl. simpl.
    now rewrite app_nil_r.
  - destruct (existsb (String.eqb x) l); [reflexivity|].
    rewrite filter_app. simpl.
    destruct (String.eqb_spec x y); [contradiction | reflexivity].
Qed.

Lemma existsb_eqb_in (l : list string) (x : string) :
  existsb (String.eqb x) l = true <-> In x l.
Proof.
  rewrite existsb_exists. split.
  - intros [y [Hy E]]. apply String.eqb_eq in E. now subst.
  - intros H. exists x. split; [exact H | apply String.eqb_refl].
Qed.

Lemma upsert_absent (m : DistrictMap) (r : Doc) :
  ~ In (district r) (map fst m) ->
  upsert m r = m ++ [(district r, add_record r (fresh (district r)))].
Proof.
  induction m as [|[k d] m IH]; simpl; intros H; [reflexivity|].
  destruct (String.eqb_spec k (district r)) as [->|Hne]; [tauto|].
  rewrite IH; tauto.
Qed.

Lemma upsert_present (m : DistrictMap) (r : Doc) :
  NoDup (map fst m) -> In (district r) (map fst m) ->
  upsert m r
  = map (fun kd => if String.eqb (fst kd) (district r)
                   then (fst kd, add_record r (snd kd)) else kd) m.
Proof.
  induction m as [|[k d] m IH]; simpl; intros Hnd Hin; [contradiction|].
  inversion Hnd as [|? ? Hk Hm]; subst.
  destruct (String.eqb_spec k (district r)) as [->|Hne].
  - f_equal. symmetry. rewrite <- (map_id m) at 2. apply map_ext_in.
    intros [k' d'] Hk'. simpl.
    destruct (String.eqb_spec k' (district r)) as [->|]; [|reflexivity].
    exfalso. apply Hk. change (district r) with (fst (district r, d')).
    now apply in_map.
  - f_equal. apply IH; [exact Hm | tauto].
Qed.

Lemma rows_of_snoc (k : string) (l : list Doc) (r : Doc) :
  rows_of k (l ++ [r])
  = rows_of k l ++ (if String.eqb k (district r) then [r] else []).
Proof. unfold rows_of. now rewrite filter_app. Qed.

Lemma summary_snoc (k : string) (rows : list Doc) (r : Doc) :
  summary k (rows ++ [r]) = add_record r (summary k rows).
Proof. unfold summary. now rewrite fold_left_app. Qed.

(** The map built by [forEach]: one entry for each district group, in
    group-iteration order, holding what the rows of the group add up to. *)
Lemma aggregate_groups (districts : list Doc) :
  aggregate districts = map (group_entry districts) (groups districts).
Proof.
  induction districts as [|r l IH] using rev_ind; [reflexivity|].
  unfold aggregate in *. rewrite fold_left_app. simpl. rewrite IH.
  unfold groups. rewrite map_app. simpl. rewrite distinct_snoc.
  assert (Hkeys : map fst (map (group_entry l) (distinct (map district l)))
                  = distinct (map district l)).
  { rewrite map_map. simpl. apply map_id. }
  destruct (existsb (String.eqb (district r)) (map district l)) eqn:E.
  - apply existsb_eqb_in in E.
    rewrite upsert_present.
    + rewrite map_map. apply map_ext_in. intros k Hk. unfold group_entry. simpl.
      rewrite rows_of_snoc.
      destruct (String.eqb k (district r)).
      * now rewrite summary_snoc.
      * now rewrite app_nil_r.
    + rewrite Hkeys. apply NoDup_distinct.
    + rewrite Hkeys. now apply in_distinct.
  - assert (Hx : ~ In (district r) (map district l)).
    { intros H. apply existsb_eqb_in in H. congruence. }
    rewrite upsert_absent.
    + rewrite map_app. simpl. f_equal.
      * apply map_ext_in. intros k Hk. unfold group_entry. f_equal.
        rewrite rows_of_snoc.
        destruct (String.eqb_spec k (district r)) as [->|].
        -- apply (proj1 (in_distinct _ _)) in Hk. contradiction.
        -- now rewrite app_nil_r.
      * unfold group_entry. rewrite rows_of_snoc, String.eqb_refl.
        replace (rows_of (district r) l) with (@nil Doc); [reflexivity|].
        symmetry. apply filter_none. intros x Hxl.
        destruct (String.eqb_spec (district r) (district x)) as [e|]; [|reflexivity].
        exfalso. apply Hx. rewrite e. now apply in_map.
    + rewrite Hkeys. now rewrite in_distinct.
Qed.

End AggregationFacts.

(** * Numbers and arrays *)

Section NumberFacts.

Import JsNumber.
Local Open Scope Q_scope.

Lemma Qltb_true (x y : Q) : Qltb x y = true <-> x < y.
Proof.
unfold Qltb. rewrite negb_true_iff. split.
- intros H. apply Qnot_le_lt. intros Hle. apply Qle_bool_iff in Hle. congruence.
- intros H. destruct (Qle_bool y x) eqn:E; [|reflexivity].
  apply Qle_bool_iff in E. exfalso. exact (Qlt_not_le _ _ H E).
Qed.

Lemma Qltb_false (x y : Q) : Qltb x y = false <-> y <= x.
Proof.
unfold Qltb. rewrite negb_false_iff. apply Qle_bool_iff.
Qed.

Lemma Qle_bool_false (x y : Q) : Qle_bool x y = false <-> y < x.
Proof.
split.
- intros H. apply Qnot_le_lt. intros Hle. apply Qle_bool_iff in Hle. congruence.
- intros H. destruct (Qle_bool x y) eqn:E; [|reflexivity].
  apply Qle_bool_iff in E. exfalso. exact (Qlt_not_le _ _ H E).
Qed.

Lemma or_zero_eq (x : Q) : or_zero x == x.
Proof.
unfold or_zero. destruct (Qeq_bool x 0) eqn:E; [|reflexivity].
apply Qeq_bool_eq in E. now rewrite E.
Qed.

Lemma Math_round_compat (x y : Q) : x == y -> Math_round x = Math_round y.
Proof.
intros H. unfold Math_round. f_equal. apply Qfloor_comp. now rewrite H.
Qed.

(** A number between two integers is rounded to an integer between them. *)
Lemma Math_round_between (a b : Z) (x : Q) :
  inject_Z a <= x -> x <= inject_Z b ->
  inject_Z a <= Math_round x /\ Math_round x <= inject_Z b.
Proof.
intros Ha Hb. unfold Math_round. rewrite <- !Zle_Qle. split.
- rewrite <- (Qfloor_Z a). apply Qfloor_resp_le. lra.
- assert (H : (Qfloor (x + (1 # 2)) < b + 1)%Z).
  { rewrite Zlt_Qlt. apply Qle_lt_trans with (x + (1 # 2)); [apply Qfloor_le|].
    rewrite inject_Z_plus. change (inject_Z 1) with 1. lra. }
  lia.
Qed.

Lemma Math_round_integer (a : Z) (x : Q) : x == inject_Z a -> Math_round x = inject_Z a.
Proof.
intros H. unfold Math_round. f_equal.
assert (H1 : (a <= Qfloor (x + (1 # 2)))%Z).
{ rewrite <- (Qfloor_Z a). apply Qfloor_resp_le. lra. }
assert (H2 : (Qfloor (x + (1 # 2)) < a + 1)%Z).
{ rewrite Zlt_Qlt. apply Qle_lt_trans with (x + (1 # 2)); [apply Qfloor_le|].
  rewrite inject_Z_plus. change (inject_Z 1) with 1. lra. }
lia.
Qed.

Lemma Math_max_floor (l : list Q) (c : Q) : c <= Math_max l c.
Proof.
induction l as [|x l IH]; simpl; [apply Qle_refl|].
eapply Qle_trans; [exact IH | apply Q.le_max_r].
Qed.

Lemma Math_max_upper (l : list Q) (c x : Q) : In x l -> x <= Math_max l c.
Proof.
induction l as [|y l IH]; simpl; [contradiction|].
intros [->|H]; [apply Q.le_max_l|].
eapply Qle_trans; [exact (IH H) | apply Q.le_max_r].
Qed.

Lemma Math_max_least (l : list Q) (c m : Q) :
  c <= m -> (forall x, In x l -> x <= m) -> Math_max l c <= m.
Proof.
intros Hc. induction l as [|y l IH]; simpl; intros H; [exact Hc|].
apply Q.max_lub; [apply H; now left | apply IH; auto].
Qed.

(** The greatest value depends on the values only, not on their order or
    on the fraction that writes them. *)
Lemma Math_max_same_values (l1 l2 : list Q) (c : Q) :
  (forall x, In x l1 -> exists y, In y l2 /\ x == y) ->
  (forall y, In y l2 -> exists x, In x l1 /\ y == x) ->
  Math_max l1 c == Math_max l2 c.
Proof.
intros H12 H21. apply Qle_antisym; apply Math_max_least;
  try apply Math_max_floor.
- intros x Hx. destruct (H12 x Hx) as [y [Hy ->]]. now apply Math_max_upper.
- intros y Hy. destruct (H21 y Hy) as [x [Hx ->]]. now apply Math_max_upper.
Qed.

End NumberFacts.

Section SortFacts.

Import JsNumber JsArray LeaderboardSpec.

Variable A : Type.


Variable compareFn : A -> A -> Q.

Lemma insert_perm (x : A) (l : list A) : Permutation (insert compareFn x l) (x :: l).
Proof.
induction l as [|y l IH]; simpl; [apply Permutation_refl|].
destruct (Qltb 0 (compareFn x y)); [|apply Permutation_refl].
eapply perm_trans; [apply perm_skip, IH | apply perm_swap].
Qed.

Lemma sort_perm (l : list A) : Permutation (sort compareFn l) l.
Proof.
induction l as [|x l IH]; simpl; [apply perm_nil|].
eapply perm_trans; [apply insert_perm | apply perm_skip, IH].
Qed.




End SortFacts.

Section IndexFacts.

Import JsArray LeaderboardSpec.

Variables (A B : Type) (f : A -> nat -> B).

Lemma length_mapi_from (n : nat) (l : list A) :
  List.length (mapi_from f n l) = List.length l.
Proof.
revert n. induction l as [|x l IH]; intros n; simpl; [reflexivity|].
now rewrite IH.
Qed.

Lemma in_mapi_from_inv (n : nat) (l : list A) (y : B) :
  In y (mapi_from f n l) -> exists x i, In x l /\ y = f x i.
Proof.
revert n. induction l as [|x l IH]; intros n; simpl; [contradiction|].
intros [<-|H].
- exists x, n. split; [now left | reflexivity].
- destruct (IH _ H) as [x' [i [Hx ->]]]. exists x', i. split; [now right | reflexivity].
Qed.

Lemma in_mapi_from (n : nat) (l : list A) (x : A) :
  In x l -> exists i, (n <= i)%nat /\ In (f x i) (mapi_from f n l).
Proof.
revert n. induction l as [|y l IH]; intros n; simpl; [contradiction|].
intros [->|H].
- exists n. split; [lia | now left].
- destruct (IH (S n) H) as [i [Hi Hin]]. exists i. split; [lia | now right].
Qed.


End IndexFacts.

(** * Entries of the leaderboard *)

Section EntryFacts.

Import JsNumber JsArray Leaderboard LeaderboardSpec.

Lemma leaderboard_selected (db : list Doc) :
  leaderboard (getMaharashtraLeaderboard db) = rank_all (selected db).
Proof.
unfold getMaharashtraLeaderboard, selected.
destruct (latestYear db); reflexivity.
Qed.

Lemma all_data_groups (districts : list Doc) :
  all_data districts
  = map (fun k => average_wage (summary k (rows_of k districts))) (groups districts).
Proof.
unfold all_data. rewrite aggregate_groups, !map_map. reflexivity.
Qed.

Lemma summary_district (k : string) (rows : list Doc) : d_district (summary k rows) = k.
Proof.
induction rows as [|r rows IH] using rev_ind; [reflexivity|].
rewrite summary_snoc. exact IH.
Qed.

Lemma scored_districts (districts : list Doc) :
  map e_district (scored districts) = groups districts.
Proof.
unfold scored. rewrite map_map. cbn [e_district make_entry].
rewrite all_data_groups, map_map. cbn [d_district average_wage].
rewrite <- (map_id (groups districts)) at 2.
apply map_ext. intros k. apply summary_district.
Qed.

Lemma mapi_add_rank_districts (n : nat) (l : list Entry) :
  map e_district (mapi_from add_rank n l) = map e_district l.
Proof.
revert n. induction l as [|x l IH]; intros n; simpl; [reflexivity|].
now rewrite IH.
Qed.

Lemma rank_all_districts (districts : list Doc) :
  Permutation (map e_district (rank_all districts)) (groups districts).
Proof.
unfold rank_all, mapi. rewrite mapi_add_rank_districts, <- scored_districts.
apply Permutation_map, sort_perm.
Qed.

(** No two entries of the leaderboard have the same district. *)
Lemma rank_all_NoDup (districts : list Doc) :
  NoDup (map e_district (rank_all districts)).
Proof.
apply (Permutation_NoDup (Permutation_sym (rank_all_districts districts))).
apply NoDup_distinct.
Qed.


Lemma ranks_from (n : nat) (l : list Entry) :
  map rank (mapi_from add_rank n l) = seq (S n) (List.length l).
Proof.
revert n. induction l as [|x l IH]; intros n; simpl; [reflexivity|].
rewrite IH. f_equal. lia.
Qed.

(** Every entry of the leaderboard is the entry made for the data of one
    district, with a rank added. *)
Lemma rank_all_origin (districts : list Doc) (e : Entry) :
  In e (rank_all districts) ->
  exists data i,
    In data (all_data districts)
    /\ e = add_rank (make_entry (maxPersonDays_of (all_data districts))
                                (maxExpenditure_of (all_data districts)) data) i.
Proof.
unfold rank_all, mapi. intros H.
apply in_mapi_from_inv in H. destruct H as [x [i [Hx ->]]].
apply (Permutation_in _ (sort_perm _ by_score_descending (scored districts))) in Hx.
unfold scored in Hx. apply in_map_iff in Hx. destruct Hx as [data [<- Hd]].
exists data, i. split; [exact Hd | reflexivity].
Qed.

(** And every district has its entry. *)
Lemma rank_all_covers (districts : list Doc) (data : DistrictData) :
  In data (all_data districts) ->
  exists i,
    In (add_rank (make_entry (maxPersonDays_of (all_data districts))
                             (maxExpenditure_of (all_data districts)) data) i)
       (rank_all districts).
Proof.
intros Hd. unfold rank_all, mapi.
destruct (in_mapi_from _ _ add_rank 0
            (sort by_score_descending (scored districts))
            (make_entry (maxPersonDays_of (all_data districts))
                        (maxExpenditure_of (all_data districts)) data))
  as [i [_ Hi]].
- apply (Permutation_in _ (Permutation_sym (sort_perm _ by_score_descending _))).
  unfold scored. now apply in_map.
- exists i. exact Hi.
Qed.

End EntryFacts.

(** * The order of the leaderboard *)

Section OrderFacts.

Import JsNumber JsArray Leaderboard LeaderboardSpec.
Local Open Scope Q_scope.





End OrderFacts.

(** C3: the leaderboard has one entry for each district group, and the
    ranks of its entries are 1, 2, ..., N in this order, N being the number
    of groups: every rank from 1 to N is given once, also when scores are
    equal. *)
Theorem ranks_are_one_to_n (db : list Leaderboard.Doc) :
  let lb := Leaderboard.leaderboard (Leaderboard.getMaharashtraLeaderboard db) in
  let n := List.length (LeaderboardSpec.groups (LeaderboardSpec.selected db)) in
  List.length lb = n /\ map Leaderboard.rank lb = seq 1 n.
Proof.
cbn zeta. rewrite leaderboard_selected.
assert (Hlen : List.length (Leaderboard.rank_all (LeaderboardSpec.selected db))
               = List.length (LeaderboardSpec.groups (LeaderboardSpec.selected db))).
{ rewrite <- (length_map Leaderboard.e_district).
  apply Permutation_length, rank_all_districts. }
split; [exact Hlen|].
rewrite <- Hlen. unfold Leaderboard.rank_all, JsArray.mapi.
rewrite ranks_from. now rewrite length_mapi_from.
Qed.


(** * Data of a district *)

Section DataFacts.

Import JsNumber JsArray Leaderboard LeaderboardSpec.
Local Open Scope Q_scope.

Lemma all_data_inv (districts : list Doc) (data : DistrictData) :
  In data (all_data districts) ->
  exists k, In k (groups districts)
            /\ data = average_wage (summary k (rows_of k districts)).
Proof.
rewrite all_data_groups. intros H. apply in_map_iff in H.
destruct H as [k [<- Hk]]. exists k. split; [exact Hk | reflexivity].
Qed.

(** A group has at least one row. *)
Lemma group_has_rows (districts : list Doc) (k : string) :
  In k (groups districts) -> (0 < List.length (rows_of k districts))%nat.
Proof.
unfold groups. rewrite in_distinct. intros H. apply in_map_iff in H.
destruct H as [r [<- Hr]].
assert (Hin : In r (rows_of (district r) districts)).
{ unfold rows_of. apply filter_In. split; [exact Hr | apply String.eqb_refl]. }
destruct (rows_of (district r) districts); [contradiction | simpl; lia].
Qed.

Lemma summary_count (k : string) (rows : list Doc) :
  monthsCount (summary k rows) = List.length rows.
Proof.
induction rows as [|r rows IH] using rev_ind; [reflexivity|].
rewrite summary_snoc, length_app. simpl. rewrite IH. lia.
Qed.

Lemma Qsum_snoc (l : list Q) (x : Q) : Qsum (l ++ [x]) == Qsum l + x.
Proof.
unfold Qsum. induction l as [|y l IH]; simpl; [lra|]. rewrite IH. lra.
Qed.

Lemma Qsum_zero (rows : list Doc) :
  forallb (fun r => Qeq_bool (wage r) 0) rows = true ->
  Qsum (map wage rows) / inject_Z (Z.of_nat (List.length rows)) == inject_Z 0.
Proof.
intros H.
assert (Hs : Qsum (map wage rows) == 0).
{ induction rows as [|r rows IH]; [reflexivity|].
  cbn [forallb] in H. apply andb_true_iff in H. destruct H as [Hr Hrows].
  apply Qeq_bool_eq in Hr. unfold Qsum in *. cbn [map fold_right].
  rewrite (IH Hrows), Hr. reflexivity. }
rewrite Hs. unfold Qdiv. change (inject_Z 0) with 0. apply Qmult_0_l.
Qed.

Lemma summary_wage (k : string) (rows : list Doc) :
  avgWageRate (summary k rows) == Qsum (map wage rows).
Proof.
induction rows as [|r rows IH] using rev_ind; [reflexivity|].
rewrite summary_snoc, map_app. simpl map. rewrite Qsum_snoc.
cbn [avgWageRate add_record]. rewrite IH. reflexivity.
Qed.

Lemma non_negative_fields (r : Doc) :
  non_negative r = true ->
  0 <= field_or_zero (total_persondays_generated r)
  /\ 0 <= field_or_zero (total_expenditure r)
  /\ 0 <= field_or_zero (total_completed_works r)
  /\ 0 <= field_or_zero (total_ongoing_works r).
Proof.
unfold non_negative. cbn [forallb]. rewrite !andb_true_iff, !Qle_bool_iff. tauto.
Qed.

(** Sums of numbers that are at least 0 are at least 0. *)
Lemma summary_non_negative (k : string) (rows : list Doc) :
  (forall r, In r rows -> non_negative r = true) ->
  0 <= totalPersonDays (summary k rows)
  /\ 0 <= totalExpenditure (summary k rows)
  /\ 0 <= worksCompleted (summary k rows)
  /\ 0 <= worksInProgress (summary k rows).
Proof.
induction rows as [|r rows IH] using rev_ind; intros H.
- cbn. repeat split; apply Qle_refl.
- rewrite summary_snoc. cbn [totalPersonDays totalExpenditure worksCompleted
                             worksInProgress add_record].
  destruct IH as [H1 [H2 [H3 H4]]].
  { intros x Hx. apply H. apply in_or_app. now left. }
  destruct (non_negative_fields r) as [F1 [F2 [F3 F4]]].
  { apply H. apply in_or_app. right. now left. }
  repeat split; lra.
Qed.

Lemma selected_incl (db : list Doc) (r : Doc) : In r (selected db) -> In r db.
Proof.
unfold selected, find_year, of_maharashtra.
destruct (latestYear db); [|contradiction].
rewrite !filter_In. tauto.
Qed.

Lemma all_data_non_negative (db : list Doc) (data : DistrictData) :
  forallb non_negative db = true ->
  In data (all_data (selected db)) ->
  0 <= totalPersonDays data /\ 0 <= totalExpenditure data
  /\ 0 <= worksCompleted data /\ 0 <= worksInProgress data.
Proof.
intros Hdb Hd. apply all_data_inv in Hd. destruct Hd as [k [_ ->]].
cbn [totalPersonDays totalExpenditure worksCompleted worksInProgress average_wage].
apply summary_non_negative. intros r Hr.
rewrite forallb_forall in Hdb. apply Hdb, selected_incl.
unfold rows_of in Hr. apply filter_In in Hr. tauto.
Qed.

End DataFacts.

(** * Rounding to binary64 *)

Section RoundingFacts.
Import Binary64.
Local Open Scope Q_scope.

Lemma pow2_pos (e : Z) : 0 < pow2 e.
Proof. apply Qpower_0_lt. reflexivity. Qed.

Lemma pow2_add (a b : Z) : pow2 (a + b) == pow2 a * pow2 b.
Proof. apply Qpower_plus. discriminate. Qed.

Lemma pow2_succ (a : Z) : pow2 (a + 1) == 2 * pow2 a.
Proof. rewrite pow2_add. change (pow2 1) with 2. ring. Qed.

Lemma pow2_le (a b : Z) : (a <= b)%Z -> pow2 a <= pow2 b.
Proof. intros H. apply Qpower_le_compat_l; [exact H | discriminate]. Qed.

Lemma pow2_lt_inv (a b : Z) : pow2 a < pow2 b -> (a < b)%Z.
Proof. intros H. apply (Qpower_lt_compat_l_inv 2); [exact H | reflexivity]. Qed.

Lemma pow2_Z (k : Z) : (0 <= k)%Z -> inject_Z (2 ^ k) == pow2 k.
Proof. intros H. now rewrite Zpower_Qpower. Qed.

(** [Z.log2] brackets a positive integer between two powers of 2. *)
Lemma log2_bracket (n : Z) :
  (0 < n)%Z -> pow2 (Z.log2 n) <= inject_Z n /\ inject_Z n < pow2 (Z.log2 n + 1).
Proof.
intros H. destruct (Z.log2_spec n H) as [L U].
pose proof (Z.log2_nonneg n) as H0.
rewrite <- !pow2_Z by lia. rewrite <- Zle_Qle, <- Zlt_Qlt.
split; [exact L | exact U].
Qed.

Lemma ilog2_spec (q : Q) :
  0 < q -> pow2 (ilog2 q) <= q /\ q < pow2 (ilog2 q + 1).
Proof.
intros Hq. unfold ilog2.
set (l := (Z.log2 (Qnum q) - Z.log2 (Zpos (Qden q)))%Z).
destruct q as [n d]. cbn [Qnum Qden] in *.
assert (Hn : (0 < n)%Z).
{ unfold Qlt in Hq. cbn in Hq. lia. }
destruct (log2_bracket n Hn) as [Ln Un].
destruct (log2_bracket (Zpos d) eq_refl) as [Ld Ud].
rewrite pow2_succ in Un, Ud.
pose proof (pow2_pos (Z.log2 n)) as Pa.
pose proof (pow2_pos (Z.log2 (Zpos d))) as Pb.
assert (El : pow2 l * pow2 (Z.log2 (Zpos d)) == pow2 (Z.log2 n)).
{ rewrite <- pow2_add. unfold l. now replace (Z.log2 n - Z.log2 (Z.pos d) + Z.log2 (Z.pos d))%Z
    with (Z.log2 n) by lia. }
assert (Eq : (n # d) * inject_Z (Zpos d) == inject_Z n).
{ rewrite (Qmake_Qdiv n d). field. discriminate. }
set (N := inject_Z n) in *. set (D := inject_Z (Zpos d)) in *.
set (A := pow2 (Z.log2 n)) in *. set (B := pow2 (Z.log2 (Zpos d))) in *.
pose proof (pow2_pos l) as Pl.
destruct (Qle_bool (pow2 l) (n # d)) eqn:E.
- apply Qle_bool_iff in E. split; [exact E|].
  rewrite pow2_succ. set (P := pow2 l) in *. set (x := n # d) in *. nra.
- assert (E' : (n # d) < pow2 l).
  { apply Qnot_le_lt. intros H. apply Qle_bool_iff in H. congruence. }
  replace (l - 1 + 1)%Z with l by lia. split; [|exact E'].
  assert (Ep : pow2 l == 2 * pow2 (l - 1)).
  { rewrite <- pow2_succ. now replace (l - 1 + 1)%Z with l by lia. }
  set (P := pow2 l) in *. set (P' := pow2 (l - 1)) in *. set (x := n # d) in *. nra.
Qed.

Lemma ilog2_unique (q : Q) (k : Z) :
  pow2 k <= q -> q < pow2 (k + 1) -> ilog2 q = k.
Proof.
intros L U.
assert (Hq : 0 < q) by (pose proof (pow2_pos k); lra).
destruct (ilog2_spec q Hq) as [L' U'].
assert (H1 : (k < ilog2 q + 1)%Z) by (apply pow2_lt_inv; lra).
assert (H2 : (ilog2 q < k + 1)%Z) by (apply pow2_lt_inv; lra).
lia.
Qed.


Lemma round_even_compat (x y : Q) : x == y -> round_even x = round_even y.
Proof.
intros H. unfold round_even. rewrite (Qfloor_comp _ _ H).
assert (E : x - inject_Z (Qfloor y) == y - inject_Z (Qfloor y)) by now rewrite H.
now rewrite E.
Qed.

Lemma round_even_Z (z : Z) : round_even (inject_Z z) = z.
Proof.
unfold round_even. rewrite Qfloor_Z.
assert (E : inject_Z z - inject_Z z == 0) by ring.
now rewrite E.
Qed.

Lemma round_even_monotone (x y : Q) : x <= y -> (round_even x <= round_even y)%Z.
Proof.
intros H. unfold round_even.
pose proof (Qfloor_resp_le x y H) as Hf.
pose proof (Qfloor_le x) as Lx. pose proof (Qlt_floor x) as Ux.
pose proof (Qfloor_le y) as Ly. pose proof (Qlt_floor y) as Uy.
rewrite inject_Z_plus in Ux, Uy. change (inject_Z 1) with 1 in Ux, Uy.
destruct (Z_lt_le_dec (Qfloor x) (Qfloor y)) as [Hlt|Hge].
- destruct (Qcompare_spec (x - inject_Z (Qfloor x)) (1 # 2));
  destruct (Qcompare_spec (y - inject_Z (Qfloor y)) (1 # 2));
  try destruct (Z.even (Qfloor x)); try destruct (Z.even (Qfloor y)); lia.
- assert (E : Qfloor x = Qfloor y) by lia. rewrite E in *.
  destruct (Qcompare_spec (x - inject_Z (Qfloor y)) (1 # 2));
  destruct (Qcompare_spec (y - inject_Z (Qfloor y)) (1 # 2));
  try destruct (Z.even (Qfloor y)); try lia; exfalso; lra.
Qed.

Lemma round_even_upper (x : Q) (z : Z) : x <= inject_Z z -> (round_even x <= z)%Z.
Proof. intros H. rewrite <- (round_even_Z z). now apply round_even_monotone. Qed.

Lemma round_even_lower (x : Q) (z : Z) : inject_Z z <= x -> (z <= round_even x)%Z.
Proof. intros H. rewrite <- (round_even_Z z). now apply round_even_monotone. Qed.

Lemma Qabs_nonneg_eq (q : Q) : 0 <= q -> Qabs q = q.
Proof.
destruct q as [n d]. unfold Qle, Qabs. cbn. intros H. f_equal. lia.
Qed.

(** The exponent of a positive number: the number lies below
    [2 ^ (e + 53)], and from [2 ^ (e + 52)] on unless it is subnormal. *)
Lemma exponent_spec (q : Q) :
  0 < q ->
  (-1074 <= exponent q)%Z
  /\ q < pow2 (exponent q + 53)
  /\ ((-1074 < exponent q)%Z -> pow2 (exponent q + 52) <= q).
Proof.
intros Hq. unfold exponent. rewrite Qabs_nonneg_eq by lra.
destruct (ilog2_spec q Hq) as [L U].
split; [lia|]. split.
- eapply Qlt_le_trans; [exact U|]. apply pow2_le. lia.
- intros H. replace (Z.max (ilog2 q - 52) (-1074) + 52)%Z with (ilog2 q) by lia.
  exact L.
Qed.

Lemma exponent_unique (q : Q) (e : Z) :
  0 < q -> (-1074 <= e)%Z -> q < pow2 (e + 53) ->
  ((-1074 < e)%Z -> pow2 (e + 52) <= q) -> exponent q = e.
Proof.
intros Hq He U L.
destruct (exponent_spec q Hq) as [He' [U' L']].
destruct (Z.lt_trichotomy (exponent q) e) as [H|[H|H]]; [|exact H|]; exfalso.
- specialize (L ltac:(lia)).
  assert (pow2 (exponent q + 53) <= pow2 (e + 52)) by (apply pow2_le; lia). lra.
- specialize (L' ltac:(lia)).
  assert (pow2 (e + 53) <= pow2 (exponent q + 52)) by (apply pow2_le; lia). lra.
Qed.

Lemma exponent_compat (x y : Q) : 0 < x -> x == y -> exponent x = exponent y.
Proof.
intros Hx E. symmetry. destruct (exponent_spec x Hx) as [He [U L]].
apply exponent_unique; rewrite <- ?E; auto.
Qed.

Lemma exponent_monotone (x y : Q) : 0 < x -> x <= y -> (exponent x <= exponent y)%Z.
Proof.
intros Hx H.
destruct (exponent_spec x Hx) as [Hex [Ux Lx]].
destruct (exponent_spec y ltac:(lra)) as [Hey [Uy Ly]].
destruct (Z_le_gt_dec (exponent x) (exponent y)) as [|Hgt]; [assumption|exfalso].
specialize (Lx ltac:(lia)).
assert (pow2 (exponent y + 53) <= pow2 (exponent x + 52)) by (apply pow2_le; lia).
lra.
Qed.

Lemma nearest_mantissa (q : Q) : nearest q = inject_Z (mantissa q) * pow2 (exponent q).
Proof. reflexivity. Qed.

Lemma pow2_53 : pow2 53 == inject_Z (2 ^ 53).
Proof. now rewrite pow2_Z. Qed.

Lemma pow2_52 : pow2 52 == inject_Z (2 ^ 52).
Proof. now rewrite pow2_Z. Qed.

Lemma mantissa_spec (q : Q) :
  0 < q ->
  (0 <= mantissa q <= 2 ^ 53)%Z
  /\ ((-1074 < exponent q)%Z -> (2 ^ 52 <= mantissa q)%Z).
Proof.
intros Hq. destruct (exponent_spec q Hq) as [He [U L]].
pose proof (pow2_pos (exponent q)) as P. unfold mantissa.
rewrite pow2_add in U.
split; [split|].
- apply round_even_lower. change (inject_Z 0) with 0.
  apply Qle_shift_div_l; [exact P | lra].
- apply round_even_upper. rewrite <- pow2_53.
  apply Qle_shift_div_r; [exact P | lra].
- intros H. specialize (L H). rewrite pow2_add in L.
  apply round_even_lower. rewrite <- pow2_52.
  apply Qle_shift_div_l; [exact P | lra].
Qed.

Lemma nearest_zero (q : Q) : q == 0 -> nearest q == 0.
Proof.
intros H. unfold nearest, mantissa.
rewrite (round_even_compat _ (inject_Z 0)).
- rewrite round_even_Z. ring.
- generalize (pow2 (exponent q)). intros p. rewrite H.
  unfold Qdiv. change (inject_Z 0) with 0. ring.
Qed.

Lemma nearest_nonneg (q : Q) : 0 <= q -> 0 <= nearest q.
Proof.
intros H. unfold nearest, mantissa. pose proof (pow2_pos (exponent q)) as P.
apply Qmult_le_0_compat; [|lra].
change 0 with (inject_Z 0). rewrite <- Zle_Qle.
apply round_even_lower. change (inject_Z 0) with 0.
apply Qle_shift_div_l; [exact P | lra].
Qed.

(** Rounding is monotone (on the numbers that are not negative). *)
Lemma nearest_monotone (x y : Q) : 0 <= x -> x <= y -> nearest x <= nearest y.
Proof.
intros Hx H.
destruct (Qlt_le_dec 0 x) as [Hpos|Hzero].
2:{ rewrite (nearest_zero x) by lra. apply nearest_nonneg. lra. }
pose proof (exponent_monotone x y Hpos H) as He.
destruct (mantissa_spec x Hpos) as [[_ Mx] _].
destruct (mantissa_spec y ltac:(lra)) as [_ My].
destruct (exponent_spec x Hpos) as [Hex _].
rewrite !nearest_mantissa.
pose proof (pow2_pos (exponent x)) as Px. pose proof (pow2_pos (exponent y)) as Py.
destruct (Z_lt_le_dec (exponent x) (exponent y)) as [Hlt|Hge].
- specialize (My ltac:(lia)).
  rewrite Zle_Qle in Mx, My. rewrite <- pow2_53 in Mx. rewrite <- pow2_52 in My.
  apply Qle_trans with (pow2 53 * pow2 (exponent x)).
  { apply Qmult_le_compat_r; lra. }
  apply Qle_trans with (pow2 52 * pow2 (exponent y)).
  { rewrite <- !pow2_add. apply pow2_le. lia. }
  apply Qmult_le_compat_r; lra.
- assert (E : exponent x = exponent y) by lia.
  unfold mantissa. rewrite E.
  apply Qmult_le_compat_r; [|lra].
  rewrite <- Zle_Qle. apply round_even_monotone.
  apply Qmult_le_compat_r; [exact H|].
  apply Qlt_le_weak, Qinv_lt_0_compat, Py.
Qed.

Lemma nearest_compat (x y : Q) : 0 <= x -> x == y -> nearest x == nearest y.
Proof.
intros Hx E.
destruct (Qlt_le_dec 0 x) as [Hpos|Hzero].
- unfold nearest, mantissa. rewrite <- (exponent_compat x y Hpos E).
  rewrite (round_even_compat (x / pow2 (exponent x)) (y / pow2 (exponent x)));
    [reflexivity|].
  generalize (pow2 (exponent x)). intros p. now rewrite E.
- rewrite (nearest_zero x), (nearest_zero y); [reflexivity | | ]; lra.
Qed.

(** A rounded number is not changed by rounding it again. *)
Lemma nearest_idem (x : Q) : 0 <= x -> nearest (nearest x) == nearest x.
Proof.
intros Hx.
destruct (Qlt_le_dec 0 x) as [Hpos|Hzero].
2:{ assert (E0 : nearest x == 0) by (apply nearest_zero; lra).
    rewrite (nearest_zero (nearest x) E0). now rewrite E0. }
destruct (mantissa_spec x Hpos) as [[M0 M1] M2].
destruct (exponent_spec x Hpos) as [He _].
set (r := nearest x). assert (Er : r = inject_Z (mantissa x) * pow2 (exponent x)) by reflexivity.
set (m := mantissa x) in *. set (e := exponent x) in *.
pose proof (pow2_pos e) as Pe.
destruct (Z.eq_dec m 0) as [Z0|NZ].
{ assert (E0 : r == 0) by (rewrite Er, Z0; change (inject_Z 0) with 0; ring).
  rewrite (nearest_zero r E0). now rewrite E0. }
assert (Hm : 1 <= inject_Z m) by (change 1 with (inject_Z 1); rewrite <- Zle_Qle; lia).
assert (Hr : 0 < r) by (rewrite Er; apply Qmult_lt_0_compat; lra).
destruct (Z.eq_dec m (2 ^ 53)) as [Etop|Ntop].
- assert (Ep : r == pow2 (e + 53)).
  { rewrite Er, Etop, <- pow2_53, pow2_add. ring. }
  assert (Ee : exponent r = (e + 1)%Z).
  { apply exponent_unique; [exact Hr | lia | |].
    - rewrite Ep. apply Qlt_le_trans with (pow2 (e + 53 + 1)).
      + rewrite pow2_succ. pose proof (pow2_pos (e + 53)). lra.
      + apply pow2_le. lia.
    - intros _. rewrite Ep. apply pow2_le. lia. }
  unfold nearest at 1. unfold mantissa at 1. rewrite Ee.
  rewrite (round_even_compat _ (inject_Z (2 ^ 52))).
  + rewrite round_even_Z, <- pow2_52, <- pow2_add.
    rewrite Ep. now replace (52 + (e + 1))%Z with (e + 53)%Z by lia.
  + rewrite Ep, <- pow2_52.
    replace (e + 53)%Z with (52 + (e + 1))%Z by lia. rewrite pow2_add.
    field. pose proof (pow2_pos (e + 1)). lra.
- assert (Hlt : inject_Z m < pow2 53).
  { rewrite pow2_53, <- Zlt_Qlt. lia. }
  assert (Ee : exponent r = e).
  { apply exponent_unique; [exact Hr | exact He | |].
    - rewrite Er. replace (e + 53)%Z with (53 + e)%Z by lia. rewrite pow2_add. apply Qmult_lt_compat_r; lra.
    - intros H. specialize (M2 H). rewrite Zle_Qle, <- pow2_52 in M2.
      rewrite Er. replace (e + 52)%Z with (52 + e)%Z by lia. rewrite pow2_add.
      apply Qmult_le_compat_r; lra. }
  unfold nearest at 1. unfold mantissa at 1. rewrite Ee.
  rewrite (round_even_compat _ (inject_Z m)).
  + rewrite round_even_Z. now rewrite Er.
  + rewrite Er. field. lra.
Qed.


Lemma round64_compat (x y : Q) : x == y -> round64 x = round64 y.
Proof. intros H. unfold round64. now rewrite (Qred_complete _ _ H). Qed.

(** What rounding makes of a number that is not negative. *)
Lemma round64_nonneg (x : Q) :
  0 <= x ->
  (round64 x = Infinity false /\ pow2 1024 <= nearest (Qred x))
  \/ (exists x', round64 x = Finite x' /\ x' == nearest (Qred x)
                 /\ 0 <= x' /\ nearest (Qred x) < pow2 1024).
Proof.
intros Hx. unfold round64.
assert (H0 : 0 <= nearest (Qred x)) by (apply nearest_nonneg; now rewrite Qred_correct).
rewrite (Qabs_nonneg_eq _ H0).
destruct (Qle_bool (pow2 1024) (nearest (Qred x))) eqn:E.
- left. apply Qle_bool_iff in E. split; [|exact E].
  apply Qle_bool_iff in H0. now rewrite H0.
- right. apply Qle_bool_false in E. eexists. split; [reflexivity|].
  rewrite Qred_correct. split; [reflexivity | split; assumption].
Qed.

Lemma round64_le (x y y' : Q) :
  0 <= x -> x <= y -> round64 y = Finite y' ->
  exists x', round64 x = Finite x' /\ 0 <= x' /\ x' <= y'.
Proof.
intros Hx H Hy.
assert (Hm : nearest (Qred x) <= nearest (Qred y)).
{ apply nearest_monotone; rewrite !Qred_correct; assumption. }
destruct (round64_nonneg y ltac:(lra)) as [[Ey _]|[y0 [Ey [Ey0 [_ Fy]]]]]; [congruence|].
assert (y0 = y') by congruence. subst y0.
destruct (round64_nonneg x Hx) as [[_ Ix]|[x' [Ex [Ex' [Px _]]]]]; [exfalso; lra|].
exists x'. split; [exact Ex|]. split; [exact Px | lra].
Qed.

Lemma round64_idem (x x' : Q) : 0 <= x -> round64 x = Finite x' -> round64 x' = Finite x'.
Proof.
intros Hx H.
destruct (round64_nonneg x Hx) as [[E _]|[x0 [E [E0 [P0 F0]]]]]; [congruence|].
assert (x0 = x') by congruence. subst x0.
assert (Hr : x' = Qred (nearest (Qred x))).
{ unfold round64 in H. destruct (Qle_bool _ _); congruence. }
assert (Hn : nearest (Qred x') == x').
{ rewrite (nearest_compat (Qred x') (nearest (Qred x))).
  - rewrite nearest_idem; [now symmetry | now rewrite Qred_correct].
  - now rewrite Qred_correct.
  - now rewrite Qred_correct. }
unfold round64.
assert (H0 : 0 <= nearest (Qred x')) by (rewrite Hn; exact P0).
rewrite (Qabs_nonneg_eq _ H0).
assert (Hlt : Qle_bool (pow2 1024) (nearest (Qred x')) = false).
{ apply Qle_bool_false. rewrite Hn, E0. exact F0. }
rewrite Hlt. f_equal.
transitivity (Qred x'); [apply Qred_complete, Hn|].
rewrite Hr. apply Qred_complete, Qred_correct.
Qed.

Lemma round64_ge (x y x' y' : Q) :
  0 <= x -> x <= y -> round64 x = Finite x' -> round64 y = Finite y' -> x' <= y'.
Proof.
intros Hx H Ex Ey. destruct (round64_le x y y' Hx H Ey) as [x0 [E [_ Hle]]].
assert (x0 = x') by congruence. now subst.
Qed.

Lemma round64_sum_nonneg (x : Q) : 0 <= x -> nonneg (round64 x) /\ representable (round64 x).
Proof.
intros Hx. destruct (round64_nonneg x Hx) as [[E _]|[x' [E [_ [P _]]]]]; rewrite E; cbn.
- split; [reflexivity | exact I].
- split; [exact P | exact (round64_idem x x' Hx E)].
Qed.

Lemma add_nonneg (x y : number) :
  nonneg x -> nonneg y -> nonneg (add x y) /\ representable (add x y).
Proof.
destruct x as [a|s|], y as [b|t|]; cbn; try contradiction; intros Hx Hy; subst; cbn;
  try (split; [reflexivity | exact I]).
apply round64_sum_nonneg. lra.
Qed.

Lemma or_zero_nonneg (x : number) : nonneg x -> nonneg (or_zero x).
Proof.
destruct x as [a|s|]; cbn; try tauto.
destruct (Qeq_bool a 0); cbn; [lra | tauto].
Qed.

End RoundingFacts.

Section MachineFacts.

Import PrimFloat.
#[local] Set Warnings "-inexact-float".

(** On the samples, the numbers of the embedding compute as the primitive
    binary64 numbers do, and a decimal text denotes the same number. *)
Lemma binary64_agrees_with_the_machine :
  Machine.agree_on Machine.samples = true
  /\ Machine.of_float 0.6%float = Binary64.literal (6 # 10)
  /\ Machine.of_float 296.83%float = Binary64.literal (29683 # 100)
  /\ Machine.of_float (23 / 40 * 100)%float
     = Binary64.mul (Binary64.div (Binary64.Finite 23) (Binary64.Finite 40))
                    (Binary64.Finite 100).
Proof. vm_compute. repeat split. Qed.

End MachineFacts.

(** * The leaderboard over binary64 numbers *)

Section Order64.

Import Binary64.
Local Open Scope Q_scope.

Lemma leb_refl (x : number) : x <> NaN -> leb x x = true.
Proof.
destruct x as [a|s|]; cbn; intros H; [|destruct s; reflexivity|congruence].
apply Qle_bool_iff. apply Qle_refl.
Qed.

Lemma ltb_leb (x y : number) : ltb x y = true -> leb x y = true.
Proof.
destruct x as [a|s|], y as [b|t|]; cbn; try congruence;
  try (repeat match goal with c : bool |- _ => destruct c end; cbn; congruence).
rewrite negb_true_iff. intros H. apply Qle_bool_false in H.
apply Qle_bool_iff. lra.
Qed.

Lemma ltb_false_leb (x y : number) :
  x <> NaN -> y <> NaN -> ltb x y = false -> leb y x = true.
Proof.
destruct x as [a|s|], y as [b|t|]; cbn; try congruence; intros _ _;
  try (repeat match goal with c : bool |- _ => destruct c end; cbn; congruence).
now rewrite negb_false_iff.
Qed.

Lemma leb_trans (x y z : number) : leb x y = true -> leb y z = true -> leb x z = true.
Proof.
destruct x as [a|s|], y as [b|t|], z as [c|u|]; cbn; try congruence;
  try (repeat match goal with c : bool |- _ => destruct c end; cbn; congruence).
rewrite !Qle_bool_iff. intros; lra.
Qed.

Lemma leb_finite (a b : Q) : leb (Finite a) (Finite b) = true <-> a <= b.
Proof. cbn. apply Qle_bool_iff. Qed.

Lemma ltb_finite (a b : Q) : ltb (Finite a) (Finite b) = true <-> a < b.
Proof. cbn. rewrite negb_true_iff. apply Qle_bool_false. Qed.

Lemma leb_zero_nonneg (x : number) : leb (Finite 0) x = true -> nonneg x.
Proof.
destruct x as [a|s|]; cbn; try congruence.
- apply Qle_bool_iff.
- now rewrite negb_true_iff.
Qed.

Lemma or_zero_not_NaN (x : number) : or_zero x <> NaN.
Proof.
destruct x as [a|s|]; cbn; try congruence. destruct (Qeq_bool a 0); congruence.
Qed.

Lemma field_or_zero_nonneg (x : option number) :
  leb (Finite 0) (field_or_zero x) = true -> nonneg (field_or_zero x).
Proof. apply leb_zero_nonneg. Qed.

Lemma max2_spec (x y : number) :
  x <> NaN -> y <> NaN ->
  (max2 x y = x \/ max2 x y = y) /\ max2 x y <> NaN
  /\ leb x (max2 x y) = true /\ leb y (max2 x y) = true.
Proof.
intros Hx Hy.
assert (E : max2 x y = if ltb x y then y else x).
{ destruct x, y; try reflexivity; congruence. }
rewrite E. destruct (ltb x y) eqn:L.
- repeat split; auto using ltb_leb, leb_refl.
- repeat split; auto using ltb_false_leb, leb_refl.
Qed.

(** [Math.max(...xs, last)] of numbers none of which is NaN: an upper bound
    of all of them that is one of them. *)
Lemma Math_max64_spec (l : list number) (c : number) :
  c <> NaN -> (forall x, In x l -> x <> NaN) ->
  Math_max l c <> NaN
  /\ leb c (Math_max l c) = true
  /\ (forall x, In x l -> leb x (Math_max l c) = true)
  /\ (Math_max l c = c \/ In (Math_max l c) l).
Proof.
intros Hc. induction l as [|y l IH]; intros Hl.
- cbn. split; [exact Hc|]. split; [exact (leb_refl c Hc)|].
  split; [intros x []|now left].
- destruct IH as [N [C [U A]]].
  { intros x Hx. apply Hl. now right. }
  assert (Hy : y <> NaN) by (apply Hl; now left).
  cbn [Math_max fold_right]. fold (Math_max l c).
  destruct (max2_spec y (Math_max l c) Hy N) as [Cases [N' [Ly Lm]]].
  split; [exact N'|]. split; [exact (leb_trans _ _ _ C Lm)|]. split.
  + intros x [<-|Hx]; [exact Ly | exact (leb_trans _ _ _ (U x Hx) Lm)].
  + destruct Cases as [E|E]; rewrite E.
    * right. now left.
    * destruct A as [A|A]; [now left | right; now right].
Qed.

End Order64.

Section Aggregation64.

Import Binary64 Leaderboard64 Spec64.

Lemma upsert64_absent (m : DistrictMap) (r : Doc) :
  ~ In (district r) (map fst m) ->
  upsert m r = m ++ [(district r, add_record r (fresh (district r)))].
Proof.
induction m as [|[k d] m IH]; simpl; intros H; [reflexivity|].
destruct (String.eqb_spec k (district r)) as [->|Hne]; [tauto|].
rewrite IH; tauto.
Qed.

Lemma upsert64_present (m : DistrictMap) (r : Doc) :
  NoDup (map fst m) -> In (district r) (map fst m) ->
  upsert m r
  = map (fun kd => if String.eqb (fst kd) (district r)
                   then (fst kd, add_record r (snd kd)) else kd) m.
Proof.
induction m as [|[k d] m IH]; simpl; intros Hnd Hin; [contradiction|].
inversion Hnd as [|? ? Hk Hm]; subst.
destruct (String.eqb_spec k (district r)) as [->|Hne].
- f_equal. symmetry. rewrite <- (map_id m) at 2. apply map_ext_in.
  intros [k' d'] Hk'. simpl.
  destruct (String.eqb_spec k' (district r)) as [->|]; [|reflexivity].
  exfalso. apply Hk. change (district r) with (fst (district r, d')).
  now apply in_map.
- f_equal. apply IH; [exact Hm | tauto].
Qed.

Lemma rows64_snoc (k : string) (l : list Doc) (r : Doc) :
  rows_of k (l ++ [r])
  = rows_of k l ++ (if String.eqb k (district r) then [r] else []).
Proof. unfold rows_of. now rewrite filter_app. Qed.

Lemma summary64_snoc (k : string) (rows : list Doc) (r : Doc) :
  summary k (rows ++ [r]) = add_record r (summary k rows).
Proof. unfold summary. now rewrite fold_left_app. Qed.

(** The map built by [forEach]: one entry for each district, in the order
    in which the districts are met, holding what the rows of the district
    add up to in their order. *)
Lemma aggregate64_groups (districts : list Doc) :
  aggregate districts = map (group_entry districts) (groups districts).
Proof.
induction districts as [|r l IH] using rev_ind; [reflexivity|].
unfold aggregate in *. rewrite fold_left_app. simpl. rewrite IH.
unfold groups. rewrite map_app. simpl. rewrite distinct_snoc.
assert (Hkeys : map fst (map (group_entry l) (LeaderboardSpec.distinct (map district l)))
                = LeaderboardSpec.distinct (map district l)).
{ rewrite map_map. simpl. apply map_id. }
destruct (existsb (String.eqb (district r)) (map district l)) eqn:E.
- apply existsb_eqb_in in E.
  rewrite upsert64_present.
  + rewrite map_map. apply map_ext_in. intros k Hk. unfold group_entry. simpl.
    rewrite rows64_snoc.
    destruct (String.eqb k (district r)).
    * now rewrite summary64_snoc.
    * now rewrite app_nil_r.
  + rewrite Hkeys. apply NoDup_distinct.
  + rewrite Hkeys. now apply in_distinct.
- assert (Hx : ~ In (district r) (map district l)).
  { intros H. apply existsb_eqb_in in H. congruence. }
  rewrite upsert64_absent.
  + rewrite map_app. simpl. f_equal.
    * apply map_ext_in. intros k Hk. unfold group_entry. f_equal.
      rewrite rows64_snoc.
      destruct (String.eqb_spec k (district r)) as [->|].
      -- apply (proj1 (in_distinct _ _)) in Hk. contradiction.
      -- now rewrite app_nil_r.
    * unfold group_entry. rewrite rows64_snoc, String.eqb_refl.
      replace (rows_of (district r) l) with (@nil Doc); [reflexivity|].
      symmetry. apply filter_none. intros x Hxl.
      destruct (String.eqb_spec (district r) (district x)) as [e|]; [|reflexivity].
      exfalso. apply Hx. rewrite e. now apply in_map.
  + rewrite Hkeys. now rewrite in_distinct.
Qed.

Lemma leaderboard64_selected (db : list Doc) :
  leaderboard (getMaharashtraLeaderboard db) = rank_all (selected db).
Proof.
unfold getMaharashtraLeaderboard, selected.
destruct (latestYear db); reflexivity.
Qed.

Lemma all_data64_inv (districts : list Doc) (data : DistrictData) :
  In data (all_data districts) ->
  exists k, In k (groups districts)
            /\ data = average_wage (summary k (rows_of k districts)).
Proof.
unfold all_data. rewrite aggregate64_groups, !map_map. cbn [snd fst group_entry].
intros H. apply in_map_iff in H. destruct H as [k [<- Hk]].
exists k. split; [exact Hk | reflexivity].
Qed.

Lemma group64_has_rows (districts : list Doc) (k : string) :
  In k (groups districts) -> (0 < List.length (rows_of k districts))%nat.
Proof.
unfold groups. rewrite in_distinct. intros H. apply in_map_iff in H.
destruct H as [r [<- Hr]].
assert (Hin : In r (rows_of (district r) districts)).
{ unfold rows_of. apply filter_In. split; [exact Hr | apply String.eqb_refl]. }
destruct (rows_of (district r) districts); [contradiction | simpl; lia].
Qed.

Lemma summary64_count (k : string) (rows : list Doc) :
  monthsCount (summary k rows) = List.length rows.
Proof.
induction rows as [|r rows IH] using rev_ind; [reflexivity|].
rewrite summary64_snoc, length_app. simpl. rewrite IH. lia.
Qed.

Lemma summary64_district (k : string) (rows : list Doc) : d_district (summary k rows) = k.
Proof.
induction rows as [|r rows IH] using rev_ind; [reflexivity|].
rewrite summary64_snoc. exact IH.
Qed.

Lemma summary64_wages (k : string) (rows : list Doc) :
  avgWageRate (summary k rows) = wages rows.
Proof.
induction rows as [|r rows IH] using rev_ind; [reflexivity|].
rewrite summary64_snoc. unfold wages. rewrite fold_left_app. cbn.
fold (wages rows). now rewrite IH.
Qed.

(** Every entry of the leaderboard is the entry made for the data of one
    district, with a rank added. *)
Lemma rank_all64_origin (districts : list Doc) (e : Entry) :
  In e (rank_all districts) ->
  exists data i,
    In data (all_data districts)
    /\ e = add_rank (make_entry (maxPersonDays_of (all_data districts))
                                (maxExpenditure_of (all_data districts)) data) i.
Proof.
unfold rank_all, JsArray.mapi. intros H.
apply in_mapi_from_inv in H. destruct H as [x [i [Hx ->]]].
apply (Permutation_in _ (sort_perm _ by_score_descending (scored districts))) in Hx.
unfold scored in Hx. apply in_map_iff in Hx. destruct Hx as [data [<- Hd]].
exists data, i. split; [exact Hd | reflexivity].
Qed.

Lemma rank_all64_covers (districts : list Doc) (data : DistrictData) :
  In data (all_data districts) ->
  exists i,
    In (add_rank (make_entry (maxPersonDays_of (all_data districts))
                             (maxExpenditure_of (all_data districts)) data) i)
       (rank_all districts).
Proof.
intros Hd. unfold rank_all, JsArray.mapi.
destruct (in_mapi_from _ _ add_rank 0
            (JsArray.sort by_score_descending (scored districts))
            (make_entry (maxPersonDays_of (all_data districts))
                        (maxExpenditure_of (all_data districts)) data))
  as [i [_ Hi]].
- apply (Permutation_in _ (Permutation_sym (sort_perm _ by_score_descending _))).
  unfold scored. now apply in_map.
- exists i. exact Hi.
Qed.

Lemma selected64_incl (db : list Doc) (r : Doc) : In r (selected db) -> In r db.
Proof.
unfold selected, find_year, of_maharashtra.
destruct (latestYear db); [|contradiction].
rewrite !filter_In. tauto.
Qed.

Lemma non_negative64_fields (r : Doc) :
  non_negative r = true ->
  nonneg (field_or_zero (total_persondays_generated r))
  /\ nonneg (field_or_zero (total_expenditure r))
  /\ nonneg (field_or_zero (total_completed_works r))
  /\ nonneg (field_or_zero (total_ongoing_works r)).
Proof.
unfold non_negative. cbn [forallb]. rewrite !andb_true_iff.
intros H. repeat split; apply leb_zero_nonneg; tauto.
Qed.

(** Sums of numbers that are at least 0 are at least 0 (or have grown to
    Infinity), and are numbers of the format. *)
Lemma summary64_totals (k : string) (rows : list Doc) :
  (forall r, In r rows -> non_negative r = true) ->
  let d := summary k rows in
  (nonneg (totalPersonDays d) /\ representable (totalPersonDays d))
  /\ (nonneg (totalExpenditure d) /\ representable (totalExpenditure d))
  /\ (nonneg (worksCompleted d) /\ representable (worksCompleted d))
  /\ (nonneg (worksInProgress d) /\ representable (worksInProgress d)).
Proof.
cbn zeta. induction rows as [|r rows IH] using rev_ind; intros H.
- cbn. repeat split; apply Qle_refl.
- rewrite summary64_snoc. cbn [totalPersonDays totalExpenditure worksCompleted
                               worksInProgress add_record].
  destruct IH as [[H1 _] [[H2 _] [[H3 _] [H4 _]]]].
  { intros x Hx. apply H. apply in_or_app. now left. }
  destruct (non_negative64_fields r) as [F1 [F2 [F3 F4]]].
  { apply H. apply in_or_app. right. now left. }
  repeat split; apply add_nonneg; assumption.
Qed.

Lemma all_data64_totals (db : list Doc) (data : DistrictData) :
  forallb non_negative db = true ->
  In data (all_data (selected db)) ->
  (nonneg (totalPersonDays data) /\ representable (totalPersonDays data))
  /\ (nonneg (totalExpenditure data) /\ representable (totalExpenditure data))
  /\ (nonneg (worksCompleted data) /\ representable (worksCompleted data))
  /\ (nonneg (worksInProgress data) /\ representable (worksInProgress data)).
Proof.
intros Hdb Hd. apply all_data64_inv in Hd. destruct Hd as [k [_ ->]].
cbn [totalPersonDays totalExpenditure worksCompleted worksInProgress average_wage].
apply summary64_totals. intros r Hr.
rewrite forallb_forall in Hdb. apply Hdb, selected64_incl.
unfold rows_of in Hr. apply filter_In in Hr. tauto.
Qed.

End Aggregation64.

Section Range64.

Import Binary64 Leaderboard64 Spec64.
Local Open Scope Q_scope.

Lemma literal_06 : literal (6 # 10) = Finite c06.
Proof. vm_compute. reflexivity. Qed.

Lemma literal_04 : literal (4 # 10) = Finite c04.
Proof. vm_compute. reflexivity. Qed.

Lemma leb_one_positive (m : number) : leb (Finite 1) m = true -> ltb (Finite 0) m = true.
Proof.
destruct m as [a|s|]; cbn; try congruence.
rewrite negb_true_iff, Qle_bool_iff. intros H. apply Qle_bool_false. lra.
Qed.

(** The share of a total in a maximum that is at least 1. *)
Lemma share_in_unit64 (a M : Q) :
  0 <= a -> a <= M -> 0 < M ->
  exists r, div (Finite a) (Finite M) = Finite r /\ 0 <= r /\ r <= 1.
Proof.
intros Ha HM H1. cbn [div].
assert (E : Qeq_bool M 0 = false).
{ destruct (Qeq_bool M 0) eqn:E; [|reflexivity]. apply Qeq_bool_eq in E. lra. }
rewrite E. apply (round64_le (a / M) 1 1).
- apply Qle_shift_div_l; lra.
- apply Qle_shift_div_r; lra.
- reflexivity.
Qed.

(** The score made of two shares that lie between 0 and 1. *)
Lemma score_in_range (r1 r2 : Q) :
  0 <= r1 -> r1 <= 1 -> 0 <= r2 -> r2 <= 1 ->
  exists q,
    div (Math_round
           (mul (mul (add (mul (Finite r1) (literal (6 # 10)))
                          (mul (Finite r2) (literal (4 # 10))))
                     (Finite 100))
                (Finite 100)))
        (Finite 100) = Finite q
    /\ 0 <= q /\ q <= 100.
Proof.
intros A0 A1 B0 B1. rewrite literal_06, literal_04. cbn [mul].
destruct (round64_le (r1 * c06) c06 c06) as [t1 [E1 [L1 U1]]];
  [unfold c06; lra | unfold c06; lra | vm_compute; reflexivity |].
destruct (round64_le (r2 * c04) c04 c04) as [t2 [E2 [L2 U2]]];
  [unfold c04; lra | unfold c04; lra | vm_compute; reflexivity |].
rewrite E1, E2. cbn [add].
destruct (round64_le (t1 + t2) (c06 + c04) 1) as [s [Es [Ls Us]]];
  [lra | lra | vm_compute; reflexivity |].
rewrite Es. cbn [mul].
destruct (round64_le (s * 100) 100 100) as [p [Ep [Lp Up]]];
  [lra | lra | vm_compute; reflexivity |].
rewrite Ep. cbn [mul].
destruct (round64_le (p * 100) 10000 10000) as [v [Ev [Lv Uv]]];
  [lra | lra | vm_compute; reflexivity |].
rewrite Ev. cbn [Math_round].
destruct (Math_round_between 0 10000 v) as [Ln Un].
{ change (inject_Z 0) with 0. exact Lv. }
{ change (inject_Z 10000) with 10000. exact Uv. }
change (inject_Z 0) with 0 in Ln. change (inject_Z 10000) with 10000 in Un.
cbn [div]. change (Qeq_bool 100 0) with false. cbv iota.
apply (round64_le (JsNumber.Math_round v / 100) 100 100).
- apply Qle_shift_div_l; lra.
- apply Qle_shift_div_r; lra.
- vm_compute. reflexivity.
Qed.

(** The rate made of a number of completed works and a total that is not
    smaller. *)
Lemma rate_in_range (a s : Q) :
  0 <= a -> a <= s -> 0 < s ->
  exists q, Math_round (mul (div (Finite a) (Finite s)) (Finite 100)) = Finite q
            /\ 0 <= q /\ q <= 100.
Proof.
intros Ha Hs H0.
destruct (share_in_unit64 a s Ha Hs H0) as [r [Er [Lr Ur]]].
rewrite Er. cbn [mul].
destruct (round64_le (r * 100) 100 100) as [p [Ep [Lp Up]]];
  [lra | lra | vm_compute; reflexivity |].
rewrite Ep. cbn [Math_round].
destruct (Math_round_between 0 100 p) as [Ln Un].
{ change (inject_Z 0) with 0. exact Lp. }
{ change (inject_Z 100) with 100. exact Up. }
eexists. split; [reflexivity|]. split; [exact Ln | exact Un].
Qed.

(** A count of at least one row is a number greater than 0. *)
Lemma of_nat_positive (n : nat) :
  (0 < n)%nat -> ltb (Finite 0) (of_nat n) = true /\ nonneg (of_nat n).
Proof.
intros Hn. unfold of_nat.
assert (H1 : 1 <= inject_Z (Z.of_nat n)).
{ change 1 with (inject_Z 1). rewrite <- Zle_Qle. lia. }
destruct (round64_nonneg (inject_Z (Z.of_nat n)) ltac:(lra)) as [[E _]|[c [E [_ [P _]]]]].
- rewrite E. split; reflexivity.
- rewrite E. assert (Hc : 1 <= c).
  { apply (round64_ge 1 (inject_Z (Z.of_nat n)) 1 c); [lra | exact H1 | reflexivity | exact E]. }
  split; [apply ltb_finite; lra | exact P].
Qed.

Lemma zero_share (x : number) : ltb (Finite 0) x = true -> div (Finite 0) x = Finite 0.
Proof.
destruct x as [c|s|]; cbn [ltb div]; try congruence.
rewrite negb_true_iff. intros H. apply Qle_bool_false in H.
assert (E : Qeq_bool c 0 = false).
{ destruct (Qeq_bool c 0) eqn:E; [|reflexivity]. apply Qeq_bool_eq in E. lra. }
rewrite E. rewrite (round64_compat (0 / c) 0); [reflexivity|].
unfold Qdiv. ring.
Qed.

Lemma wages_zero (rows : list Doc) :
  (forall r, In r rows -> wage r = Finite 0) -> wages rows = Finite 0.
Proof.
unfold wages. induction rows as [|r rows IH] using rev_ind; intros H; [reflexivity|].
rewrite fold_left_app. cbn [fold_left]. rewrite IH.
- rewrite (H r); [reflexivity|]. apply in_or_app. right. now left.
- intros x Hx. apply H. apply in_or_app. now left.
Qed.

End Range64.

(** C5, the claim as it is written, fails: [monthsCount] counts every row of
    the district, so a row without a wage rate lowers the average. With the
    wage rates 100 and 0 the leaderboard shows 50, the average over the
    rows with data is 100. *)
Lemma avgWageRate_counts_every_row :
  let e := Spec64.entry_at 0 Spec64.uneven_wages in
  let rows := Spec64.rows_of "PUNE" Spec64.uneven_wages in
  Leaderboard64.m_avgWageRate (Leaderboard64.metrics e) = Binary64.Finite 50
  /\ Spec64.average_of_rows_with_data rows = Binary64.Finite 100
  /\ Leaderboard64.m_avgWageRate (Leaderboard64.metrics e)
     <> Spec64.average_of_rows_with_data rows.
Proof. vm_compute. repeat split; discriminate. Qed.

(** C5 (amended): the average wage rate of a district is [Math.round] of
    the quotient of two numbers: the wage rates of all its rows, a missing
    rate counting as 0, added one after the other in the order of the
    records, and the number of these rows. Sum and quotient are those of
    binary64. A group has at least one row, so the divisor is greater than
    0; a district whose rows all lack a wage rate gets 0. *)
Theorem avgWageRate_over_all_rows
    (db : list Leaderboard64.Doc) (e : Leaderboard64.Entry) :
  In e (Leaderboard64.leaderboard (Leaderboard64.getMaharashtraLeaderboard db)) ->
  let rows := Spec64.rows_of (Leaderboard64.e_district e) (Spec64.selected db) in
  let count := Binary64.of_nat (List.length rows) in
  (0 < List.length rows)%nat
  /\ Binary64.ltb (Binary64.Finite 0) count = true
  /\ Leaderboard64.m_avgWageRate (Leaderboard64.metrics e)
     = Binary64.Math_round (Binary64.div (Spec64.wages rows) count)
  /\ ((forall r, In r rows -> Spec64.wage r = Binary64.Finite 0) ->
      Leaderboard64.m_avgWageRate (Leaderboard64.metrics e) = Binary64.Finite 0).
Proof.
rewrite leaderboard64_selected. intros He.
destruct (rank_all64_origin _ _ He) as [data [i [Hd ->]]].
destruct (all_data64_inv _ _ Hd) as [k [Hk ->]].
cbn [Leaderboard64.e_district Leaderboard64.metrics Leaderboard64.m_avgWageRate
     Leaderboard64.add_rank Leaderboard64.make_entry Leaderboard64.d_district
     Leaderboard64.avgWageRate Leaderboard64.monthsCount Leaderboard64.average_wage].
rewrite summary64_district, summary64_count, summary64_wages.
pose proof (group64_has_rows _ _ Hk) as Hrows.
destruct (of_nat_positive _ Hrows) as [Hpos _].
split; [exact Hrows|]. split; [exact Hpos|].
apply Nat.ltb_lt in Hrows. rewrite Hrows.
split; [reflexivity|].
intros Hzero. rewrite (wages_zero _ Hzero), (zero_share _ Hpos). reflexivity.
Qed.

(** Wage rates 100 and 0 give 50; the rates 296.83, 284.75 and 247.92 give
    276; a district without any wage rate gets 0. *)
Lemma avgWageRate_over_all_rows_witness :
  Leaderboard64.m_avgWageRate
    (Leaderboard64.metrics (Spec64.entry_at 0 Spec64.uneven_wages)) = Binary64.Finite 50
  /\ Leaderboard64.m_avgWageRate
       (Leaderboard64.metrics (Spec64.entry_at 0 Spec64.three_wages)) = Binary64.Finite 276
  /\ Leaderboard64.m_avgWageRate
       (Leaderboard64.metrics (Spec64.entry_at 0 Spec64.two_districts)) = Binary64.Finite 0.
Proof.
split; [|split].
- destruct (avgWageRate_over_all_rows Spec64.uneven_wages
              (Spec64.entry_at 0 Spec64.uneven_wages)) as [_ [_ [H _]]].
  + vm_compute. left. reflexivity.
  + rewrite H. vm_compute. reflexivity.
- destruct (avgWageRate_over_all_rows Spec64.three_wages
              (Spec64.entry_at 0 Spec64.three_wages)) as [_ [_ [H _]]].
  + vm_compute. left. reflexivity.
  + rewrite H. vm_compute. reflexivity.
- destruct (avgWageRate_over_all_rows Spec64.two_districts
              (Spec64.entry_at 0 Spec64.two_districts)) as [_ [_ [_ H]]].
  + vm_compute. left. reflexivity.
  + apply H. vm_compute. intros r [<-|[]]. reflexivity.
Defined.

(** C10, the claim as it is written, fails: the program divides first and
    multiplies by 100 afterwards, each time with the rounding of binary64.
    With 23 works completed and 17 ongoing, 23 / 40 * 100 is a number just
    under 57.5 and the rate is 57; 100 * 23 / 40 is 57.5, over the
    rationals and in binary64 alike, and rounds to 58. *)
Lemma completionRate_is_not_the_written_rate :
  let e := Spec64.entry_at 0 Spec64.works_23_17 in
  Leaderboard64.m_worksCompleted (Leaderboard64.metrics e) = Binary64.Finite 23
  /\ Leaderboard64.m_worksInProgress (Leaderboard64.metrics e) = Binary64.Finite 17
  /\ Leaderboard64.completionRate (Leaderboard64.metrics e) = Binary64.Finite 57
  /\ (JsNumber.Math_round (100 * 23 / (23 + 17)) == 58)%Q
  /\ Binary64.Math_round
       (Binary64.div (Binary64.mul (Binary64.Finite 100) (Binary64.Finite 23))
                     (Binary64.add (Binary64.Finite 23) (Binary64.Finite 17)))
     = Binary64.Finite 58
  /\ Leaderboard64.completionRate (Leaderboard64.metrics e) <> Binary64.Finite 58.
Proof. vm_compute. repeat split; discriminate. Qed.

(** C10 (amended): the completion rate of an entry is [Math.round] of
    (completed / (completed + ongoing)) * 100, computed in this order in
    binary64, when completed + ongoing is greater than 0, and 0 otherwise;
    the divisor is then never 0; with records that hold no negative number
    and a finite number of completed works the rate lies between 0 and
    100. *)
Theorem completionRate_in_binary64
    (db : list Leaderboard64.Doc) (e : Leaderboard64.Entry) :
  In e (Leaderboard64.leaderboard (Leaderboard64.getMaharashtraLeaderboard db)) ->
  let completed := Leaderboard64.m_worksCompleted (Leaderboard64.metrics e) in
  let ongoing := Leaderboard64.m_worksInProgress (Leaderboard64.metrics e) in
  let total := Binary64.add completed ongoing in
  let rate := Leaderboard64.completionRate (Leaderboard64.metrics e) in
  (Binary64.ltb (Binary64.Finite 0) total = true ->
   rate = Spec64.rate_of completed ongoing /\ Binary64.is_zero total = false)
  /\ (Binary64.ltb (Binary64.Finite 0) total = false -> rate = Binary64.Finite 0)
  /\ (forallb Spec64.non_negative db = true -> Binary64.finite completed ->
      exists q, rate = Binary64.Finite q /\ (0 <= q /\ q <= 100)%Q).
Proof.
rewrite leaderboard64_selected. intros He.
destruct (rank_all64_origin _ _ He) as [data [i [Hd ->]]].
cbn [Leaderboard64.metrics Leaderboard64.m_worksCompleted Leaderboard64.m_worksInProgress
     Leaderboard64.completionRate Leaderboard64.add_rank Leaderboard64.make_entry].
unfold Leaderboard64.completion_rate, Spec64.rate_of.
set (c := Leaderboard64.worksCompleted data).
set (o := Leaderboard64.worksInProgress data).
split; [|split].
- intros E. rewrite E. split; [reflexivity|].
  destruct (Binary64.add c o) as [s|s|]; cbn in *; try congruence.
  rewrite negb_true_iff in E. apply Qle_bool_false in E.
  destruct (Qeq_bool s 0) eqn:Z; [|reflexivity]. apply Qeq_bool_eq in Z. lra.
- intros E. now rewrite E.
- intros Hdb Hfin.
  destruct (all_data64_totals db data Hdb Hd) as [_ [_ [[Hc Rc] [Ho _]]]].
  fold c in Hc, Rc. fold o in Ho.
  destruct c as [a| |]; [|contradiction|contradiction].
  destruct (Binary64.ltb (Binary64.Finite 0) (Binary64.add (Binary64.Finite a) o)) eqn:E.
  2:{ exists 0%Q. split; [reflexivity | split; lra]. }
  cbn in Hc, Rc.
  destruct o as [b|t|]; [| |contradiction].
  + cbn [Binary64.add] in *.
    destruct (round64_nonneg (a + b)%Q) as [[Es _]|[s [Es [_ [Ps _]]]]].
    { cbn in Ho. lra. }
    * rewrite Es. exists 0%Q. split; [vm_compute; reflexivity | split; lra].
    * rewrite Es in E |- *. apply ltb_finite in E.
      apply rate_in_range; [exact Hc | | exact E].
      apply (round64_ge a (a + b) a s); [exact Hc | cbn in Ho; lra | exact Rc | exact Es].
  + cbn in Ho. subst t. cbn [Binary64.add Binary64.div Binary64.mul].
    exists 0%Q. split; [vm_compute; reflexivity | split; lra].
Qed.

(** Three works completed and one ongoing: 75. *)
Lemma completionRate_in_binary64_witness :
  let e := Spec64.entry_at 0 Spec64.two_districts in
  Leaderboard64.completionRate (Leaderboard64.metrics e) = Binary64.Finite 75
  /\ exists q, Leaderboard64.completionRate (Leaderboard64.metrics e) = Binary64.Finite q
               /\ (0 <= q /\ q <= 100)%Q.
Proof.
cbn zeta.
destruct (completionRate_in_binary64 Spec64.two_districts
            (Spec64.entry_at 0 Spec64.two_districts)) as [H1 [_ H3]].
- vm_compute. left. reflexivity.
- split.
  + destruct H1 as [H1 _]; [vm_compute; reflexivity|].
    rewrite H1. vm_compute. reflexivity.
  + apply H3; [vm_compute; reflexivity | exact I].
Defined.

Section Maxima64.

Import Binary64 Leaderboard64 Spec64.

(** The two maxima: at least 1, at least the figure of every district, and
    1 or the figure of a district. *)
Lemma maxima_spec (f : DistrictData -> number) (g : Entry -> number)
    (districts : list Doc) :
  (forall mp me data i, g (add_rank (make_entry mp me data) i) = or_zero (f data)) ->
  let m := Math_max (map (fun d => or_zero (f d)) (all_data districts)) (Finite 1) in
  leb (Finite 1) m = true
  /\ (forall e, In e (rank_all districts) -> leb (g e) m = true)
  /\ (m = Finite 1 \/ exists e, In e (rank_all districts) /\ g e = m).
Proof.
intros Hg m.
destruct (Math_max64_spec (map (fun d => or_zero (f d)) (all_data districts)) (Finite 1))
  as [_ [C [U A]]].
- discriminate.
- intros x Hx. apply in_map_iff in Hx. destruct Hx as [d [<- _]]. apply or_zero_not_NaN.
- fold m in C, U, A. split; [exact C|]. split.
  + intros e He. destruct (rank_all64_origin _ _ He) as [data [i [Hd ->]]].
    rewrite Hg. apply U. apply in_map_iff. exists data. split; [reflexivity | exact Hd].
  + destruct A as [A|A]; [now left | right].
    apply in_map_iff in A. destruct A as [data [E Hd]].
    destruct (rank_all64_covers _ _ Hd) as [i Hi].
    eexists. split; [exact Hi|]. now rewrite Hg.
Qed.

End Maxima64.

(** C2, the claim as it is written, fails: every operation of the formula
    is rounded as it is made. With 3 of 32 person-days and no expenditure,
    3 / 32 * 0.6 * 100 * 100 comes to a number just under 562.5, so the
    score is the number written 5.62; the formula gives 5.625, which round2
    makes 5.63. *)
Lemma score_is_not_the_exact_formula :
  let e := Spec64.entry_at 1 Spec64.three_of_thirty_two in
  Leaderboard64.e_district e = "A"%string
  /\ Spec64.personDays e = Binary64.Finite 3
  /\ Spec64.expenditure e = Binary64.Finite 0
  /\ Spec64.maxPersonDays Spec64.three_of_thirty_two = Binary64.Finite 32
  /\ Spec64.maxExpenditure Spec64.three_of_thirty_two = Binary64.Finite 1
  /\ Leaderboard64.score e = Binary64.literal (562 # 100)
  /\ (LeaderboardSpec.round2 ((3 / 32 * (6 # 10) + 0 / 1 * (4 # 10)) * 100) == 563 # 100)%Q
  /\ Leaderboard64.score e <> Binary64.literal (563 # 100).
Proof. vm_compute. repeat split; discriminate. Qed.

(** C2 (amended): the score of every district is
    round2((totalPersonDays / maxPersonDays * 0.6
            + totalExpenditure / maxExpenditure * 0.4) * 100)
    computed in binary64, every operation rounded as it is made in the
    order of the program, round2(x) being Math.round(x * 100) / 100. The
    two maxima are taken over all districts and raised to 1 when they are
    smaller. A district that has both maxima, these being finite, scores
    100; and with records that hold no negative number and finite maxima
    every score lies between 0 and 100. *)
Theorem score_in_binary64 (db : list Leaderboard64.Doc) (e : Leaderboard64.Entry) :
  In e (Leaderboard64.leaderboard (Leaderboard64.getMaharashtraLeaderboard db)) ->
  let lb := Leaderboard64.leaderboard (Leaderboard64.getMaharashtraLeaderboard db) in
  let maxPersonDays := Spec64.maxPersonDays db in
  let maxExpenditure := Spec64.maxExpenditure db in
  (Binary64.leb (Binary64.Finite 1) maxPersonDays = true
   /\ (forall x, In x lb -> Binary64.leb (Spec64.personDays x) maxPersonDays = true)
   /\ (maxPersonDays = Binary64.Finite 1
       \/ exists x, In x lb /\ Spec64.personDays x = maxPersonDays))
  /\ (Binary64.leb (Binary64.Finite 1) maxExpenditure = true
      /\ (forall x, In x lb -> Binary64.leb (Spec64.expenditure x) maxExpenditure = true)
      /\ (maxExpenditure = Binary64.Finite 1
          \/ exists x, In x lb /\ Spec64.expenditure x = maxExpenditure))
  /\ Leaderboard64.score e
     = Spec64.score_of (Spec64.personDays e) (Spec64.expenditure e)
                       maxPersonDays maxExpenditure
  /\ (Binary64.finite maxPersonDays -> Binary64.finite maxExpenditure ->
      Spec64.personDays e = maxPersonDays -> Spec64.expenditure e = maxExpenditure ->
      Leaderboard64.score e = Binary64.Finite 100)
  /\ (forallb Spec64.non_negative db = true ->
      Binary64.finite maxPersonDays -> Binary64.finite maxExpenditure ->
      exists q, Leaderboard64.score e = Binary64.Finite q /\ (0 <= q /\ q <= 100)%Q).
Proof.
intros He. cbn zeta. rewrite leaderboard64_selected in *.
unfold Spec64.maxPersonDays, Spec64.maxExpenditure.
set (docs := Spec64.selected db) in *.
pose proof (maxima_spec Leaderboard64.totalPersonDays Spec64.personDays docs
              (fun _ _ _ _ => eq_refl)) as HP.
pose proof (maxima_spec Leaderboard64.totalExpenditure Spec64.expenditure docs
              (fun _ _ _ _ => eq_refl)) as HE.
cbn zeta in HP, HE.
fold (Leaderboard64.maxPersonDays_of (Leaderboard64.all_data docs)) in HP.
fold (Leaderboard64.maxExpenditure_of (Leaderboard64.all_data docs)) in HE.
set (MP := Leaderboard64.maxPersonDays_of (Leaderboard64.all_data docs)) in *.
set (ME := Leaderboard64.maxExpenditure_of (Leaderboard64.all_data docs)) in *.
split; [exact HP|]. split; [exact HE|].
destruct HP as [P1 [PU _]]. destruct HE as [E1 [EU _]].
specialize (PU e He). specialize (EU e He).
destruct (rank_all64_origin _ _ He) as [data [i [Hd ->]]].
fold MP ME in PU, EU |- *.
assert (Hscore :
  Leaderboard64.score
    (Leaderboard64.add_rank (Leaderboard64.make_entry MP ME data) i)
  = Spec64.score_of (Binary64.or_zero (Leaderboard64.totalPersonDays data))
                    (Binary64.or_zero (Leaderboard64.totalExpenditure data)) MP ME).
{ cbn [Leaderboard64.score Leaderboard64.add_rank Leaderboard64.make_entry].
  unfold Leaderboard64.calculatePerformanceScore.
  now rewrite (leb_one_positive _ P1), (leb_one_positive _ E1). }
unfold Spec64.personDays, Spec64.expenditure in *.
cbn [Leaderboard64.metrics Leaderboard64.m_totalPersonDays Leaderboard64.m_totalExpenditure
     Leaderboard64.add_rank Leaderboard64.make_entry] in *.
rewrite Hscore. clear Hscore.
set (p := Binary64.or_zero (Leaderboard64.totalPersonDays data)) in *.
set (x := Binary64.or_zero (Leaderboard64.totalExpenditure data)) in *.
split; [reflexivity|]. split.
- intros FP FE -> ->. unfold Spec64.score_of.
  destruct MP as [M| |]; [|contradiction|contradiction].
  destruct ME as [N| |]; [|contradiction|contradiction].
  apply leb_finite in P1, E1. cbn [Binary64.div].
  assert (ZM : Qeq_bool M 0 = false).
  { destruct (Qeq_bool M 0) eqn:Z; [|reflexivity]. apply Qeq_bool_eq in Z. lra. }
  assert (ZN : Qeq_bool N 0 = false).
  { destruct (Qeq_bool N 0) eqn:Z; [|reflexivity]. apply Qeq_bool_eq in Z. lra. }
  rewrite ZM, ZN.
  rewrite (round64_compat (M / M) 1), (round64_compat (N / N) 1);
    [vm_compute; reflexivity | field; lra | field; lra].
- intros Hdb FP FE. unfold Spec64.score_of.
  destruct (all_data64_totals db data Hdb Hd) as [[Hp _] [[Hx _] _]].
  apply or_zero_nonneg in Hp, Hx. fold p in Hp. fold x in Hx.
  destruct MP as [M| |]; [|contradiction|contradiction].
  destruct ME as [N| |]; [|contradiction|contradiction].
  destruct p as [a|s|]; [|cbn in Hp, PU; subst; discriminate|contradiction].
  destruct x as [b|s|]; [|cbn in Hx, EU; subst; discriminate|contradiction].
  apply leb_finite in P1, E1, PU, EU. cbn in Hp, Hx.
  destruct (share_in_unit64 a M Hp PU ltac:(lra)) as [r1 [R1 [A0 A1]]].
  destruct (share_in_unit64 b N Hx EU ltac:(lra)) as [r2 [R2 [B0 B1]]].
  rewrite R1, R2. now apply score_in_range.
Qed.

(** District B of the two districts scores 70. *)
Lemma score_in_binary64_witness :
  let e := Spec64.entry_at 0 Spec64.two_districts in
  Leaderboard64.e_district e = "B"%string
  /\ Leaderboard64.score e = Binary64.Finite 70
  /\ exists q, Leaderboard64.score e = Binary64.Finite q /\ (0 <= q /\ q <= 100)%Q.
Proof.
cbn zeta.
destruct (score_in_binary64 Spec64.two_districts
            (Spec64.entry_at 0 Spec64.two_districts)) as [_ [_ [H1 [_ H3]]]].
- vm_compute. left. reflexivity.
- split; [reflexivity|]. split.
  + rewrite H1. vm_compute. reflexivity.
  + apply H3; [vm_compute; reflexivity | exact I | exact I].
Defined.

Section ScoreFacts.

Import JsNumber JsArray Leaderboard LeaderboardSpec.
Local Open Scope Q_scope.

(** The greatest person-days found by the service among the data of the
    districts is the greatest person-days shown by the leaderboard. *)
Lemma maxPersonDays_of_leaderboard (districts : list Doc) :
  maxPersonDays_of (all_data districts)
  == Math_max (map (fun e => m_totalPersonDays (metrics e)) (rank_all districts)) 1.
Proof.
unfold maxPersonDays_of. apply Math_max_same_values.
- intros x Hx. apply in_map_iff in Hx. destruct Hx as [data [<- Hd]].
  destruct (rank_all_covers _ _ Hd) as [i Hi].
  eexists. split.
  + apply in_map_iff. eexists. split; [reflexivity | exact Hi].
  + cbn. apply or_zero_eq.
- intros y Hy. apply in_map_iff in Hy. destruct Hy as [e [<- He]].
  destruct (rank_all_origin _ _ He) as [data [i [Hd ->]]].
  exists (or_zero (totalPersonDays data)). split.
  + apply in_map_iff. exists data. split; [reflexivity | exact Hd].
  + cbn. symmetry. apply or_zero_eq.
Qed.

Lemma maxExpenditure_of_leaderboard (districts : list Doc) :
  maxExpenditure_of (all_data districts)
  == Math_max (map (fun e => m_totalExpenditure (metrics e)) (rank_all districts)) 1.
Proof.
unfold maxExpenditure_of. apply Math_max_same_values.
- intros x Hx. apply in_map_iff in Hx. destruct Hx as [data [<- Hd]].
  destruct (rank_all_covers _ _ Hd) as [i Hi].
  eexists. split.
  + apply in_map_iff. eexists. split; [reflexivity | exact Hi].
  + cbn. apply or_zero_eq.
- intros y Hy. apply in_map_iff in Hy. destruct Hy as [e [<- He]].
  destruct (rank_all_origin _ _ He) as [data [i [Hd ->]]].
  exists (or_zero (totalExpenditure data)). split.
  + apply in_map_iff. exists data. split; [reflexivity | exact Hd].
  + cbn. symmetry. apply or_zero_eq.
Qed.

(** The score computed with maxima that are at least 1. *)
Lemma score_value (data : DistrictData) (maxP maxE : Q) :
  1 <= maxP -> 1 <= maxE ->
  calculatePerformanceScore (Some data) maxP maxE
  = Math_round ((or_zero (totalPersonDays data) / maxP * (6 # 10)
                 + or_zero (totalExpenditure data) / maxE * (4 # 10)) * 100 * 100) / 100.
Proof.
intros HP HE. unfold calculatePerformanceScore.
assert (EP : Qltb 0 maxP = true) by (apply Qltb_true; lra).
assert (EE : Qltb 0 maxE = true) by (apply Qltb_true; lra).
now rewrite EP, EE.
Qed.

Lemma share_in_unit (x m : Q) : 0 <= x -> x <= m -> 1 <= m -> 0 <= x / m /\ x / m <= 1.
Proof.
intros H0 Hm H1. split.
- apply Qle_shift_div_l; lra.
- apply Qle_shift_div_r; lra.
Qed.

End ScoreFacts.


(** * Queries by category *)

Section CategoryFacts.

Import JsNumber JsArray Leaderboard LeaderboardSpec.

(** The category shown by an entry is the label that the thresholds give to
    its score. *)
Lemma entry_category (districts : list Doc) (e : Entry) :
  In e (rank_all districts) -> category e = label (getPerformanceCategory (score e)).
Proof.
intros He. destruct (rank_all_origin _ _ He) as [data [i [_ ->]]]. reflexivity.
Qed.

Lemma label_cases (s : Q) :
  In (label (getPerformanceCategory s))
     [label EXCELLENT; label GOOD; label AVERAGE; label NEEDS_IMPROVEMENT].
Proof.
unfold getPerformanceCategory.
destruct (Qle_bool 80 s); [now left|].
destruct (Qle_bool 60 s); [right; now left|].
destruct (Qle_bool 40 s); [right; right; now left | right; right; right; now left].
Qed.

(** No label is one of the English names, whatever the case. *)
Lemma labels_are_not_english :
  forallb (fun l =>
    forallb (fun name => negb (String.eqb (toLowerCase l) (toLowerCase name)))
            ["Excellent"; "Good"; "Average"; "NeedsImprovement"]%string)
    [label EXCELLENT; label GOOD; label AVERAGE; label NEEDS_IMPROVEMENT] = true.
Proof. vm_compute. reflexivity. Qed.

End CategoryFacts.

(** C9: the program at the failing input. [getPerformanceCategory] builds
    the English name of the class in [labelEn], but an entry keeps in
    [category] the Marathi label with its emoji, and it is this label that
    [getDistrictsByCategory] compares with the requested name. The only
    district of the collection scores 100, so its class is Excellent;
    asking for Excellent returns nothing. *)
Lemma excellent_is_not_found :
  let e := LeaderboardScenarios.entry_at 0 LeaderboardScenarios.uneven_wages in
  Leaderboard.leaderboard
    (Leaderboard.getMaharashtraLeaderboard LeaderboardScenarios.uneven_wages) = [e]
  /\ (Leaderboard.score e == 100)%Q
  /\ Leaderboard.labelEn (Leaderboard.getPerformanceCategory (Leaderboard.score e))
     = "Excellent"%string
  /\ Leaderboard.getDistrictsByCategory LeaderboardScenarios.uneven_wages "Excellent" = [].
Proof. vm_compute. repeat split. Qed.

(** The same on every collection: [getDistrictsByCategory] keeps the
    entries whose label, the Marathi label given by the thresholds 80, 60
    and 40 to the score, equals the requested text when both are put in
    lower case, so that none of the names Excellent, Good, Average and
    NeedsImprovement ever finds an entry. *)
Theorem getDistrictsByCategory_filters_labels (db : list Leaderboard.Doc) :
  (forall requested,
      Leaderboard.getDistrictsByCategory db requested
      = filter (fun e =>
                  String.eqb
                    (toLowerCase (Leaderboard.label
                                    (Leaderboard.getPerformanceCategory (Leaderboard.score e))))
                    (toLowerCase requested))
               (Leaderboard.leaderboard (Leaderboard.getMaharashtraLeaderboard db)))
  /\ Forall (fun name => Leaderboard.getDistrictsByCategory db name = [])
            ["Excellent"; "Good"; "Average"; "NeedsImprovement"]%string.
Proof.
assert (Hfilter : forall requested,
  Leaderboard.getDistrictsByCategory db requested
  = filter (fun e =>
              String.eqb
                (toLowerCase (Leaderboard.label
                                (Leaderboard.getPerformanceCategory (Leaderboard.score e))))
                (toLowerCase requested))
           (Leaderboard.leaderboard (Leaderboard.getMaharashtraLeaderboard db))).
{ intros requested. unfold Leaderboard.getDistrictsByCategory.
  destruct (Leaderboard.success (Leaderboard.getMaharashtraLeaderboard db)) eqn:Es;
    cbn [negb].
  - apply filter_ext_in. intros e He. rewrite leaderboard_selected in He.
    now rewrite (entry_category _ _ He).
  - unfold Leaderboard.getMaharashtraLeaderboard in *.
    destruct (Leaderboard.latestYear db); [discriminate | reflexivity]. }
split; [exact Hfilter|].
rewrite Forall_forall. intros name Hname. rewrite Hfilter.
apply filter_none. intros e _.
pose proof labels_are_not_english as H. rewrite forallb_forall in H.
specialize (H _ (label_cases (Leaderboard.score e))).
rewrite forallb_forall in H. specialize (H name Hname).
now apply negb_true_iff in H.
Qed.

(** * Further properties of district names *)

Section NameFacts.

Lemma dropWhile_upper (l : chars) :
  dropWhile is_space (upper_chars l) = upper_chars (dropWhile is_space l).
Proof.
induction l as [|c l IH]; simpl; [reflexivity|].
rewrite is_space_upper_char. destruct (is_space c); [exact IH | reflexivity].
Qed.

(** Trimming and putting in upper case can be done in either order. *)
Lemma trim_upper (l : chars) : trim_chars (upper_chars l) = upper_chars (trim_chars l).
Proof.
unfold trim_chars, trimEnd, trimStart, upper_chars.
rewrite dropWhile_upper. unfold upper_chars.
rewrite <- map_rev, dropWhile_upper. unfold upper_chars. now rewrite map_rev.
Qed.

Lemma trim_chars_idem (l : chars) : trim_chars (trim_chars l) = trim_chars l.
Proof. apply trim_chars_fixed; [apply trim_chars_start | apply trim_chars_end]. Qed.

Lemma truthy_explode (x : string) : truthy (Some x) = negb (match explode x with [] => true | _ => false end).
Proof. destruct x; reflexivity. Qed.

Lemma settled_text (l : chars) :
  settled l -> trim (implode l) = implode l /\ toUpperCase (implode l) = implode l.
Proof.
intros [Hs He Hu]. unfold trim, toUpperCase. rewrite explode_implode.
now rewrite (trim_chars_fixed _ Hs He), Hu.
Qed.

Lemma table_values_settled :
  Forall (fun v => settled (explode v)) (map snd MAHARASHTRA_DISTRICT_MAP).
Proof. repeat constructor. Qed.

(** Whatever [normalizeDistrictName] returns is settled. *)
Lemma normalized_settled (d : option string) (y : string) :
  normalizeDistrictName d = Some y -> settled (explode y).
Proof.
unfold normalizeDistrictName. destruct (truthy d); cbn [negb]; [|discriminate].
destruct d as [x|]; [|discriminate]. unfold or_else.
destruct (lookup MAHARASHTRA_DISTRICT_MAP (normalized_key x)) as [v|] eqn:Hl.
- apply lookup_in_values in Hl.
  pose proof table_values_fixed as Hfix. rewrite Forall_forall in Hfix.
  pose proof table_values_settled as Hset. rewrite Forall_forall in Hset.
  destruct (Hfix v Hl) as [Hv _]. rewrite Hv. intros [= <-]. now apply Hset.
- cbn [truthy]. intros [= <-]. apply normalized_key_settled.
Qed.

Lemma normalized_not_null (d : option string) :
  truthy d = true -> exists y, normalizeDistrictName d = Some y.
Proof.
intros Hd. unfold normalizeDistrictName. rewrite Hd. cbn [negb].
destruct d as [x|]; [|discriminate]. unfold or_else.
destruct (lookup MAHARASHTRA_DISTRICT_MAP (normalized_key x)) as [v|] eqn:Hl.
- apply lookup_in_values in Hl.
  pose proof table_values_fixed as Hfix. rewrite Forall_forall in Hfix.
  destruct (Hfix v Hl) as [Hv _]. rewrite Hv. now exists v.
- cbn [truthy]. now eexists.
Qed.

(** The key looked up depends on the name in upper case only. *)
Lemma normalized_key_upper (x : string) :
  normalized_key x = implode (strip_suffixes (trim_chars (upper_chars (explode x)))).
Proof. unfold normalized_key. now rewrite trim_upper. Qed.

Lemma upper_chars_nil (l : chars) : upper_chars l = [] <-> l = [].
Proof. destruct l; simpl; split; intros H; try reflexivity; discriminate. Qed.

Lemma implode_inj (l m : chars) : implode l = implode m -> l = m.
Proof. intros H. rewrite <- (explode_implode l), <- (explode_implode m). now rewrite H. Qed.

End NameFacts.

(** X1: [normalizeDistrictName] answers [null] exactly when the name is
    [null] or empty; every name it returns has no white space at either
    end and no lower-case letter. *)
Theorem normalizeDistrictName_output (d : option string) :
  (normalizeDistrictName d = None <-> truthy d = false)
  /\ (forall y, normalizeDistrictName d = Some y ->
                trim y = y /\ toUpperCase y = y).
Proof.
split.
- split.
  + intros H. destruct (truthy d) eqn:E; [|reflexivity].
    destruct (normalized_not_null d E) as [y Hy]. congruence.
  + intros H. unfold normalizeDistrictName. now rewrite H.
- intros y Hy. apply normalized_settled in Hy.
  rewrite <- (implode_explode y). now apply settled_text.
Qed.

(** X2: two names that differ by the case of their letters only are
    normalised to the same name. *)
Theorem normalizeDistrictName_ignores_case (x y : string) :
  toUpperCase x = toUpperCase y ->
  normalizeDistrictName (Some x) = normalizeDistrictName (Some y).
Proof.
intros H. unfold toUpperCase in H. apply implode_inj in H.
assert (Ht : truthy (Some x) = truthy (Some y)).
{ rewrite !truthy_explode. f_equal.
  destruct (explode x) as [|a l], (explode y) as [|b m]; try reflexivity; discriminate. }
unfold normalizeDistrictName. rewrite Ht.
destruct (truthy (Some y)); cbn [negb]; [|reflexivity].
now rewrite !normalized_key_upper, H.
Qed.

(** Pune in two spellings. *)
Lemma normalizeDistrictName_ignores_case_witness :
  normalizeDistrictName (Some "pune district"%string)
  = normalizeDistrictName (Some "Pune DISTRICT"%string).
Proof.
apply normalizeDistrictName_ignores_case. reflexivity.
Defined.

(** X3: white space around a name that is not blank does not change what
    it is normalised to. *)
Theorem normalizeDistrictName_ignores_margins (x : string) :
  trim x <> ""%string ->
  normalizeDistrictName (Some x) = normalizeDistrictName (Some (trim x)).
Proof.
intros Hne.
assert (Hx : truthy (Some x) = true).
{ destruct x; [exfalso; apply Hne; reflexivity | reflexivity]. }
assert (Ht : truthy (Some (trim x)) = true).
{ cbn [truthy]. destruct (String.eqb_spec (trim x) ""); [contradiction | reflexivity]. }
unfold normalizeDistrictName. rewrite Hx, Ht. cbn [negb].
unfold normalized_key, trim. now rewrite explode_implode, trim_chars_idem.
Qed.

Lemma normalizeDistrictName_ignores_margins_witness :
  normalizeDistrictName (Some "  Osmanabad "%string) = Some "DHARASHIV"%string.
Proof.
rewrite (normalizeDistrictName_ignores_margins "  Osmanabad "%string).
- reflexivity.
- vm_compute. discriminate.
Defined.

(** A former name with white space around it. *)
Lemma normalizeDistrictName_output_witness :
  normalizeDistrictName (Some " Aurangabad District "%string)
    = Some "CHATRAPATI SAMBHAJI NAGAR"%string
  /\ trim "CHATRAPATI SAMBHAJI NAGAR" = "CHATRAPATI SAMBHAJI NAGAR"%string
  /\ toUpperCase "CHATRAPATI SAMBHAJI NAGAR" = "CHATRAPATI SAMBHAJI NAGAR"%string.
Proof.
split; [reflexivity|].
apply (proj2 (normalizeDistrictName_output (Some " Aurangabad District "%string))).
reflexivity.
Defined.

(** * Further properties of the chain *)

Section ChainMore.

Import Geo Order.

Lemma first_split {A} (f : A -> bool) (l : list A) :
  existsb f l = true ->
  exists pre p post, l = pre ++ p :: post /\ existsb f pre = false /\ f p = true.
Proof.
induction l as [|x l IH]; simpl; [discriminate|].
destruct (f x) eqn:E; simpl.
- intros _. exists [], x, l. repeat split. exact E.
- intros H. destruct (IH H) as [pre [p [post [-> [Hpre Hp]]]]].
  exists (x :: pre), p, post. repeat split; simpl; [now rewrite E | exact Hp].
Qed.

(** What a call of [getLiveDistrict] comes to: either no provider yields
    enough and it throws, or the first that does is returned. *)
Lemma chain_result (w : World) (lat lon : Q) :
  (existsb yields_sufficient (providers w lat lon) = false
   /\ getLiveDistrict w lat lon no_trail
      = (Throw ALL_FAILED,
         {| errors := thrown (providers w lat lon);
            requests := asked (providers w lat lon) |}))
  \/ (exists pre p post r,
        providers w lat lon = pre ++ p :: post
        /\ existsb yields_sufficient pre = false
        /\ is_configured p = true /\ outcome p = Return r /\ sufficient r = true
        /\ getLiveDistrict w lat lon no_trail
           = (Return r, {| errors := thrown pre; requests := asked pre ++ [api p] |})).
Proof.
destruct (existsb yields_sufficient (providers w lat lon)) eqn:E.
- right. destruct (first_split _ _ E) as [pre [p [post [Hps [Hpre Hp]]]]].
  unfold yields_sufficient in Hp. apply andb_true_iff in Hp. destruct Hp as [Hc Ho].
  destruct (outcome p) as [r|m] eqn:Hout; [|discriminate].
  exists pre, p, post, r. repeat split; auto.
  rewrite getLiveDistrict_is_chain, Hps. apply chain_found; auto.
  + intros q Hq. apply (providers_one_request w lat lon). rewrite Hps.
    apply in_app_or in Hq. apply in_or_app.
    destruct Hq as [Hq|[<-|[]]]; [now left | right; apply in_eq].
  + apply existsb_none. exact Hpre.
- left. split; [reflexivity|].
  rewrite getLiveDistrict_is_chain. apply chain_exhausted.
  + apply providers_one_request.
  + apply existsb_none. exact E.
Qed.

(** What each adapter puts in the result it returns. *)
Lemma provider_outcome (w : World) (lat lon : Q) (p : Provider) (r : GeocodeResult) :
  In p (providers w lat lon) -> outcome p = Return r ->
  source r = api p /\ coordinates r = (lat, lon)
  /\ ((sufficient r = true /\ exists d, district r = normalizeDistrictName d)
      \/ exists d, text_or_null d
                   /\ district r = normalize_for_maharashtra (state r) d).
Proof.
intros [<-|[<-|[<-|[<-|[]]]]]; unfold outcome; cbn [call api];
  unfold reverseGeocodeGoogle, reverseGeocodeMapMyIndia,
         reverseGeocodeGeoapify, reverseGeocodeLocationIQ;
  match goal with |- context [negb ?c] => destruct c end; cbn [negb];
  unfold bind, axios_get, ret, throw; cbn [fst]; try discriminate.
- destruct (http_google w) as [[d|]|]; try discriminate.
  destruct (g_results d) as [[|first others]|]; try discriminate.
  destruct (opt_eqb (status d) (Some "OK"%string)); try discriminate.
  destruct (negb (truthy (c_state _))) eqn:E1; try discriminate.
  destruct (negb (truthy (normalizeDistrictName _))) eqn:E2; try discriminate.
  cbn [orb fst]. intros [= <-]. cbn [source coordinates district state].
  repeat split. left. split.
  + unfold sufficient. cbn [district state].
    apply negb_false_iff in E1. apply negb_false_iff in E2. now rewrite E1, E2.
  + eexists. reflexivity.
- destruct (http_mapmyindia w) as [[d|]|]; try discriminate.
  destruct (responseCode d) as [[|[]|]|]; try discriminate.
  all: repeat match goal with
              | |- context [match ?x with _ => _ end] => destruct x; try discriminate
              end.
  cbn [fst]. intros [= <-]. repeat split. right.
  eexists. split; [apply mapmyindia_district_text | reflexivity].
- destruct (http_geoapify w) as [[[[[|x rs]|]]|]|]; try discriminate.
  cbn [fst]. intros [= <-]. repeat split. right.
  eexists. split; [apply geoapify_district_text | reflexivity].
- destruct (http_locationiq w) as [[d|]|]; try discriminate.
  cbn [fst]. intros [= <-]. repeat split. right.
  eexists. split; [apply locationiq_district_text | reflexivity].
Qed.

Lemma sublist_refl {A} (l : list A) : sublist l l.
Proof. induction l; constructor; assumption. Qed.

Lemma sublist_nil_l {A} (l : list A) : sublist [] l.
Proof. induction l; constructor; assumption. Qed.

Lemma sublist_app {A} (l1 m1 l2 m2 : list A) :
  sublist l1 m1 -> sublist l2 m2 -> sublist (l1 ++ l2) (m1 ++ m2).
Proof.
intros H1 H2. induction H1; simpl; [exact H2 | |]; constructor; assumption.
Qed.

Lemma sublist_map_filter {A B} (f : A -> B) (g : A -> bool) (l : list A) :
  sublist (map f (filter g l)) (map f l).
Proof.
induction l as [|x l IH]; simpl; [constructor|].
destruct (g x); simpl; constructor; assumption.
Qed.

Lemma sublist_in {A} (l m : list A) (x : A) : sublist l m -> In x l -> In x m.
Proof.
intros H. induction H; simpl; [tauto | tauto |].
intros [->|Hx]; [now left | right; auto].
Qed.

Lemma sublist_NoDup {A} (l m : list A) : sublist l m -> NoDup m -> NoDup l.
Proof.
intros H. induction H; intros Hm; [constructor | |].
- inversion Hm; auto.
- inversion Hm as [|? ? Hx Hm']; subst. constructor; [|auto].
  intros Hin. apply Hx. eapply sublist_in; eauto.
Qed.

Lemma asked_sublist (pre post : list Provider) (p : Provider) :
  is_configured p = true ->
  sublist (asked pre ++ [api p]) (map api (pre ++ p :: post)).
Proof.
intros Hc. rewrite map_app. apply sublist_app.
- apply sublist_map_filter.
- simpl. apply sublist_keep, sublist_nil_l.
Qed.

Lemma thrown_sublist (ps : list Provider) : sublist (map fst (thrown ps)) (asked ps).
Proof.
unfold thrown, asked. induction ps as [|p ps IH]; simpl; [constructor|].
destruct (is_configured p); simpl; [|exact IH].
destruct (outcome p); simpl; constructor; exact IH.
Qed.

Lemma sublist_snoc {A} (l m : list A) (x : A) : sublist l m -> sublist l (m ++ [x]).
Proof.
intros H. rewrite <- (app_nil_r l). apply sublist_app; [exact H|].
apply sublist_skip, sublist_nil.
Qed.

Lemma nothing_asked (ps : list Provider) :
  (forall q, In q ps -> is_configured q = false) -> thrown ps = [] /\ asked ps = [].
Proof.
unfold thrown, asked. induction ps as [|q ps IH]; intros H; [split; reflexivity|].
simpl. rewrite (H q (or_introl eq_refl)). simpl.
apply IH. intros x Hx. apply H. now right.
Qed.

End ChainMore.

(** X4: a result returned by the adapter of Google always has a state, and
    its district is a name normalised by [normalizeDistrictName] whatever
    the state: not empty, without white space at either end and without
    lower-case letters; the call has issued one request. *)
Theorem google_results_are_complete
    (w : Geo.World) (lat lon : Q) (t t' : Geo.Trail) (r : Geo.GeocodeResult) :
  Geo.reverseGeocodeGoogle w lat lon t = (Return r, t') ->
  truthy (Geo.state r) = true
  /\ (exists y, Geo.district r = Some y /\ y <> ""%string
                /\ trim y = y /\ toUpperCase y = y)
  /\ Geo.requests t' = Geo.requests t ++ ["Google"%string].
Proof.
unfold Geo.reverseGeocodeGoogle.
destruct (negb (Geo.configured (Geo.GOOGLE_API_KEY w) "YOUR_GOOGLE_API_KEY_HERE"));
  [discriminate|].
unfold Geo.bind, Geo.axios_get, Geo.ret, Geo.throw.
destruct (Geo.http_google w) as [[x|]|]; try discriminate.
destruct (Geo.g_results x) as [[|first others]|]; try discriminate.
destruct (Geo.opt_eqb (Geo.status x) (Some "OK"%string)); try discriminate.
destruct (negb (truthy (Geo.c_state _)) || negb (truthy (normalizeDistrictName _))) eqn:E;
  try discriminate.
intros [= <- <-]. cbn [Geo.district Geo.state Geo.requests].
apply orb_false_iff in E. destruct E as [E1 E2].
apply negb_false_iff in E1. apply negb_false_iff in E2.
split; [exact E1|]. split; [|reflexivity].
destruct (normalizeDistrictName _) as [y|] eqn:Ey; [|discriminate].
exists y. split; [reflexivity|]. split.
- intros ->. discriminate.
- apply normalized_settled in Ey.
  rewrite <- (implode_explode y). now apply settled_text.
Qed.

(** The district Aurangabad of Bihar, as Google names it. *)
Lemma google_results_are_complete_witness :
  truthy (Some "Bihar"%string) = true
  /\ (exists y, Some "CHATRAPATI SAMBHAJI NAGAR"%string = Some y /\ y <> ""%string
                /\ trim y = y /\ toUpperCase y = y)
  /\ ["Google"%string] = [] ++ ["Google"%string].
Proof.
exact (google_results_are_complete Scenarios.bihar 0 0 Geo.no_trail _ _ eq_refl).
Defined.

(** X5: [getLiveDistrict] never returns a result without a state or without
    a district: in every result it returns both are non-empty texts. *)
Theorem getLiveDistrict_returns_only_sufficient
    (w : Geo.World) (lat lon : Q) (r : Geo.GeocodeResult) :
  fst (Geo.getLiveDistrict w lat lon Geo.no_trail) = Return r ->
  truthy (Geo.state r) = true /\ truthy (Geo.district r) = true.
Proof.
intros H.
destruct (chain_result w lat lon) as [[_ E]|[pre [p [post [r' [_ [_ [_ [_ [Hs E]]]]]]]]]];
  rewrite E in H; cbn [fst] in H; [discriminate|].
injection H as <-. unfold Geo.sufficient in Hs.
apply andb_true_iff in Hs. tauto.
Qed.

Lemma getLiveDistrict_returns_only_sufficient_witness :
  truthy (Some "Maharashtra"%string) = true
  /\ truthy (Some "CHATRAPATI SAMBHAJI NAGAR"%string) = true.
Proof.
exact (getLiveDistrict_returns_only_sufficient Scenarios.third_answers 0 0
         (Geo.geoapify_location Scenarios.aurangabad_by_geoapify 0 0) eq_refl).
Defined.

(** X6: the result returned by [getLiveDistrict] carries the coordinates of
    the call, and its [source] is the name of the provider that was asked
    last. *)
Theorem getLiveDistrict_provenance
    (w : Geo.World) (lat lon : Q) (r : Geo.GeocodeResult) (t : Geo.Trail) :
  Geo.getLiveDistrict w lat lon Geo.no_trail = (Return r, t) ->
  Geo.coordinates r = (lat, lon)
  /\ In (Geo.source r) Order.PRIORITY
  /\ exists before_it, Geo.requests t = before_it ++ [Geo.source r].
Proof.
intros H.
destruct (chain_result w lat lon) as [[_ E]|[pre [p [post [r' [Hps [_ [_ [Hout [_ E]]]]]]]]]];
  rewrite E in H; [discriminate|].
injection H as <- <-.
assert (Hin : In p (Geo.providers w lat lon)).
{ rewrite Hps. apply in_or_app. right. apply in_eq. }
destruct (provider_outcome w lat lon p r' Hin Hout) as [Hsrc [Hco _]].
split; [exact Hco|]. split.
- rewrite Hsrc. change Order.PRIORITY with (map Geo.api (Geo.providers w lat lon)).
  now apply in_map.
- exists (Geo.asked pre). cbn [Geo.requests]. now rewrite Hsrc.
Qed.

Lemma getLiveDistrict_provenance_witness :
  Geo.coordinates (Geo.geoapify_location Scenarios.aurangabad_by_geoapify 0 0) = (0, 0)%Q
  /\ In "Geoapify"%string Order.PRIORITY
  /\ exists before_it,
       ["MapmyIndia"; "Geoapify"]%string = before_it ++ ["Geoapify"%string].
Proof.
exact (getLiveDistrict_provenance Scenarios.third_answers 0 0 _ _ eq_refl).
Defined.

(** X7: the providers asked by a call of [getLiveDistrict] are some of
    Google, MapmyIndia, Geoapify, LocationIQ, in this order: none is asked
    twice and none before one of higher priority. *)
Theorem getLiveDistrict_asks_in_order (w : Geo.World) (lat lon : Q) :
  let asked := Geo.requests (snd (Geo.getLiveDistrict w lat lon Geo.no_trail)) in
  Order.sublist asked Order.PRIORITY /\ NoDup asked.
Proof.
cbn zeta.
assert (H : Order.sublist
              (Geo.requests (snd (Geo.getLiveDistrict w lat lon Geo.no_trail)))
              Order.PRIORITY).
{ change Order.PRIORITY with (map Geo.api (Geo.providers w lat lon)).
  destruct (chain_result w lat lon) as [[_ E]|[pre [p [post [r [Hps [_ [Hc [_ [_ E]]]]]]]]]];
    rewrite E; cbn [snd Geo.requests].
  - apply sublist_map_filter.
  - rewrite Hps. now apply asked_sublist. }
split; [exact H|].
apply (sublist_NoDup _ _ H). unfold Order.PRIORITY.
repeat constructor; simpl; intuition discriminate.
Qed.

(** X8: every entry of the list [errors] names a provider that was asked,
    and the entries are in the order in which the providers were asked. *)
Theorem getLiveDistrict_errors_follow_requests (w : Geo.World) (lat lon : Q) :
  let t := snd (Geo.getLiveDistrict w lat lon Geo.no_trail) in
  Order.sublist (map fst (Geo.errors t)) (Geo.requests t).
Proof.
cbn zeta.
destruct (chain_result w lat lon) as [[_ E]|[pre [p [post [r [_ [_ [_ [_ [_ E]]]]]]]]]];
  rewrite E; cbn [snd Geo.requests Geo.errors].
- apply thrown_sublist.
- apply sublist_snoc, thrown_sublist.
Qed.

(** X9: when no key is configured (each is missing, empty or the
    placeholder), [getLiveDistrict] throws at once: no request is issued
    and [errors] stays empty. *)
Theorem getLiveDistrict_without_keys (w : Geo.World) (lat lon : Q) :
  existsb Geo.is_configured (Geo.providers w lat lon) = false ->
  Geo.getLiveDistrict w lat lon Geo.no_trail = (Throw Geo.ALL_FAILED, Geo.no_trail).
Proof.
intros H. pose proof (existsb_none _ _ H) as Hnone.
destruct (chain_result w lat lon) as [[_ E]|[pre [p [post [r [Hps [_ [Hc _]]]]]]]].
- rewrite E. destruct (nothing_asked _ Hnone) as [-> ->]. reflexivity.
- rewrite Hnone in Hc; [discriminate|].
  rewrite Hps. apply in_or_app. right. apply in_eq.
Qed.

Lemma getLiveDistrict_without_keys_witness :
  Geo.getLiveDistrict MoreScenarios.no_keys 0 0 Geo.no_trail
  = (Throw Geo.ALL_FAILED, Geo.no_trail).
Proof.
exact (getLiveDistrict_without_keys MoreScenarios.no_keys 0 0 eq_refl).
Defined.

(** X10: when the result returned by [getLiveDistrict] is in Maharashtra
    ([isInMaharashtra]), its district is a name normalised by
    [normalizeDistrictName]: not empty, without white space at either end
    and without lower-case letters. *)
Theorem maharashtra_results_are_normalized
    (w : Geo.World) (lat lon : Q) (r : Geo.GeocodeResult) :
  fst (Geo.getLiveDistrict w lat lon Geo.no_trail) = Return r ->
  Geo.isInMaharashtra (Some r) = true ->
  exists y, Geo.district r = Some y /\ y <> ""%string
            /\ trim y = y /\ toUpperCase y = y.
Proof.
intros H Hm. cbn [Geo.isInMaharashtra] in Hm.
destruct (chain_result w lat lon) as [[_ E]|[pre [p [post [r' [Hps [_ [_ [Hout [Hs E]]]]]]]]]];
  rewrite E in H; cbn [fst] in H; [discriminate|].
injection H as <-.
assert (Hin : In p (Geo.providers w lat lon)).
{ rewrite Hps. apply in_or_app. right. apply in_eq. }
unfold Geo.sufficient in Hs. apply andb_true_iff in Hs. destruct Hs as [Hd _].
assert (Hnorm : exists d, Geo.district r' = normalizeDistrictName d).
{ destruct (provider_outcome w lat lon p r' Hin Hout) as [_ [_ [[_ Hx]|[d [_ Hx]]]]];
    [exact Hx|].
  exists d. rewrite Hx in *.
  unfold Geo.normalize_for_maharashtra, Geo.maharashtra_with_district in *.
  rewrite Hm in *. cbn [andb] in *.
  destruct (truthy d) eqn:Ed; [reflexivity | congruence]. }
destruct Hnorm as [d Hx].
destruct (Geo.district r') as [y|] eqn:Ey; [|discriminate].
exists y. split; [reflexivity|]. split.
- intros ->. discriminate.
- symmetry in Hx. apply normalized_settled in Hx.
  rewrite <- (implode_explode y). now apply settled_text.
Qed.

Lemma maharashtra_results_are_normalized_witness :
  exists y, Some "CHATRAPATI SAMBHAJI NAGAR"%string = Some y /\ y <> ""%string
            /\ trim y = y /\ toUpperCase y = y.
Proof.
exact (maharashtra_results_are_normalized Scenarios.third_answers 0 0
         (Geo.geoapify_location Scenarios.aurangabad_by_geoapify 0 0)
         eq_refl eq_refl).
Defined.

(** * The route of geolocation *)

(** X11: the handler of [POST /api/geolocation] answers with status 400,
    without asking any provider, when the latitude or the longitude is
    missing or is 0 (the test is [!latitude || !longitude]), when the
    latitude is outside [-90, 90] or when the longitude is outside
    [-180, 180]. *)
Theorem geolocation_rejects (w : Geo.World) (latitude longitude : option Q) :
  (Routes.given latitude = false \/ Routes.given longitude = false
   \/ (exists lat, latitude = Some lat /\ (lat < -90 \/ 90 < lat))
   \/ (exists lon, longitude = Some lon /\ (lon < -180 \/ 180 < lon)))%Q ->
  exists error message,
    Routes.geolocation w latitude longitude
    = (Routes.BadRequest error message, Geo.no_trail).
Proof.
intros H. unfold Routes.geolocation.
destruct (Routes.given latitude) eqn:Ela; cbn [negb orb]; [|eauto].
destruct (Routes.given longitude) eqn:Elo; cbn [negb orb]; [|eauto].
destruct latitude as [lat|]; [|discriminate].
destruct longitude as [lon|]; [|discriminate].
destruct H as [H|[H|[[x [[= <-] H]]|[x [[= <-] H]]]]]; try discriminate.
- assert (E : JsNumber.Qltb lat (-90) || JsNumber.Qltb 90 lat = true).
  { apply orb_true_iff. destruct H as [H|H]; [left | right]; now apply Qltb_true. }
  rewrite E. eauto.
- destruct (JsNumber.Qltb lat (-90) || JsNumber.Qltb 90 lat); [eauto|].
  assert (E : JsNumber.Qltb lon (-180) || JsNumber.Qltb 180 lon = true).
  { apply orb_true_iff. destruct H as [H|H]; [left | right]; now apply Qltb_true. }
  rewrite E. eauto.
Qed.

(** A point of the equator. *)
Lemma geolocation_rejects_witness :
  exists error message,
    Routes.geolocation Scenarios.third_answers (Some 0%Q) (Some 75%Q)
    = (Routes.BadRequest error message, Geo.no_trail).
Proof.
apply geolocation_rejects. left. reflexivity.
Defined.

(** X12: for a latitude and a longitude that are not 0 and lie in
    [-90, 90] and [-180, 180], the handler answers with what
    [getLiveDistrict] comes to: status 200 with the result returned, which
    has a state and a district, and with a warning exactly when the state
    is not "Maharashtra"; or status 500 with the fixed message of the chain
    when no provider yields enough. *)
Theorem geolocation_answers (w : Geo.World) (lat lon : Q) :
  (~ lat == 0 -> ~ lon == 0 -> -90 <= lat -> lat <= 90 -> -180 <= lon -> lon <= 180 ->
   (exists r t,
       Routes.geolocation w (Some lat) (Some lon)
       = (Routes.Located r
            (if Geo.opt_eqb (Geo.state r) (Some "Maharashtra"%string)
             then None else Some Routes.OUTSIDE), t)
       /\ Geo.getLiveDistrict w lat lon Geo.no_trail = (Return r, t)
       /\ truthy (Geo.state r) = true /\ truthy (Geo.district r) = true)
   \/ (exists t,
         Routes.geolocation w (Some lat) (Some lon)
         = (Routes.ServerError Geo.ALL_FAILED, t)
         /\ Geo.getLiveDistrict w lat lon Geo.no_trail = (Throw Geo.ALL_FAILED, t)))%Q.
Proof.
intros Hla Hlo H1 H2 H3 H4. unfold Routes.geolocation.
assert (Gla : Routes.given (Some lat) = true).
{ cbn. apply negb_true_iff. destruct (Qeq_bool lat 0) eqn:E; [|reflexivity].
  apply Qeq_bool_eq in E. contradiction. }
assert (Glo : Routes.given (Some lon) = true).
{ cbn. apply negb_true_iff. destruct (Qeq_bool lon 0) eqn:E; [|reflexivity].
  apply Qeq_bool_eq in E. contradiction. }
rewrite Gla, Glo. cbn [negb orb].
assert (Ela : JsNumber.Qltb lat (-90) || JsNumber.Qltb 90 lat = false).
{ apply orb_false_iff. split; now apply Qltb_false. }
assert (Elo : JsNumber.Qltb lon (-180) || JsNumber.Qltb 180 lon = false).
{ apply orb_false_iff. split; now apply Qltb_false. }
rewrite Ela, Elo.
destruct (chain_result w lat lon) as [[_ E]|[pre [p [post [r [_ [_ [_ [_ [Hs E]]]]]]]]]];
  rewrite E.
- right. eexists. split; reflexivity.
- left. eexists. eexists. split; [|split; [reflexivity|]].
  + cbn [Geo.isInMaharashtra]. now destruct (Geo.opt_eqb _ _).
  + unfold Geo.sufficient in Hs. apply andb_true_iff in Hs. tauto.
Qed.

(** A point near Aurangabad, answered by Geoapify. *)
Lemma geolocation_answers_witness :
  ((exists r t,
       Routes.geolocation Scenarios.third_answers (Some 19) (Some 75)
       = (Routes.Located r
            (if Geo.opt_eqb (Geo.state r) (Some "Maharashtra"%string)
             then None else Some Routes.OUTSIDE), t)
       /\ Geo.getLiveDistrict Scenarios.third_answers 19 75 Geo.no_trail = (Return r, t)
       /\ truthy (Geo.state r) = true /\ truthy (Geo.district r) = true)
   \/ (exists t,
         Routes.geolocation Scenarios.third_answers (Some 19) (Some 75)
         = (Routes.ServerError Geo.ALL_FAILED, t)
         /\ Geo.getLiveDistrict Scenarios.third_answers 19 75 Geo.no_trail
            = (Throw Geo.ALL_FAILED, t)))%Q.
Proof.
apply (geolocation_answers Scenarios.third_answers 19 75); lra.
Defined.

(** * Further properties of the leaderboard *)

Section TotalsFacts.

Import JsNumber JsArray Leaderboard LeaderboardSpec LeaderboardTotals.
Local Open Scope Q_scope.


Lemma Qsum_app (l m : list Q) : Qsum (l ++ m) == Qsum l + Qsum m.
Proof.
unfold Qsum. induction l as [|x l IH]; simpl; [lra|]. rewrite IH. lra.
Qed.





(** The greatest number of households among the rows of a district. *)
Lemma summary_households (k : string) (rows : list Doc) :
  0 <= householdsWorked (summary k rows)
  /\ (forall r, In r rows -> households r <= householdsWorked (summary k rows))
  /\ (householdsWorked (summary k rows) == 0
      \/ exists r, In r rows /\ householdsWorked (summary k rows) == households r).
Proof.
induction rows as [|r rows [H0 [Hall Hsome]]] using rev_ind.
- cbn. split; [lra|]. split; [contradiction | left; reflexivity].
- rewrite summary_snoc. cbn [householdsWorked add_record].
  fold (households r). split; [|split].
  + eapply Qle_trans; [exact H0 | apply Q.le_max_l].
  + intros x Hx. apply in_app_or in Hx. destruct Hx as [Hx|[<-|[]]].
    * eapply Qle_trans; [apply (Hall x Hx) | apply Q.le_max_l].
    * apply Q.le_max_r.
  + destruct (Q.max_dec (householdsWorked (summary k rows)) (households r)) as [E|E].
    * destruct Hsome as [Hz|[x [Hx Ex]]].
      -- left. now rewrite E.
      -- right. exists x. split; [apply in_or_app; now left | now rewrite E].
    * right. exists r. split; [apply in_or_app; right; now left | exact E].
Qed.

End TotalsFacts.


(** X14: the households of an entry are the greatest number of households
    reported by a row of its district (never their sum), and 0 when no row
    reports a positive number. *)
Theorem households_are_the_maximum
    (db : list Leaderboard.Doc) (e : Leaderboard.Entry) :
  In e (Leaderboard.leaderboard (Leaderboard.getMaharashtraLeaderboard db)) ->
  let rows := LeaderboardSpec.rows_of (Leaderboard.e_district e)
                (LeaderboardSpec.selected db) in
  let shown := Leaderboard.m_householdsWorked (Leaderboard.metrics e) in
  (0 <= shown
   /\ (forall r, In r rows -> LeaderboardTotals.households r <= shown)
   /\ (shown == 0
       \/ exists r, In r rows /\ shown == LeaderboardTotals.households r))%Q.
Proof.
rewrite leaderboard_selected. intros He.
destruct (rank_all_origin _ _ He) as [data [i [Hd ->]]].
destruct (all_data_inv _ _ Hd) as [k [Hk ->]].
cbn [Leaderboard.e_district Leaderboard.metrics Leaderboard.m_householdsWorked
     Leaderboard.add_rank Leaderboard.make_entry Leaderboard.d_district
     Leaderboard.householdsWorked Leaderboard.average_wage].
rewrite summary_district. apply summary_households.
Qed.

(** Pune reports 30 and 45 households in the latest year: 45 are shown. *)
Lemma households_are_the_maximum_witness :
  let e := LeaderboardScenarios.entry_at 0 LeaderboardTotals.mixed in
  (Leaderboard.e_district e = "PUNE"%string
   /\ Leaderboard.m_householdsWorked (Leaderboard.metrics e) == 45
   /\ 0 <= Leaderboard.m_householdsWorked (Leaderboard.metrics e))%Q.
Proof.
cbn zeta. split; [reflexivity|]. split; [vm_compute; reflexivity|].
apply (households_are_the_maximum LeaderboardTotals.mixed
         (LeaderboardScenarios.entry_at 0 LeaderboardTotals.mixed)).
vm_compute. left. reflexivity.
Defined.

Section RankFacts.

Import JsNumber JsArray Leaderboard LeaderboardSpec LeaderboardTotals.
Local Open Scope Q_scope.

Lemma rank_above (n : nat) (l : list Entry) (e : Entry) :
  In e (mapi_from add_rank n l) -> (n < rank e)%nat.
Proof.
revert n. induction l as [|x l IH]; intros n; simpl; [contradiction|].
intros [<-|H]; [cbn; lia|]. specialize (IH _ H). lia.
Qed.


Lemma fold_max_ge (l : list Z) (a : Z) : (a <= fold_left Z.max l a)%Z.
Proof.
revert a. induction l as [|x l IH]; intros a; simpl; [lia|].
specialize (IH (Z.max a x)). lia.
Qed.

Lemma fold_max_upper (l : list Z) (a x : Z) :
  In x l -> (x <= fold_left Z.max l a)%Z.
Proof.
revert a. induction l as [|y l IH]; intros a; simpl; [contradiction|].
intros [->|H]; [|now apply IH].
pose proof (fold_max_ge l (Z.max a x)). lia.
Qed.

Lemma fold_max_in (l : list Z) (a : Z) : In (fold_left Z.max l a) (a :: l).
Proof.
revert a. induction l as [|y l IH]; intros a; simpl; [now left|].
destruct (IH (Z.max a y)) as [H|H]; [|right; now right].
rewrite <- H. destruct (Z.max_dec a y) as [E|E]; rewrite E; [now left | right; now left].
Qed.

(** The latest year is the year of a record of Maharashtra, and no record
    of Maharashtra has a later one. *)
Lemma latestYear_spec (db : list Doc) (y : Z) :
  latestYear db = Some y ->
  (exists r, In r (of_maharashtra db) /\ year r = y)
  /\ (forall r, In r (of_maharashtra db) -> (year r <= y)%Z).
Proof.
unfold latestYear. destruct (of_maharashtra db) as [|r rs]; [discriminate|].
intros [= <-]. split.
- destruct (fold_max_in (map year rs) (year r)) as [H|H].
  + exists r. split; [now left | exact H].
  + apply in_map_iff in H. destruct H as [x [Hx Hin]].
    exists x. split; [now right | exact Hx].
- intros x [<-|Hx]; [apply fold_max_ge|].
  apply fold_max_upper. now apply in_map.
Qed.

Lemma of_maharashtra_in (db : list Doc) (r : Doc) :
  In r (of_maharashtra db) <-> In r db /\ is_maharashtra r = true.
Proof. unfold of_maharashtra, is_maharashtra. apply filter_In. Qed.

Lemma latestYear_none (db : list Doc) :
  latestYear db = None <-> existsb is_maharashtra db = false.
Proof.
unfold latestYear. split.
- destruct (of_maharashtra db) as [|r rs] eqn:E; [|discriminate]. intros _.
  destruct (existsb is_maharashtra db) eqn:Ex; [|reflexivity].
  apply existsb_exists in Ex. destruct Ex as [x Hx].
  apply of_maharashtra_in in Hx. rewrite E in Hx. contradiction.
- intros H. destruct (of_maharashtra db) as [|r rs] eqn:E; [reflexivity|].
  assert (Hr : In r (of_maharashtra db)) by (rewrite E; now left).
  apply of_maharashtra_in in Hr. destruct Hr as [Hin Hm].
  assert (Ex : existsb is_maharashtra db = true).
  { apply existsb_exists. now exists r. }
  congruence.
Qed.

(** The records the leaderboard is computed from: those of Maharashtra
    whose year no other record of Maharashtra exceeds. *)
Lemma selected_spec (db : list Doc) (r : Doc) :
  In r (selected db)
  <-> In r db /\ is_maharashtra r = true
      /\ forall r', In r' db -> is_maharashtra r' = true -> (year r' <= year r)%Z.
Proof.
unfold selected. destruct (latestYear db) as [y|] eqn:E.
- destruct (latestYear_spec db y E) as [[r0 [Hr0 Hy]] Hup].
  unfold find_year. rewrite filter_In, of_maharashtra_in, Z.eqb_eq. split.
  + intros [[Hin Hm] Hyr]. repeat split; auto.
    intros r' Hr' Hm'. rewrite Hyr. apply Hup. now apply of_maharashtra_in.
  + intros [Hin [Hm Hmax]]. repeat split; auto.
    assert (H1 : (year r <= y)%Z) by (apply Hup; now apply of_maharashtra_in).
    apply of_maharashtra_in in Hr0. destruct Hr0 as [Hin0 Hm0].
    specialize (Hmax r0 Hin0 Hm0). lia.
- apply latestYear_none in E. split; [contradiction|].
  intros [Hin [Hm _]].
  assert (Ex : existsb is_maharashtra db = true).
  { apply existsb_exists. now exists r. }
  congruence.
Qed.

Lemma selected_nonempty (db : list Doc) :
  existsb is_maharashtra db = true -> selected db <> [].
Proof.
intros H. unfold selected.
destruct (latestYear db) as [y|] eqn:E.
- destruct (latestYear_spec db y E) as [[r0 [Hr0 Hy]] _].
  intros Hnil.
  assert (Hin : In r0 (find_year db y)).
  { unfold find_year. apply filter_In. split; [exact Hr0 | now apply Z.eqb_eq]. }
  rewrite Hnil in Hin. contradiction.
- apply latestYear_none in E. congruence.
Qed.

End RankFacts.



(** X16: every district that has a record among those selected has exactly
    one entry in the leaderboard, and the leaderboard has no entry for any
    other district. *)
Theorem one_entry_per_district (db : list Leaderboard.Doc) :
  let names := map Leaderboard.e_district
                 (Leaderboard.leaderboard (Leaderboard.getMaharashtraLeaderboard db)) in
  NoDup names
  /\ forall d, In d names
               <-> exists r, In r (LeaderboardSpec.selected db) /\ Leaderboard.district r = d.
Proof.
cbn zeta. rewrite leaderboard_selected. split; [apply rank_all_NoDup|].
intros d. pose proof (rank_all_districts (LeaderboardSpec.selected db)) as Hp.
split.
- intros H. apply (Permutation_in _ Hp) in H. unfold LeaderboardSpec.groups in H.
  apply (proj1 (in_distinct _ _)) in H. apply in_map_iff in H.
  destruct H as [r [Hr Hin]]. exists r. split; assumption.
- intros [r [Hin <-]]. apply (Permutation_in _ (Permutation_sym Hp)).
  unfold LeaderboardSpec.groups. apply (proj2 (in_distinct _ _)). now apply in_map.
Qed.

Section SelectionFacts.

Import Leaderboard LeaderboardSpec LeaderboardTotals.

Lemma selected_some (db : list Doc) (y : Z) :
  latestYear db = Some y -> selected db = find_year db y.
Proof. intros H. unfold selected. now rewrite H. Qed.

(** The selected records are all that the service needs: alone, they are
    selected again. *)
Lemma selected_again (db : list Doc) :
  latestYear (selected db) = latestYear db /\ selected (selected db) = selected db.
Proof.
destruct (latestYear db) as [y|] eqn:E.
- assert (Hsel : selected db = find_year db y) by (unfold selected; now rewrite E).
  rewrite Hsel. set (S := find_year db y).
  assert (Hall : forall r, In r S -> is_maharashtra r = true /\ year r = y).
  { intros r Hr. unfold S, find_year in Hr. apply filter_In in Hr.
    destruct Hr as [Hm Hy]. apply of_maharashtra_in in Hm. apply Z.eqb_eq in Hy. tauto. }
  assert (Hm : of_maharashtra S = S).
  { apply filter_all. intros r Hr. now apply Hall. }
  assert (Hne : S <> []).
  { unfold S. rewrite <- Hsel. apply selected_nonempty.
    destruct (existsb is_maharashtra db) eqn:Ex; [reflexivity|].
    apply latestYear_none in Ex. congruence. }
  assert (Hy : latestYear S = Some y).
  { destruct (latestYear S) as [y'|] eqn:E'.
    - destruct (latestYear_spec S y' E') as [[r [Hr Hry]] _].
      rewrite Hm in Hr. destruct (Hall r Hr) as [_ Hyr]. congruence.
    - unfold latestYear in E'. rewrite Hm in E'.
      destruct S; [contradiction | discriminate]. }
  split; [exact Hy|].
  unfold selected. rewrite Hy. unfold find_year at 1. rewrite Hm.
  apply filter_all. intros r Hr. apply Z.eqb_eq. now apply Hall.
- assert (Hsel : selected db = []) by (unfold selected; now rewrite E).
  rewrite Hsel. split; reflexivity.
Qed.

End SelectionFacts.

(** X19: the records that [getMaharashtraLeaderboard] aggregates (the answer
    of its second query) are those of Maharashtra of the latest year only: a
    record is among them exactly when its state is "Maharashtra" and no
    record of Maharashtra has a later year. The records of other states and
    of earlier years change nothing: without them the answer is the same. *)
Theorem only_latest_maharashtra_records (db : list Leaderboard.Doc) :
  (forall r,
      In r (LeaderboardSpec.selected db)
      <-> In r db /\ Leaderboard.state r = "Maharashtra"%string
          /\ forall r', In r' db -> Leaderboard.state r' = "Maharashtra"%string ->
                        (Leaderboard.year r' <= Leaderboard.year r)%Z)
  /\ Leaderboard.getMaharashtraLeaderboard (LeaderboardSpec.selected db)
     = Leaderboard.getMaharashtraLeaderboard db.
Proof.
split.
- intros r. rewrite selected_spec. unfold LeaderboardTotals.is_maharashtra.
  rewrite String.eqb_eq. split; intros [H1 [H2 H3]]; repeat split; auto.
  + intros r' Hr' Hs. apply H3; [exact Hr' | now apply String.eqb_eq].
  + intros r' Hr' Hs. apply H3; [exact Hr' | now apply String.eqb_eq].
- destruct (selected_again db) as [Hy Hs].
  unfold Leaderboard.getMaharashtraLeaderboard. rewrite Hy.
  destruct (Leaderboard.latestYear db) as [y|] eqn:E; [|reflexivity].
  assert (Hsel : LeaderboardSpec.selected db = Leaderboard.find_year db y).
  { unfold LeaderboardSpec.selected. now rewrite E. }
  assert (Hfind : Leaderboard.find_year (LeaderboardSpec.selected db) y
                  = Leaderboard.find_year db y).
  { rewrite <- (selected_some _ _ Hy), Hs. exact Hsel. }
  cbn zeta. now rewrite Hfind.
Qed.

Section QueryFacts.

Import JsNumber JsArray Leaderboard LeaderboardSpec LeaderboardTotals.
Local Open Scope Q_scope.

Lemma rank_all_length (districts : list Doc) :
  List.length (rank_all districts) = List.length (groups districts).
Proof.
rewrite <- (length_map e_district). apply Permutation_length, rank_all_districts.
Qed.

Lemma groups_nonempty (districts : list Doc) : districts <> [] -> groups districts <> [].
Proof. destruct districts; [contradiction | discriminate]. Qed.

(** [find] on a ranked list yields the match of lowest rank. *)
Lemma find_first_rank (f : Entry -> bool) (l : list Entry) (n : nat) (e : Entry) :
  find f (mapi_from add_rank n l) = Some e ->
  forall e', In e' (mapi_from add_rank n l) -> f e' = true -> (rank e <= rank e')%nat.
Proof.
revert n. induction l as [|x l IH]; intros n; simpl; [discriminate|].
destruct (f (add_rank x n)) eqn:E.
- intros [= <-] e' [<-|H] _; [lia|]. apply rank_above in H. cbn. lia.
- intros Hf e' [<-|H] He'; [congruence|]. exact (IH _ Hf e' H He').
Qed.

Lemma success_iff (db : list Doc) :
  success (getMaharashtraLeaderboard db) = existsb is_maharashtra db.
Proof.
unfold getMaharashtraLeaderboard. destruct (latestYear db) eqn:E; cbn [success].
- destruct (existsb is_maharashtra db) eqn:Ex; [reflexivity|].
  apply latestYear_none in Ex. congruence.
- symmetry. now apply latestYear_none.
Qed.

Lemma firstn_of_seq (k start len : nat) :
  firstn k (seq start len) = seq start (Nat.min k len).
Proof.
revert start len. induction k as [|k IH]; intros start len; [reflexivity|].
destruct len as [|len]; [reflexivity|]. simpl. now rewrite IH.
Qed.

Lemma firstn_ranks (k : nat) (districts : list Doc) :
  map rank (firstn k (rank_all districts))
  = seq 1 (Nat.min k (List.length (rank_all districts))).
Proof.
unfold rank_all, mapi. rewrite <- firstn_map, ranks_from, length_mapi_from.
apply firstn_of_seq.
Qed.

End QueryFacts.

(** X17: as soon as the collection holds a record of Maharashtra, the
    answer is a success, the leaderboard has at least one entry, and
    [totalDistricts] is the number of its entries. *)
Theorem leaderboard_with_data (db : list Leaderboard.Doc) :
  existsb LeaderboardTotals.is_maharashtra db = true ->
  let answer := Leaderboard.getMaharashtraLeaderboard db in
  Leaderboard.success answer = true
  /\ Leaderboard.message answer = None
  /\ Leaderboard.totalDistricts answer
     = Some (List.length (Leaderboard.leaderboard answer))
  /\ (1 <= List.length (Leaderboard.leaderboard answer))%nat.
Proof.
intros H. cbn zeta. split; [now rewrite success_iff|].
pose proof (leaderboard_selected db) as Hlb.
unfold Leaderboard.getMaharashtraLeaderboard in *.
destruct (Leaderboard.latestYear db) as [y|] eqn:E.
- cbn [Leaderboard.message Leaderboard.totalDistricts Leaderboard.leaderboard] in *.
  split; [reflexivity|]. split; [reflexivity|].
  rewrite Hlb, rank_all_length.
  pose proof (groups_nonempty _ (selected_nonempty db H)) as Hg.
  destruct (LeaderboardSpec.groups (LeaderboardSpec.selected db));
    [contradiction | simpl; lia].
- apply latestYear_none in E. congruence.
Qed.

Lemma leaderboard_with_data_witness :
  Leaderboard.totalDistricts (Leaderboard.getMaharashtraLeaderboard LeaderboardTotals.mixed)
  = Some 2%nat.
Proof.
destruct (leaderboard_with_data LeaderboardTotals.mixed eq_refl) as [_ [_ [H _]]].
rewrite H. reflexivity.
Defined.

(** X18: when the collection holds no record of Maharashtra, the answer is
    the failure "No data found for Maharashtra" with an empty leaderboard,
    and the three queries built on it answer with nothing: no rank, no top
    districts, no district of any category. None of them throws. *)
Theorem leaderboard_without_data
    (db : list Leaderboard.Doc) (name category : string) (limit : Z) :
  existsb LeaderboardTotals.is_maharashtra db = false ->
  Leaderboard.getMaharashtraLeaderboard db
  = {| Leaderboard.success := false;
       Leaderboard.message := Some "No data found for Maharashtra"%string;
       Leaderboard.latest := None;
       Leaderboard.totalDistricts := None;
       Leaderboard.leaderboard := [] |}
  /\ Leaderboard.getDistrictRank db name = None
  /\ Leaderboard.getTopDistricts db limit = []
  /\ Leaderboard.getDistrictsByCategory db category = [].
Proof.
intros H. apply latestYear_none in H.
unfold Leaderboard.getDistrictRank, Leaderboard.getTopDistricts,
       Leaderboard.getDistrictsByCategory, Leaderboard.getMaharashtraLeaderboard.
rewrite H. repeat split.
Qed.

Lemma leaderboard_without_data_witness :
  Leaderboard.getDistrictRank LeaderboardTotals.elsewhere "SURAT" = None.
Proof.
exact (proj1 (proj2 (leaderboard_without_data LeaderboardTotals.elsewhere
                       "SURAT" "" 0 eq_refl))).
Defined.

(** X20: when [getDistrictRank] finds an entry, it is an entry of the
    leaderboard whose district is the requested name up to the case of the
    letters, and among such entries the one of best rank. *)
Theorem getDistrictRank_found
    (db : list Leaderboard.Doc) (name : string) (e : Leaderboard.Entry) :
  Leaderboard.getDistrictRank db name = Some e ->
  In e (Leaderboard.leaderboard (Leaderboard.getMaharashtraLeaderboard db))
  /\ toLowerCase (Leaderboard.e_district e) = toLowerCase name
  /\ forall e',
       In e' (Leaderboard.leaderboard (Leaderboard.getMaharashtraLeaderboard db)) ->
       toLowerCase (Leaderboard.e_district e') = toLowerCase name ->
       (Leaderboard.rank e <= Leaderboard.rank e')%nat.
Proof.
unfold Leaderboard.getDistrictRank.
destruct (negb (Leaderboard.success _)); [discriminate|].
intros H. destruct (find_some _ _ H) as [Hin Hname]. apply String.eqb_eq in Hname.
split; [exact Hin|]. split; [exact Hname|].
intros e' He' Hn'. rewrite leaderboard_selected in *.
unfold Leaderboard.rank_all, JsArray.mapi in *.
apply (find_first_rank _ _ _ _ H e' He'). now apply String.eqb_eq.
Qed.

(** Thane is found under another spelling. *)
Lemma getDistrictRank_found_witness :
  toLowerCase (Leaderboard.e_district
                 (LeaderboardScenarios.entry_at 1 LeaderboardTotals.mixed))
  = toLowerCase "THANE".
Proof.
exact (proj1 (proj2 (getDistrictRank_found LeaderboardTotals.mixed "THANE"
                       (LeaderboardScenarios.entry_at 1 LeaderboardTotals.mixed)
                       eq_refl))).
Defined.

(** X21: [getDistrictRank] answers [null] exactly when no entry of the
    leaderboard has the requested name, up to the case of the letters. *)
Theorem getDistrictRank_not_found (db : list Leaderboard.Doc) (name : string) :
  Leaderboard.getDistrictRank db name = None
  <-> forall e,
        In e (Leaderboard.leaderboard (Leaderboard.getMaharashtraLeaderboard db)) ->
        toLowerCase (Leaderboard.e_district e) <> toLowerCase name.
Proof.
unfold Leaderboard.getDistrictRank.
destruct (Leaderboard.success (Leaderboard.getMaharashtraLeaderboard db)) eqn:Es;
  cbn [negb].
- split.
  + intros H e He Hn.
    pose proof (find_none _ _ H e He) as Hf. cbn beta in Hf.
    apply String.eqb_neq in Hf. contradiction.
  + intros H.
    destruct (find _ (Leaderboard.leaderboard (Leaderboard.getMaharashtraLeaderboard db)))
      as [e|] eqn:Ef; [|reflexivity].
    destruct (find_some _ _ Ef) as [Hin Hn]. apply String.eqb_eq in Hn.
    exfalso. exact (H e Hin Hn).
- split; [|reflexivity]. intros _ e He.
  unfold Leaderboard.getMaharashtraLeaderboard in *.
  destruct (Leaderboard.latestYear db); [discriminate | contradiction].
Qed.

(** X22: for a limit that is not negative, [getTopDistricts] returns the
    first entries of the leaderboard, as many as the limit or all of them
    when there are fewer, and their ranks are 1, 2, ... in this order. *)
Theorem getTopDistricts_prefix (db : list Leaderboard.Doc) (limit : Z) :
  (0 <= limit)%Z ->
  let lb := Leaderboard.leaderboard (Leaderboard.getMaharashtraLeaderboard db) in
  let top := Leaderboard.getTopDistricts db limit in
  top = firstn (Z.to_nat limit) lb
  /\ List.length top = Nat.min (Z.to_nat limit) (List.length lb)
  /\ map Leaderboard.rank top = seq 1 (Nat.min (Z.to_nat limit) (List.length lb)).
Proof.
intros Hl. cbn zeta.
assert (Htop : Leaderboard.getTopDistricts db limit
               = firstn (Z.to_nat limit)
                   (Leaderboard.leaderboard (Leaderboard.getMaharashtraLeaderboard db))).
{ unfold Leaderboard.getTopDistricts, JsArray.slice0.
  apply Z.ltb_ge in Hl. rewrite Hl.
  destruct (Leaderboard.success (Leaderboard.getMaharashtraLeaderboard db)) eqn:Es;
    cbn [negb]; [reflexivity|].
  unfold Leaderboard.getMaharashtraLeaderboard in *.
  destruct (Leaderboard.latestYear db); [discriminate|].
  cbn. now rewrite firstn_nil. }
rewrite Htop. split; [reflexivity|]. split; [apply length_firstn|].
rewrite leaderboard_selected. apply firstn_ranks.
Qed.

Lemma getTopDistricts_prefix_witness :
  map Leaderboard.rank (Leaderboard.getTopDistricts LeaderboardScenarios.tie 2)
  = [1; 2]%nat
  /\ List.length (Leaderboard.getTopDistricts LeaderboardScenarios.tie 5) = 3%nat.
Proof.
split.
- destruct (getTopDistricts_prefix LeaderboardScenarios.tie 2) as [_ [_ H]]; [lia|].
  rewrite H. reflexivity.
- destruct (getTopDistricts_prefix LeaderboardScenarios.tie 5) as [_ [H _]]; [lia|].
  rewrite H. reflexivity.
Defined.

Section BandFacts.

Import JsNumber JsArray Leaderboard LeaderboardSpec LeaderboardTotals.
Local Open Scope Q_scope.




(** What the rows of a district add up to, for a figure added up record by
    record. *)
Lemma summary_sum (g : DistrictData -> Q) (f : Doc -> Q) :
  (forall r d, g (add_record r d) == g d + f r) ->
  (forall k, g (fresh k) == 0) ->
  forall k rows, g (summary k rows) == Qsum (map f rows).
Proof.
intros Hadd Hfresh k rows. induction rows as [|r rows IH] using rev_ind.
- apply Hfresh.
- rewrite summary_snoc, Hadd, IH, map_app, Qsum_app. unfold Qsum. simpl. lra.
Qed.

Lemma Qsum_zeros (f : Doc -> Q) (rows : list Doc) :
  (forall r, In r rows -> f r == 0) -> Qsum (map f rows) == 0.
Proof.
intros H. induction rows as [|r rows IH]; [reflexivity|].
unfold Qsum in *. simpl. rewrite (H r (or_introl eq_refl)), IH; [lra|].
intros x Hx. apply H. now right.
Qed.

End BandFacts.






(** X25: when no selected record reports person-days or expenditure, the
    two maxima by which the score divides are the floor 1 and not 0, and
    every district scores 0 and is labelled as needing improvement. *)
Theorem idle_districts_score_zero (db : list Leaderboard.Doc) (e : Leaderboard.Entry) :
  forallb LeaderboardTotals.idle (LeaderboardSpec.selected db) = true ->
  In e (Leaderboard.leaderboard (Leaderboard.getMaharashtraLeaderboard db)) ->
  (Leaderboard.maxPersonDays_of (Leaderboard.all_data (LeaderboardSpec.selected db)) == 1)%Q
  /\ (Leaderboard.maxExpenditure_of (Leaderboard.all_data (LeaderboardSpec.selected db)) == 1)%Q
  /\ (Leaderboard.score e == 0)%Q
  /\ Leaderboard.category e = Leaderboard.label Leaderboard.NEEDS_IMPROVEMENT
  /\ Leaderboard.categoryColor e = "red"%string.
Proof.
rewrite leaderboard_selected. intros Hidle He.
rewrite forallb_forall in Hidle.
assert (Hall : forall k r,
          In r (LeaderboardSpec.rows_of k (LeaderboardSpec.selected db)) ->
          (LeaderboardTotals.persondays r == 0 /\ LeaderboardTotals.expenditure r == 0)%Q).
{ intros k r Hr. unfold LeaderboardSpec.rows_of in Hr. apply filter_In in Hr.
  specialize (Hidle r (proj1 Hr)). unfold LeaderboardTotals.idle in Hidle.
  apply andb_true_iff in Hidle. destruct Hidle as [A B].
  split; now apply Qeq_bool_eq. }
assert (Hmax : forall (f : Leaderboard.DistrictData -> Q) (g : Leaderboard.Doc -> Q),
          (forall k, f (Leaderboard.fresh k) == 0)%Q ->
          (forall r d, f (Leaderboard.add_record r d) == f d + g r)%Q ->
          (forall d, f (Leaderboard.average_wage d) = f d) ->
          (forall k r, In r (LeaderboardSpec.rows_of k (LeaderboardSpec.selected db)) ->
                       (g r == 0)%Q) ->
          (JsNumber.Math_max
             (map (fun d => JsNumber.or_zero (f d))
                  (Leaderboard.all_data (LeaderboardSpec.selected db))) 1 == 1)%Q).
{ intros f g F0 F1 F2 G. apply Qle_antisym; [|apply Math_max_floor].
  apply Math_max_least; [apply Qle_refl|].
  intros x Hx. apply in_map_iff in Hx. destruct Hx as [d [<- Hd']].
  destruct (all_data_inv _ _ Hd') as [k [_ ->]].
  rewrite or_zero_eq, F2, (summary_sum f g F1 F0).
  rewrite Qsum_zeros; [lra|]. intros r Hr. exact (G k r Hr). }
split.
{ apply (Hmax Leaderboard.totalPersonDays LeaderboardTotals.persondays);
    try (intros; reflexivity).
  intros k r Hr. exact (proj1 (Hall k r Hr)). }
split.
{ apply (Hmax Leaderboard.totalExpenditure LeaderboardTotals.expenditure);
    try (intros; reflexivity).
  intros k r Hr. exact (proj2 (Hall k r Hr)). }
destruct (rank_all_origin _ _ He) as [data [i [Hd ->]]].
destruct (all_data_inv _ _ Hd) as [k [_ ->]].
cbn [Leaderboard.score Leaderboard.category Leaderboard.categoryColor
     Leaderboard.add_rank Leaderboard.make_entry].
set (rows := LeaderboardSpec.rows_of k (LeaderboardSpec.selected db)).
assert (Hrows : forall r, In r rows ->
          (LeaderboardTotals.persondays r == 0 /\ LeaderboardTotals.expenditure r == 0)%Q).
{ intros r Hr. unfold rows, LeaderboardSpec.rows_of in Hr. apply filter_In in Hr.
  specialize (Hidle r (proj1 Hr)). unfold LeaderboardTotals.idle in Hidle.
  apply andb_true_iff in Hidle. destruct Hidle as [A B].
  split; now apply Qeq_bool_eq. }
assert (Hp : (Leaderboard.totalPersonDays
                (Leaderboard.average_wage (LeaderboardSpec.summary k rows)) == 0)%Q).
{ cbn [Leaderboard.totalPersonDays Leaderboard.average_wage].
  rewrite (summary_sum Leaderboard.totalPersonDays LeaderboardTotals.persondays);
    try (intros; reflexivity).
  apply Qsum_zeros. intros r Hr. now apply Hrows. }
assert (Hx : (Leaderboard.totalExpenditure
                (Leaderboard.average_wage (LeaderboardSpec.summary k rows)) == 0)%Q).
{ cbn [Leaderboard.totalExpenditure Leaderboard.average_wage].
  rewrite (summary_sum Leaderboard.totalExpenditure LeaderboardTotals.expenditure);
    try (intros; reflexivity).
  apply Qsum_zeros. intros r Hr. now apply Hrows. }
assert (Hs : (Leaderboard.calculatePerformanceScore
                (Some (Leaderboard.average_wage (LeaderboardSpec.summary k rows)))
                (Leaderboard.maxPersonDays_of (Leaderboard.all_data (LeaderboardSpec.selected db)))
                (Leaderboard.maxExpenditure_of (Leaderboard.all_data (LeaderboardSpec.selected db)))
              == 0)%Q).
{ rewrite score_value; try apply Math_max_floor.
  rewrite (Math_round_integer 0); [reflexivity|].
  rewrite !or_zero_eq, Hp, Hx. change (inject_Z 0) with 0%Q.
  unfold Qdiv. rewrite !Qmult_0_l. reflexivity. }
split; [exact Hs|].
unfold Leaderboard.getPerformanceCategory.
assert (E80 : Qle_bool 80 (Leaderboard.calculatePerformanceScore
                (Some (Leaderboard.average_wage (LeaderboardSpec.summary k rows)))
                (Leaderboard.maxPersonDays_of (Leaderboard.all_data (LeaderboardSpec.selected db)))
                (Leaderboard.maxExpenditure_of (Leaderboard.all_data (LeaderboardSpec.selected db))))
              = false).
{ apply Qle_bool_false. rewrite Hs. reflexivity. }
assert (E60 : Qle_bool 60 (Leaderboard.calculatePerformanceScore
                (Some (Leaderboard.average_wage (LeaderboardSpec.summary k rows)))
                (Leaderboard.maxPersonDays_of (Leaderboard.all_data (LeaderboardSpec.selected db)))
                (Leaderboard.maxExpenditure_of (Leaderboard.all_data (LeaderboardSpec.selected db))))
              = false).
{ apply Qle_bool_false. rewrite Hs. reflexivity. }
assert (E40 : Qle_bool 40 (Leaderboard.calculatePerformanceScore
                (Some (Leaderboard.average_wage (LeaderboardSpec.summary k rows)))
                (Leaderboard.maxPersonDays_of (Leaderboard.all_data (LeaderboardSpec.selected db)))
                (Leaderboard.maxExpenditure_of (Leaderboard.all_data (LeaderboardSpec.selected db))))
              = false).
{ apply Qle_bool_false. rewrite Hs. reflexivity. }
rewrite E80, E60, E40. split; reflexivity.
Qed.

(** Two districts that report nothing: both maxima are 1, both score 0. *)
Lemma idle_districts_score_zero_witness :
  (Leaderboard.maxPersonDays_of
     (Leaderboard.all_data (LeaderboardSpec.selected LeaderboardTotals.nothing_reported)) == 1
   /\ Leaderboard.score
        (LeaderboardScenarios.entry_at 1 LeaderboardTotals.nothing_reported) == 0)%Q.
Proof.
destruct (idle_districts_score_zero LeaderboardTotals.nothing_reported
            (LeaderboardScenarios.entry_at 1 LeaderboardTotals.nothing_reported))
  as [H1 [_ [H3 _]]].
- vm_compute. reflexivity.
- vm_compute. right. left. reflexivity.
- split; assumption.
Defined.

Section ShapeFacts.

Import JsNumber JsArray Leaderboard LeaderboardSpec.
Local Open Scope Q_scope.


End ShapeFacts.




